(** * Storyboard pipeline: sanitizer, validator, compiler and repair loop

    A shallow embedding of the core of the text-to-video pipeline:
    - [Sanitizer]  : [fix_gemini_json]          (pipeline.py)
    - [Validator]  : [validate_storyboard]      (pipeline.py)
    - [Compiler]   : [storyboard_to_manim_code] (script_with_noobject.py)
    - [Repair]     : [debug_code] and its caller in [main] (app.py)

    Texts are sequences of code points below 256, held in [string]; the
    character classes of Python's [re] and [str] methods are written out
    on that range. Floats are binary64 numbers with the operations of
    [SpecFloat]; the storyboard is the value [json.loads] returns. *)

From Stdlib Require Import String Ascii List Bool Arith ZArith QArith Lia.
From Stdlib Require Import DecimalString DecimalNat SpecFloat.
From Equations Require Import Equations.
Import ListNotations.

Local Close Scope Q_scope.
Local Open Scope string_scope.
Local Open Scope nat_scope.

(** ** Python text primitives *)

Module PyStr.

Definition ord (c : ascii) : nat := nat_of_ascii c.

(** [str.isspace] and the class [\s] of a [str] pattern. *)
Definition is_space (c : ascii) : bool :=
  let n := ord c in
  ((9 <=? n) && (n <=? 13)) || ((28 <=? n) && (n <=? 32))
  || (n =? 133) || (n =? 160).

(** The class [\d]. *)
Definition is_digit (c : ascii) : bool :=
  let n := ord c in (48 <=? n) && (n <=? 57).

(** The class [[\x00-\x1f]]. *)
Definition is_control (c : ascii) : bool := ord c <? 32.

(** Longest prefix whose characters satisfy [p], and the rest: a greedy
    [p*] that never needs to give characters back. *)
Fixpoint span (p : ascii -> bool) (s : string) : string * string :=
  match s with
  | EmptyString => (EmptyString, EmptyString)
  | String c s' =>
      if p c then let (a, b) := span p s' in (String c a, b)
      else (EmptyString, s)
  end.

(** [s[len(p):]] when [s] starts with [p]. *)
Fixpoint strip_prefix (p s : string) : option string :=
  match p, s with
  | EmptyString, _ => Some s
  | String a p', String b s' =>
      if Ascii.eqb a b then strip_prefix p' s' else None
  | String _ _, EmptyString => None
  end.

Fixpoint lstrip (s : string) : string :=
  match s with
  | EmptyString => EmptyString
  | String c s' => if is_space c then lstrip s' else s
  end.

Fixpoint rstrip (s : string) : string :=
  match s with
  | EmptyString => EmptyString
  | String c s' =>
      match rstrip s' with
      | EmptyString => if is_space c then EmptyString else String c EmptyString
      | r => String c r
      end
  end.

(** [s.strip()] *)
Definition strip (s : string) : string := rstrip (lstrip s).

(** [s.count(c)] for a one-character [c]. *)
Fixpoint count (c : ascii) (s : string) : nat :=
  match s with
  | EmptyString => 0
  | String d s' => (if Ascii.eqb d c then 1 else 0) + count c s'
  end.

(** [c * n] *)
Fixpoint repeat (c : ascii) (n : nat) : string :=
  match n with
  | O => EmptyString
  | S k => String c (repeat c k)
  end.

(** [needle in hay] *)
Fixpoint contains (needle hay : string) : bool :=
  match strip_prefix needle hay with
  | Some _ => true
  | None =>
      match hay with
      | EmptyString => false
      | String _ hay' => contains needle hay'
      end
  end.

Fixpoint filter (p : ascii -> bool) (s : string) : string :=
  match s with
  | EmptyString => EmptyString
  | String c s' => if p c then String c (filter p s') else filter p s'
  end.

Fixpoint forallb (p : ascii -> bool) (s : string) : bool :=
  match s with
  | EmptyString => true
  | String c s' => p c && forallb p s'
  end.

Lemma span_length p s :
  String.length (fst (span p s)) + String.length (snd (span p s))
  = String.length s.
Proof.
  induction s as [|c s IH]; simpl; [reflexivity|].
  destruct (p c); simpl; [|reflexivity].
  destruct (span p s) as [a b]; simpl in *. lia.
Qed.

End PyStr.

(** ** ResponseSanitizer: [fix_gemini_json] (pipeline.py) *)

Module Sanitizer.
Import PyStr.

(** The lazy group [(.*?)] followed by the closing fence: the text up to
    the first [```]. With DOTALL the dot takes every character. *)
Fixpoint until_fence (s : string) : option string :=
  match strip_prefix "```" s with
  | Some _ => Some EmptyString
  | None =>
      match s with
      | EmptyString => None
      | String c s' => option_map (String c) (until_fence s')
      end
  end.

(** [re.search(r"```json(.*?)```", text, re.DOTALL)], as group 1 of the
    leftmost match. *)
Fixpoint search_fenced (s : string) : option string :=
  match s with
  | EmptyString => None
  | String _ s' =>
      match
        match strip_prefix "```json" s with
        | Some rest => until_fence rest
        | None => None
        end
      with
      | Some g => Some g
      | None => search_fenced s'
      end
  end.

(** One match of [\((\d+),\s*(\d+)\)] anchored at the head of [s]:
    both groups and the text after the match. *)
Definition match_pair (s : string) : option (string * string * string) :=
  match s with
  | String "(" s1 =>
      match span is_digit s1 with
      | (String _ _ as d1, String "," s2) =>
          match span is_digit (snd (span is_space s2)) with
          | (String _ _ as d2, String ")" s3) => Some (d1, d2, s3)
          | _ => None
          end
      | _ => None
      end
  | _ => None
  end.

(** One match of [,(\s*[\]}])] anchored at the head of [s]: group 1 and
    the text after the match. *)
Definition match_trailing_comma (s : string) : option (string * string) :=
  match s with
  | String "," s1 =>
      match span is_space s1 with
      | (ws, String c s2) =>
          if (Ascii.eqb c "]" || Ascii.eqb c "}")%bool
          then Some (ws ++ String c EmptyString, s2)
          else None
      | _ => None
      end
  | _ => None
  end.

Lemma match_pair_shorter s d1 d2 rest :
  match_pair s = Some (d1, d2, rest) ->
  (String.length rest < String.length s)%nat.
Proof.
  unfold match_pair. destruct s as [|c s1]; [discriminate|].
  destruct (Ascii.eqb_spec c "("%char) as [->|Hc].
  2:{ intros H. exfalso.
      destruct c as [[] [] [] [] [] [] [] []]; try discriminate H.
      apply Hc; reflexivity. }
  pose proof (span_length is_digit s1) as L1.
  destruct (span is_digit s1) as [a b]; simpl in L1.
  destruct a as [|a0 a]; [discriminate|].
  destruct b as [|b0 s2]; [discriminate|].
  pose proof (span_length is_space s2) as L2.
  pose proof (span_length is_digit (snd (span is_space s2))) as L3.
  destruct (span is_digit (snd (span is_space s2))) as [e f]; simpl in L3.
  intros H.
  assert (Hf : exists f0, f = String f0 rest).
  { destruct b0 as [[] [] [] [] [] [] [] []]; try discriminate H.
    destruct e as [|e0 e]; [discriminate|].
    destruct f as [|f0 f]; [discriminate|].
    destruct f0 as [[] [] [] [] [] [] [] []]; try discriminate H.
    injection H as _ _ <-. eexists; reflexivity. }
  destruct Hf as [f0 ->]. simpl in *. lia.
Qed.

Lemma match_trailing_comma_shorter s g rest :
  match_trailing_comma s = Some (g, rest) ->
  (String.length rest < String.length s)%nat.
Proof.
  unfold match_trailing_comma. destruct s as [|c s1]; [discriminate|].
  pose proof (span_length is_space s1) as L1.
  destruct (span is_space s1) as [ws b]; simpl in L1.
  intros H.
  assert (Hb : exists c0, b = String c0 rest).
  { destruct c as [[] [] [] [] [] [] [] []]; try discriminate H.
    destruct b as [|c0 s2]; [discriminate|].
    destruct (Ascii.eqb c0 "]" || Ascii.eqb c0 "}")%bool; [|discriminate].
    injection H as _ <-. eexists; reflexivity. }
  destruct Hb as [c0 ->]. simpl in *. lia.
Qed.

(** A value together with the equation that it is the value of [x], so
    that the branches of a match on it keep that equation. *)
Definition inspect {A : Type} (x : A) : {y : A | x = y} := exist _ x eq_refl.

(** [re.sub(r"\((\d+),\s*(\d+)\)", r"[\1, \2]", text)]: matches are
    tried at each position from the left; after a match the scan resumes
    behind it. *)
Equations sub_pairs (s : string) : string by wf (String.length s) lt :=
  sub_pairs s with inspect (match_pair s) := {
    | exist _ (Some (d1, d2, rest)) Hm =>
        "[" ++ d1 ++ ", " ++ d2 ++ "]" ++ sub_pairs rest
    | exist _ None _ with s := {
        | EmptyString => EmptyString
        | String c s' => String c (sub_pairs s') } }.
Next Obligation. eapply match_pair_shorter; eassumption. Qed.

(** [re.sub(r",(\s*[\]}])", r"\1", text)] *)
Equations sub_trailing_commas (s : string) : string
  by wf (String.length s) lt :=
  sub_trailing_commas s with inspect (match_trailing_comma s) := {
    | exist _ (Some (g, rest)) Hm => g ++ sub_trailing_commas rest
    | exist _ None _ with s := {
        | EmptyString => EmptyString
        | String c s' => String c (sub_trailing_commas s') } }.
Next Obligation. eapply match_trailing_comma_shorter; eassumption. Qed.

(** [re.sub(r"[\x00-\x1f]", "", text)] *)
Definition strip_control (s : string) : string :=
  filter (fun c => negb (is_control c)) s.

(** The text reaching the balancing step (lines 61 to 66). *)
Definition rewrite_text (text : string) : string :=
  let text :=
    match search_fenced text with
    | Some group1 => strip group1
    | None => text
    end in
  let text := sub_pairs text in
  let text := sub_trailing_commas text in
  strip_control text.

(** Lines 68 to 73, for one kind of bracket: closers are appended when
    the openers outnumber them. *)
Definition close_unmatched (opener closer : ascii) (text : string) : string :=
  let open_n := count opener text in
  let close_n := count closer text in
  if close_n <? open_n
  then text ++ repeat closer (open_n - close_n)
  else text.

Definition balance (text : string) : string :=
  close_unmatched "[" "]" (close_unmatched "{" "}" text).

Definition fix_gemini_json (text : string) : string :=
  balance (rewrite_text text).

End Sanitizer.

(** ** Python values and exceptions *)

Module Py.

(** A [float] is a binary64 number: 53 bits of precision, exponents up to
    1024. It is held in the standard form of [SpecFloat], on which the
    sums and quotients below round to nearest, ties to even, as the
    machine does. *)
Definition prec : Z := 53.
Definition emax : Z := 1024.

(** [int] and [float]. *)
Inductive num : Type :=
| Int (z : Z)
| Float (f : spec_float).

(** What [json.loads] returns. A [dict] keeps its entries in insertion
    order and its keys are distinct. [json.loads] builds every [NaN] as
    one and the same object, and no [int] of more than 4300 digits. *)
#[warnings="-register-all"] Inductive value : Type :=
| VNone
| VBool (b : bool)
| VNum (n : num)
| VStr (s : string)
| VList (items : list value)
| VDict (entries : list (string * value)).

Inductive exn : Type :=
| AttributeError
| TypeError
| ZeroDivisionError
| OverflowError
| JSONDecodeError
| KeyError
| RuntimeError.

Inductive result (A : Type) : Type :=
| Ok (a : A)
| Raise (e : exn).
Arguments Ok {A} a.
Arguments Raise {A} e.

Definition bind {A B} (r : result A) (k : A -> result B) : result B :=
  match r with
  | Ok a => k a
  | Raise e => Raise e
  end.

Section Dict.
Context {V : Type}.

(** [d.get(key)] *)
Fixpoint dict_get (key : string) (d : list (string * V)) : option V :=
  match d with
  | [] => None
  | (k, v) :: d' => if String.eqb k key then Some v else dict_get key d'
  end.

(** [d.get(key, default)] *)
Definition dict_get_default (key : string) (d : list (string * V))
  (default : V) : V :=
  match dict_get key d with
  | Some v => v
  | None => default
  end.

(** [d[key] = v]: an existing key keeps its place, a new one goes to
    the end. *)
Fixpoint dict_set (key : string) (v : V) (d : list (string * V))
  : list (string * V) :=
  match d with
  | [] => [(key, v)]
  | (k, w) :: d' =>
      if String.eqb k key then (k, v) :: d'
      else (k, w) :: dict_set key v d'
  end.
End Dict.

(** *** Floats *)

(** The float nearest to an integer, ties to even; an infinity when the
    integer is beyond the largest float. *)
Definition float_of_Z (z : Z) : spec_float :=
  binary_normalize prec emax z 0 false.

(** The conversion of an [int] operand next to a [float] one: it raises
    [OverflowError] (int too large to convert to float). *)
Definition float_of_int (z : Z) : result spec_float :=
  match float_of_Z z with
  | S754_infinity _ => Raise OverflowError
  | f => Ok f
  end.

(** [x + y], [x / y] and [x < y] on floats. A sum or a quotient beyond the
    largest float is an infinity; only a zero divisor raises. *)
Definition float_add (x y : spec_float) : spec_float := SFadd prec emax x y.

Definition float_is_zero (x : spec_float) : bool :=
  match x with
  | S754_zero _ => true
  | _ => false
  end.

Definition float_div (x y : spec_float) : result spec_float :=
  if float_is_zero y then Raise ZeroDivisionError
  else Ok (SFdiv prec emax x y).

Definition float_lt (x y : spec_float) : bool := SFltb x y.

(** [0.5] *)
Definition half : spec_float := S754_finite false 4503599627370496 (-53).

(** [f == z] for a float and an int, which Python compares by their exact
    values. *)
Definition float_eq_Z (f : spec_float) (z : Z) : bool :=
  match f with
  | S754_zero _ => Z.eqb z 0
  | S754_finite s m e =>
      let signed := if s then Z.neg m else Z.pos m in
      match e with
      | Z0 => Z.eqb z signed
      | Zpos p => Z.eqb z (signed * Z.pow 2 (Zpos p))
      | Zneg p => Z.eqb (z * Z.pow 2 (Zpos p)) signed
      end
  | _ => false
  end.

(** [a == b] on numbers. *)
Definition num_eq (a b : num) : bool :=
  match a, b with
  | Int x, Int y => Z.eqb x y
  | Float f, Float g => SFeqb f g
  | Int x, Float g => float_eq_Z g x
  | Float f, Int y => float_eq_Z f y
  end.

(** *** Truth, equality and hashing *)

(** [bool(v)] *)
Definition truthy (v : value) : bool :=
  match v with
  | VNone => false
  | VBool b => b
  | VNum (Int z) => negb (Z.eqb z 0)
  | VNum (Float f) => negb (float_is_zero f)
  | VStr s => negb (String.eqb s "")
  | VList items => match items with [] => false | _ => true end
  | VDict entries => match entries with [] => false | _ => true end
  end.

(** [s == v] for a [str] [s]. *)
Definition str_eq_value (s : string) (v : value) : bool :=
  match v with
  | VStr t => String.eqb s t
  | _ => false
  end.

(** A [bool] is an [int]. *)
Definition as_num (v : value) : option num :=
  match v with
  | VBool b => Some (Int (if b then 1 else 0))
  | VNum n => Some n
  | _ => None
  end.

(** [k == v] when [k] is [None], a [bool], a number or a [str]: numbers are
    compared by value across [bool], [int] and [float], and nothing else is
    equal across types. *)
Definition scalar_eq (k v : value) : bool :=
  match k, v with
  | VNone, VNone => true
  | VStr s, VStr t => String.eqb s t
  | _, _ =>
      match as_num k, as_num v with
      | Some a, Some b => num_eq a b
      | _, _ => false
      end
  end.

(** [hash(v)] raises [TypeError] on a [list] and on a [dict]. *)
Definition hashable (v : value) : bool :=
  match v with
  | VList _ | VDict _ => false
  | _ => true
  end.

Definition is_nan (v : value) : bool :=
  match v with
  | VNum (Float S754_nan) => true
  | _ => false
  end.

(** Whether two hashable values are one key of a [dict]: when they are the
    same object or are equal. [NaN] is equal to nothing, and is found as a
    key because it is one object. *)
Definition key_eq (k v : value) : bool :=
  (is_nan k && is_nan v) || scalar_eq k v.

(** [m[key] = v] on a [dict] whose keys are values: the entry of an equal
    key keeps its place and its key, a new key goes to the end. *)
Fixpoint map_set {V : Type} (key : value) (v : V) (m : list (value * V))
  : list (value * V) :=
  match m with
  | [] => [(key, v)]
  | (k, w) :: m' =>
      if key_eq k key then (k, v) :: m'
      else (k, w) :: map_set key v m'
  end.

(** *** Reading a value *)

(** [v[key]] for a [str] key: only a [dict] takes it. *)
Definition subscript (v : value) (key : string) : result value :=
  match v with
  | VDict d =>
      match dict_get key d with
      | Some x => Ok x
      | None => Raise KeyError
      end
  | _ => Raise TypeError
  end.

(** [v.get(key, default)]: only a [dict] has the method. *)
Definition get (v : value) (key : string) (default : value) : result value :=
  match v with
  | VDict d => Ok (dict_get_default key d default)
  | _ => Raise AttributeError
  end.

(** [str(n)] for an [int]. *)
Definition str_nat (n : nat) : string :=
  NilEmpty.string_of_uint (Nat.to_uint n).

Definition str_int (z : Z) : string :=
  NilZero.string_of_int (Z.to_int z).

End Py.

(** ** StoryboardValidator: [validate_storyboard] (pipeline.py) *)

Module Validator.
Import Py.

(** The elements a [for] loop draws from [v]: the items of a list, the
    one-character strings of a [str], the keys of a [dict]; anything
    else is not iterable. *)
Definition iterate (v : value) : result (list value) :=
  match v with
  | VList items => Ok items
  | VStr s => Ok (map (fun c => VStr (String c "")) (list_ascii_of_string s))
  | VDict entries => Ok (map (fun kv => VStr (fst kv)) entries)
  | _ => Raise TypeError
  end.

(** [if key not in scene or not isinstance(scene[key], list):
       scene[key] = []] on a [dict]. *)
Definition ensure_list (key : string) (scene : list (string * value))
  : list (string * value) :=
  match dict_get key scene with
  | Some (VList _) => scene
  | _ => dict_set key (VList []) scene
  end.

(** The loop body. On a scene that is not a [dict] the first statement
    raises [TypeError]: [in] is refused by numbers, booleans and [None],
    and on a [str] or a [list] the test is followed by indexing or item
    assignment with a [str] key, which both refuse. *)
Definition validate_scene (scene : value) : result value :=
  match scene with
  | VDict d => Ok (VDict (ensure_list "animations" (ensure_list "mobjects" d)))
  | _ => Raise TypeError
  end.

Fixpoint validate_scenes (scenes : list value) : result (list value) :=
  match scenes with
  | [] => Ok []
  | scene :: rest =>
      bind (validate_scene scene) (fun scene' =>
      bind (validate_scenes rest) (fun rest' =>
      Ok (scene' :: rest')))
  end.

(** The scenes are updated in place, so the returned storyboard is the
    argument with the updated scenes. A [str] or [dict] under ["scenes"]
    gets through the loop only when it is empty. *)
Definition validate_storyboard (storyboard : value) : result value :=
  match storyboard with
  | VDict d =>
      match dict_get "scenes" d with
      | None => Ok storyboard
      | Some scenes =>
          bind (iterate scenes) (fun elements =>
          bind (validate_scenes elements) (fun elements' =>
          match scenes with
          | VList _ => Ok (VDict (dict_set "scenes" (VList elements') d))
          | _ => Ok storyboard
          end))
      end
  | _ => Raise AttributeError
  end.

End Validator.

(** ** StoryboardCompiler: [storyboard_to_manim_code] (script_with_noobject.py) *)

Module Compiler.
Import Py.

Definition MAX_ROW_OBJECTS : nat := 5.
Definition ROW_WIDTH_LIMIT : Z := 12.

(** The storyboard is the value [json.loads] returned, as it is: every
    field is read where the code reads it and may be missing or of any
    type. *)

Definition allowed_keys : list string :=
  ["radius"; "side_length"; "height"; "fill_color"; "fill_opacity";
   "stroke_color"; "stroke_width"; "font_size"; "text"; "x_range"; "y_range";
   "axis_config"; "color"; "start"; "end"; "point"; "matrix"]%string.

Definition is_allowed_key (k : string) : bool :=
  existsb (String.eqb k) allowed_keys.

Definition sanitize_mobject_kwargs (kwargs : list (string * value))
  : list (string * value) :=
  List.filter (fun kv => is_allowed_key (fst kv)) kwargs.

(** One appended line. A name is whatever value the f-string is given:
    the synthesized string, or the value under [kwargs["name"]]. *)
Inductive line : Type :=
| Verbatim (text : string)
| ClassHeader (class_name : string)
| SceneComment (idx : nat) (narration50 : value)
| Construct (mobj_name : value) (mobj_type : string)
    (kwargs : list (string * value))
| Scale (obj : value) (scale_factor : num)
| ToEdgeUp (obj : value)
| NextTo (obj prev : value)
| Play (anim_type : value) (targets : list value)
| Wait.

(** [c.lower()] on the code points below 256. *)
Definition lower_char (c : ascii) : ascii :=
  let n := nat_of_ascii c in
  if ((65 <=? n) && (n <=? 90)
      || (192 <=? n) && (n <=? 222) && negb (n =? 215))%nat%bool
  then ascii_of_nat (n + 32) else c.

Fixpoint lower (s : string) : string :=
  match s with
  | EmptyString => EmptyString
  | String c s' => String (lower_char c) (lower s')
  end.

(** [s.replace(' ', '')] *)
Definition remove_spaces (s : string) : string :=
  PyStr.filter (fun c => negb (Ascii.eqb c " ")) s.

(** [s[:n]] *)
Fixpoint take (n : nat) (s : string) : string :=
  match n, s with
  | S k, String c s' => String c (take k s')
  | _, _ => EmptyString
  end.

(** [v.replace(' ', '')]: a method of a [str] only. *)
Definition replace_spaces (v : value) : result string :=
  match v with
  | VStr s => Ok (remove_spaces s)
  | _ => Raise AttributeError
  end.

(** [v[:50]]: a [str] and a [list] are sliced; a [dict] refuses the slice
    as a key ([TypeError]: unhashable; a [KeyError] from Python 3.12 on,
    where a slice can be hashed); nothing else is subscriptable. *)
Definition slice_50 (v : value) : result value :=
  match v with
  | VStr s => Ok (VStr (take 50 s))
  | VList items => Ok (VList (firstn 50 items))
  | _ => Raise TypeError
  end.

(** [v.items()] as [sanitize_mobject_kwargs] and [.get] need it. *)
Definition as_dict (v : value) : result (list (string * value)) :=
  match v with
  | VDict d => Ok d
  | _ => Raise AttributeError
  end.

(** [v + 0.5]: an [int] (a [bool] is one) is converted to a float first. *)
Definition add_half (v : value) : result spec_float :=
  match v with
  | VNum (Int z) => bind (float_of_int z) (fun f => Ok (float_add f half))
  | VNum (Float f) => Ok (float_add f half)
  | VBool b => Ok (float_add (float_of_Z (if b then 1 else 0)) half)
  | _ => Raise TypeError
  end.

(** [min(1, x)] for a float [x]: the int [1] unless [x < 1]. *)
Definition min_1 (x : spec_float) : num :=
  if float_lt x (float_of_Z 1) then Float x else Int 1.

(** The two positioning loops (lines 164 to 168 and 177 to 181). *)
Fixpoint next_to_each (prev : value) (objs : list value) : list line :=
  match objs with
  | [] => []
  | obj :: rest => NextTo obj prev :: next_to_each obj rest
  end.

Definition position_row (row_objs : list value) : list line :=
  match row_objs with
  | [] => []
  | obj :: rest => ToEdgeUp obj :: next_to_each obj rest
  end.

(** A row as the layout leaves it: its objects, the sizes read for them,
    the accumulated width and the scale factor ([None] for the trailing
    row). *)
Record row : Type := {
  r_objs : list value;
  r_sizes : list value;
  r_width : spec_float;
  r_scale : option num }.

(** The variables of the object loop. [row_width] is the int [0] until the
    first float is added to it, which gives the same sum as the float
    zero. [row_sizes] and [rows] are a record of what the loop did; no
    emitted line reads them. *)
Record layout : Type := {
  mobjects_map : list (value * string);
  row_objs : list value;
  row_count : nat;
  row_width : spec_float;
  row_sizes : list value;
  rows : list row }.

Definition layout_start : layout :=
  {| mobjects_map := []; row_objs := []; row_count := 0;
     row_width := float_of_Z 0; row_sizes := []; rows := [] |}.

Definition synthesized_name (mobj_type : string) (idx mobj_idx : nat) : string :=
  (lower mobj_type ++ str_nat idx ++ "_" ++ str_nat mobj_idx)%string.

(** [kwargs.get("radius", kwargs.get("side_length", 1))] *)
Definition approx_size (kwargs : list (string * value)) : value :=
  dict_get_default "radius" kwargs
    (dict_get_default "side_length" kwargs (VNum (Int 1))).

(** Lines 147 to 149: [mobj_type], [mobj_name] and [kwargs]. The default of
    the name is evaluated whether or not it is used, so a type that is not
    a [str] (it has no [lower]) raises [AttributeError] even beside a given
    name, as does a [kwargs] that is not a [dict] (it has no [get]). *)
Definition mobject_locals (idx mobj_idx : nat) (mobj : value)
  : result (string * value * list (string * value)) :=
  bind (subscript mobj "type") (fun mobj_type =>
  bind (get mobj "kwargs" (VDict [])) (fun given =>
  bind (as_dict given) (fun given_kwargs =>
  match mobj_type with
  | VStr type_name =>
      Ok (type_name,
          dict_get_default "name" given_kwargs
            (VStr (synthesized_name type_name idx mobj_idx)),
          sanitize_mobject_kwargs given_kwargs)
  | _ => Raise AttributeError
  end))).

(** [mobjects_map[mobj_name] = mobj_type] *)
Definition record_mobject (mobj_name : value) (mobj_type : string)
  (m : list (value * string)) : result (list (value * string)) :=
  if hashable mobj_name then Ok (map_set mobj_name mobj_type m)
  else Raise TypeError.

(** One turn of the object loop (lines 147 to 173): the lines it appends
    and the variables after it. *)
Definition mobject_step (idx mobj_idx : nat) (mobj : value) (st : layout)
  : result (list line * layout) :=
  bind (mobject_locals idx mobj_idx mobj) (fun '(mobj_type, mobj_name, kwargs) =>
  let construct := Construct mobj_name mobj_type kwargs in
  bind (add_half (approx_size kwargs)) (fun addend =>
  let row_width := float_add (row_width st) addend in
  let row_objs := (row_objs st ++ [mobj_name])%list in
  let row_count := S (row_count st) in
  let row_sizes := (row_sizes st ++ [approx_size kwargs])%list in
  if ((MAX_ROW_OBJECTS <=? row_count)%nat
      || float_lt (float_of_Z ROW_WIDTH_LIMIT) row_width)%bool
  then
    bind (float_div (float_of_Z ROW_WIDTH_LIMIT) row_width) (fun quotient =>
    let scale_factor := min_1 quotient in
    bind (record_mobject mobj_name mobj_type (mobjects_map st)) (fun m =>
    Ok ((construct :: map (fun obj => Scale obj scale_factor) row_objs
           ++ position_row row_objs)%list,
        {| mobjects_map := m;
           row_objs := []; row_count := 0; row_width := float_of_Z 0;
           row_sizes := [];
           rows := (rows st ++ [{| r_objs := row_objs; r_sizes := row_sizes;
                                   r_width := row_width;
                                   r_scale := Some scale_factor |}])%list |})))
  else
    bind (record_mobject mobj_name mobj_type (mobjects_map st)) (fun m =>
    Ok ([construct],
        {| mobjects_map := m;
           row_objs := row_objs; row_count := row_count;
           row_width := row_width; row_sizes := row_sizes;
           rows := rows st |})))).

(** [for mobj_idx, mobj in enumerate(..., mobj_idx)] *)
Fixpoint mobject_loop (idx mobj_idx : nat) (mobjs : list value) (st : layout)
  : result (list line * layout) :=
  match mobjs with
  | [] => Ok ([], st)
  | mobj :: rest =>
      bind (mobject_step idx mobj_idx mobj st) (fun '(ls, st1) =>
      bind (mobject_loop idx (S mobj_idx) rest st1) (fun '(ls', st2) =>
      Ok ((ls ++ ls')%list, st2)))
  end.

(** The rows of a scene once the trailing row is placed. *)
Definition final_rows (st : layout) : list row :=
  match row_objs st with
  | [] => rows st
  | _ => (rows st ++ [{| r_objs := row_objs st; r_sizes := row_sizes st;
                         r_width := row_width st; r_scale := None |}])%list
  end.

(** The search of lines 192 to 196: first entry whose class or name is the
    target. *)
Fixpoint first_match (target : string) (m : list (value * string))
  : option value :=
  match m with
  | [] => None
  | (name, cls) :: m' =>
      if (String.eqb cls target || scalar_eq name (VStr target))%bool
      then Some name else first_match target m'
  end.

(** The inner loop of lines 203 to 205: every entry whose class or name is
    [t]. *)
Fixpoint all_matches (t : value) (m : list (value * string)) : list value :=
  match m with
  | [] => []
  | (name, cls) :: m' =>
      if (str_eq_value cls t || scalar_eq name t)%bool
      then name :: all_matches t m' else all_matches t m'
  end.

Definition is_str (v : value) : bool :=
  match v with
  | VStr _ => true
  | _ => false
  end.

(** One turn of the animation loop (lines 185 to 208). [", ".join] takes
    strings only. *)
Definition play_animation (m : list (value * string)) (anim : value)
  : result (list line) :=
  bind (get anim "type" VNone) (fun anim_type =>
  bind (get anim "target" VNone) (fun target =>
  if negb (truthy target) then Ok []
  else
    match target with
    | VStr s =>
        match first_match s m with
        | Some matched =>
            if truthy matched then Ok [Play anim_type [matched]] else Ok []
        | None => Ok []
        end
    | VList items =>
        match flat_map (fun t => all_matches t m) items with
        | [] => Ok []
        | targets =>
            if List.forallb is_str targets then Ok [Play anim_type targets]
            else Raise TypeError
        end
    | _ => Ok []
    end)).

Fixpoint play_animations (m : list (value * string)) (anims : list value)
  : result (list line) :=
  match anims with
  | [] => Ok []
  | anim :: rest =>
      bind (play_animation m anim) (fun ls =>
      bind (play_animations m rest) (fun ls' =>
      Ok (ls ++ ls')%list))
  end.

(** The body of the scene loop (lines 138 to 210), with the rows it laid
    out. *)
Definition scene_layout (idx : nat) (scene : value)
  : result (list line * list row) :=
  bind (subscript scene "narration") (fun narration =>
  bind (slice_50 narration) (fun narration50 =>
  bind (get scene "mobjects" (VList [])) (fun mobjects =>
  bind (Validator.iterate mobjects) (fun mobjs =>
  bind (mobject_loop idx 1 mobjs layout_start) (fun '(ls, st) =>
  bind (get scene "animations" (VList [])) (fun animations =>
  bind (Validator.iterate animations) (fun anims =>
  bind (play_animations (mobjects_map st) anims) (fun plays =>
  Ok ((SceneComment idx narration50 :: ls
         ++ position_row (row_objs st) ++ plays ++ [Wait])%list,
      final_rows st))))))))).

Definition scene_lines (idx : nat) (scene : value) : result (list line) :=
  bind (scene_layout idx scene) (fun '(ls, _) => Ok ls).

(** [for idx, scene in enumerate(storyboard["scenes"], idx)] *)
Fixpoint scenes_lines (idx : nat) (scenes : list value) : result (list line) :=
  match scenes with
  | [] => Ok []
  | scene :: rest =>
      bind (scene_lines idx scene) (fun ls =>
      bind (scenes_lines (S idx) rest) (fun ls' =>
      Ok (ls ++ ls')%list))
  end.

Definition storyboard_lines (storyboard : value) : result (list line) :=
  bind (subscript storyboard "title") (fun title =>
  bind (replace_spaces title) (fun class_name =>
  bind (subscript storyboard "scenes") (fun scenes =>
  bind (Validator.iterate scenes) (fun elements =>
  bind (scenes_lines 1 elements) (fun ls =>
  Ok ([Verbatim "from manim import *"; Verbatim "";
       ClassHeader class_name;
       Verbatim "    def construct(self):"] ++ ls)%list))))).

(** The text of each line. [repr] of a value and [str] of a float are
    Python's own and are left open. *)
Section Text.
Variable repr : value -> string.
Variable str_float : spec_float -> string.

Definition newline : string := String (ascii_of_nat 10) EmptyString.

Definition str_num (n : num) : string :=
  match n with
  | Int z => str_int z
  | Float f => str_float f
  end.

(** [str(v)], as an f-string formats [v]. *)
Definition str_value (v : value) : string :=
  match v with
  | VNone => "None"
  | VBool true => "True"
  | VBool false => "False"
  | VNum n => str_num n
  | VStr s => s
  | VList _ | VDict _ => repr v
  end.

Definition line_text (l : line) : string :=
  match l with
  | Verbatim text => text
  | ClassHeader class_name => "class " ++ class_name ++ "(ThreeDScene):"
  | SceneComment idx narration50 =>
      "        # Scene " ++ str_nat idx ++ ": " ++ str_value narration50 ++ "..."
  | Construct mobj_name mobj_type kwargs =>
      "        " ++ str_value mobj_name ++ " = " ++ mobj_type ++ "("
      ++ String.concat ", " (map (fun kv => fst kv ++ "=" ++ repr (snd kv)) kwargs)
      ++ ")"
  | Scale obj scale_factor =>
      "        " ++ str_value obj ++ ".scale(" ++ str_num scale_factor ++ ")"
  | ToEdgeUp obj => "        " ++ str_value obj ++ ".to_edge(UP)"
  | NextTo obj prev =>
      "        " ++ str_value obj ++ ".next_to(" ++ str_value prev
      ++ ", RIGHT, buff=0.5)"
  | Play anim_type targets =>
      "        self.play(" ++ str_value anim_type ++ "("
      ++ String.concat ", " (map str_value targets) ++ "))"
  | Wait => "        self.wait(1)" ++ newline
  end.

Definition storyboard_to_manim_code (storyboard : value) : result string :=
  bind (storyboard_lines storyboard) (fun ls =>
  Ok (String.concat newline (map line_text ls))).

End Text.

End Compiler.

(** ** RepairLoop: [debug_code] and its call in [main] (app.py) *)

Module Repair.
Import Py.

Section Session.

(** What [result["code"]] holds. *)
Variable Code : Type.

(** The state of the outside: the model service and the interpreter. *)
Variable World : Type.

(** The request of lines 385 to 412. Its prompt is built from [topic],
    [fixed_code] and [error_history]; the answer is [resp.text]. *)
Variable generate_content :
  string -> Code -> list string -> World -> string * World.

(** [json.loads(resp.text)["code"]]: [Raise JSONDecodeError] when the text
    does not parse, [Raise KeyError] or [Raise TypeError] when the parsed
    value has no ["code"]. *)
Variable json_code : string -> result Code.

(** [exec(code, {})]: [None] when it returns, [Some (traceback.format_exc())]
    when it raises an [Exception]. A script that does not return, or that
    leaves through [SystemExit] or [KeyboardInterrupt], is outside this
    contract, as is a request that raises. *)
Variable exec : Code -> World -> option string * World.

(** How a session ends: what is returned or raised, and the variables at
    that moment, with the number of [exec] calls made. *)
Record session : Type := {
  outcome : result Code;
  error_history : list string;
  attempt : Z;
  executions : nat;
  world : World }.

(** The [while attempt < max_retries] loop of [debug_code]. *)
Equations debug_loop (topic : string) (max_retries attempt : Z)
  (fixed_code : Code) (error_history : list string) (executions : nat)
  (w : World) : session by wf (Z.to_nat (max_retries - attempt)) lt :=
  debug_loop topic max_retries attempt fixed_code error_history executions w
    with Z_lt_dec attempt max_retries := {
    | right _ =>
        {| outcome := Raise RuntimeError; error_history := error_history;
           attempt := attempt; executions := executions; world := w |}
    | left _ with generate_content topic fixed_code error_history w := {
      | (resp_text, w1) with json_code resp_text := {
        | Raise e =>
            {| outcome := Raise e; error_history := error_history;
               attempt := attempt + 1; executions := executions;
               world := w1 |}
        | Ok new_code with exec new_code w1 := {
          | (None, w2) =>
              {| outcome := Ok new_code; error_history := error_history;
                 attempt := attempt + 1; executions := S executions;
                 world := w2 |}
          | (Some new_error, w2) =>
              debug_loop topic max_retries (attempt + 1) new_code
                (error_history ++ [new_error])%list (S executions) w2 } } } }.
Next Obligation. lia. Qed.

Definition debug_code (topic : string) (code : Code) (error : string)
  (max_retries : Z) (w : World) : session :=
  debug_loop topic max_retries 0 code [error] 0 w.

Definition DEFAULT_MAX_RETRIES : Z := 5.

(** Lines 444 to 449 of [main]: the generated script is run once, and is
    handed to [debug_code] with the default budget when that run fails.
    When it succeeds there is no history and no attempt. *)
Definition main_exec_or_debug (topic : string) (script_code : Code) (w : World)
  : session :=
  match exec script_code w with
  | (None, w1) =>
      {| outcome := Ok script_code; error_history := []; attempt := 0;
         executions := 1; world := w1 |}
  | (Some traceback_details, w1) =>
      let s := debug_code topic script_code traceback_details
                 DEFAULT_MAX_RETRIES w1 in
      {| outcome := outcome s; error_history := error_history s;
         attempt := attempt s; executions := S (executions s);
         world := world s |}
  end.

End Session.

Arguments outcome {Code World} s.
Arguments error_history {Code World} s.
Arguments attempt {Code World} s.
Arguments executions {Code World} s.
Arguments world {Code World} s.

End Repair.

(** ** VocabularyTable: [load_allowed_classes] (pipeline.py,
    script_with_noobject.py) and the [export_to_csv] that writes its file
    (manim_classes.py) *)

Module Vocabulary.
Import PyStr.

(** The keys of [allowed]. *)
Inductive class_type : Type :=
| Scene
| Mobject
| Animation.

(** [allowed]: one set of names under each key. A set is held as the list of
    its members, each once. *)
Record allowed_classes : Type := {
  scene_names : list string;
  mobject_names : list string;
  animation_names : list string }.

Definition no_classes : allowed_classes :=
  {| scene_names := []; mobject_names := []; animation_names := [] |}.

(** [s.add(x)] *)
Definition set_add (x : string) (s : list string) : list string :=
  if existsb (String.eqb x) s then s else (s ++ [x])%list.

(** [allowed[current_type].add(name)] *)
Definition add_class (t : class_type) (name : string) (allowed : allowed_classes)
  : allowed_classes :=
  match t with
  | Scene =>
      {| scene_names := set_add name (scene_names allowed);
         mobject_names := mobject_names allowed;
         animation_names := animation_names allowed |}
  | Mobject =>
      {| scene_names := scene_names allowed;
         mobject_names := set_add name (mobject_names allowed);
         animation_names := animation_names allowed |}
  | Animation =>
      {| scene_names := scene_names allowed;
         mobject_names := mobject_names allowed;
         animation_names := set_add name (animation_names allowed) |}
  end.

(** The body of the loop over the rows of the reader, on the pair of
    [current_type] and [allowed]. *)
Definition load_row (state : option class_type * allowed_classes)
  (row : list string) : option class_type * allowed_classes :=
  match row with
  | [] => state
  | first_column :: _ =>
      if String.eqb (strip first_column) "" then state
      else
        let first := Compiler.lower (strip first_column) in
        if String.eqb first "mobjects" then (Some Mobject, snd state)
        else if String.eqb first "animations" then (Some Animation, snd state)
        else if String.eqb first "scenes" then (Some Scene, snd state)
        else if contains "class name" first then state
        else
          match fst state with
          | Some t => (fst state, add_class t (strip first_column) (snd state))
          | None => state
          end
  end.

(** [load_allowed_classes], on the rows that [csv.reader] yields. *)
Definition load_allowed_classes (rows : list (list string)) : allowed_classes :=
  snd (fold_left load_row rows (None, no_classes)).

(** One result of [collect_subclasses]. *)
Record class_entry : Type := {
  entry_name : string;
  entry_module : string;
  entry_file : string;
  entry_doc : string }.

(** The rows that [export_to_csv] appends to the file for one category. *)
Definition export_to_csv (category : string) (results : list class_entry)
  : list (list string) :=
  ([category]
   :: ["Class Name"; "Module"; "File Path"; "Description"]
   :: map (fun r => [entry_name r; entry_module r; entry_file r; entry_doc r])
        results
   ++ [[]])%list.

(** The file that manim_classes.py leaves: the three exports in its order. *)
Definition exported_file (mobjects animations scenes : list class_entry)
  : list (list string) :=
  (export_to_csv "Mobjects" mobjects
   ++ export_to_csv "Animations" animations
   ++ export_to_csv "Scenes" scenes)%list.

End Vocabulary.

(** ** Storyboard generation: the retry loop of [main] (pipeline.py) *)

Module Generation.
Import Py.

Definition MAX_RETRIES : nat := 3.

Section Run.

(** The state of the model service. *)
Variable World : Type.

(** [call_gemini(storyboard_prompt)]; the prompt is the same at every
    attempt. *)
Variable call_gemini : World -> string * World.

(** [json.loads]; [None] stands for [JSONDecodeError]. *)
Variable json_loads : string -> option value.

(** How lines 170 to 185 end: with a storyboard ([break]), by giving up
    ([return] at the last attempt), with the exception that validation
    raised, or, for an empty range of attempts, without a storyboard. *)
Inductive generated : Type :=
| Storyboard (storyboard : value)
| GivenUp (cleaned : string)
| Raised (e : exn)
| Unbound.

Record run : Type := {
  result : generated;
  requests : nat;
  world : World }.

(** [for attempt in attempts: ...] *)
Fixpoint generation_loop (attempts : list nat) (requests : nat) (w : World)
  : run :=
  match attempts with
  | [] => {| result := Unbound; requests := requests; world := w |}
  | attempt :: rest =>
      let (raw_storyboard, w1) := call_gemini w in
      let cleaned := Sanitizer.fix_gemini_json raw_storyboard in
      match json_loads cleaned with
      | Some storyboard =>
          match Validator.validate_storyboard storyboard with
          | Ok validated =>
              {| result := Storyboard validated; requests := S requests;
                 world := w1 |}
          | Raise e =>
              {| result := Raised e; requests := S requests; world := w1 |}
          end
      | None =>
          if attempt =? MAX_RETRIES
          then {| result := GivenUp cleaned; requests := S requests;
                  world := w1 |}
          else generation_loop rest (S requests) w1
      end
  end.


End Run.

Arguments result {World} r.
Arguments requests {World} r.
Arguments world {World} r.

End Generation.

(** ** [extract_json] (script_with_noobject.py) *)

Module JsonText.
Import PyStr.

(** The longest prefix of [s] that ends with [c]: a greedy [.*] followed by
    [c]. *)
Fixpoint upto_last (c : ascii) (s : string) : option string :=
  match s with
  | EmptyString => None
  | String d s' =>
      match upto_last c s' with
      | Some p => Some (String d p)
      | None => if Ascii.eqb d c then Some (String d EmptyString) else None
      end
  end.

(** [re.search(r"(\{.*\})", text, re.DOTALL)], as group 1 of the leftmost
    match. *)
Fixpoint search_braces (s : string) : option string :=
  match s with
  | EmptyString => None
  | String c s' =>
      match (if Ascii.eqb c "{" then upto_last "}" s' else None) with
      | Some p => Some (String c p)
      | None => search_braces s'
      end
  end.

Definition extract_json (text : string) : string :=
  match Sanitizer.search_fenced text with
  | Some group1 => strip group1
  | None =>
      match search_braces text with
      | Some group1 => strip group1
      | None => strip text
      end
  end.

End JsonText.

(** ** Finding the scene class: lines 458 to 465 of [main] (app.py) *)

Module SceneClass.
Import PyStr Py.

(** The characters at which [str.splitlines] ends a line. *)
Definition is_line_end (c : ascii) : bool :=
  let n := ord c in
  ((10 <=? n) && (n <=? 13)) || ((28 <=? n) && (n <=? 30)) || (n =? 133).

(** [s.splitlines()]; a carriage return followed by a line feed ends one
    line, and a text that ends with a line end has no empty last line. *)
Fixpoint splitlines (s : string) : list string :=
  match s with
  | EmptyString => []
  | String c s' =>
      if is_line_end c then
        EmptyString ::
        (if Ascii.eqb c (ascii_of_nat 13) then
           match s' with
           | String d s'' =>
               if Ascii.eqb d (ascii_of_nat 10) then splitlines s''
               else splitlines s'
           | EmptyString => splitlines s'
           end
         else splitlines s')
      else
        match splitlines s' with
        | [] => [String c EmptyString]
        | line :: rest => String c line :: rest
        end
  end.

(** [s.startswith(p)] *)
Definition startswith (p s : string) : bool :=
  match strip_prefix p s with
  | Some _ => true
  | None => false
  end.

(** [s.split(sep)[0]]: the text before the first [sep], all of [s] when
    there is none. *)
Fixpoint before_first (sep s : string) : string :=
  match strip_prefix sep s with
  | Some _ => EmptyString
  | None =>
      match s with
      | EmptyString => EmptyString
      | String c s' => String c (before_first sep s')
      end
  end.

(** The text after the first [sep]. *)
Fixpoint after_first (sep s : string) : option string :=
  match strip_prefix sep s with
  | Some rest => Some rest
  | None =>
      match s with
      | EmptyString => None
      | String _ s' => after_first sep s'
      end
  end.

(** [s.split(sep)[1]], which raises [IndexError] when [sep] is not in [s];
    that does not happen under the test of line 460. *)
Definition split_second (sep s : string) : option string :=
  option_map (before_first sep) (after_first sep s).

(** The test of line 460. *)
Definition is_scene_class_line (line : string) : bool :=
  startswith "class " (strip line) && contains "(Scene)" line.

(** The loop of lines 459 to 462 on the lines of the script: [class_name]
    when it ends. *)
Fixpoint find_class_name (lines : list string) : option string :=
  match lines with
  | [] => None
  | line :: rest =>
      if is_scene_class_line line then
        match split_second "class " line with
        | Some second => Some (strip (before_first "(" second))
        | None => None
        end
      else find_class_name rest
  end.

(** Lines 458 to 465: the class name handed to manim, or the [ValueError]
    of line 465 when [class_name] is [None] or empty. *)
Definition scene_class_name (script_code : string) : option string :=
  match find_class_name (splitlines script_code) with
  | Some class_name =>
      if String.eqb class_name "" then None else Some class_name
  | None => None
  end.

End SceneClass.

(** ** [make_json_safe] (script_with_noobject.py) *)

Module JsonSafe.
Import PyStr.

Definition line_feed : ascii := ascii_of_nat 10.

Lemma strip_prefix_shorter a p s rest :
  strip_prefix (String a p) s = Some rest ->
  String.length rest < String.length s.
Proof.
  revert a s. induction p as [|b p IH]; intros a s; simpl.
  - destruct s as [|c s]; [discriminate|].
    destruct (Ascii.eqb a c); [|discriminate].
    intros H. injection H as <-. simpl. lia.
  - destruct s as [|c s]; [discriminate|].
    destruct (Ascii.eqb a c); [|discriminate].
    intros H. specialize (IH b s H). simpl. lia.
Qed.

(** [s.replace(old, new)] for an [old] that is not empty, given as its
    first character and the rest: occurrences are replaced from the left
    and do not overlap. *)
Equations replace (old_head : ascii) (old_tail new s : string) : string
  by wf (String.length s) lt :=
  replace old_head old_tail new s
    with Sanitizer.inspect (strip_prefix (String old_head old_tail) s) := {
    | exist _ (Some rest) Hm => new ++ replace old_head old_tail new rest
    | exist _ None _ with s := {
        | EmptyString => EmptyString
        | String c s' => String c (replace old_head old_tail new s') } }.
Next Obligation. eapply strip_prefix_shorter; eassumption. Qed.











End JsonSafe.

(** * Properties *)

(** ** ResponseSanitizer *)

Module SanitizerFacts.
Import PyStr Sanitizer.

Lemma count_app c s t : count c (s ++ t) = count c s + count c t.
Proof. induction s as [|d s IH]; simpl; [reflexivity|]. rewrite IH. lia. Qed.

Lemma count_repeat_same c n : count c (repeat c n) = n.
Proof.
  induction n as [|n IH]; simpl; [reflexivity|].
  rewrite Ascii.eqb_refl, IH. reflexivity.
Qed.

Lemma count_repeat_other c d n : c <> d -> count c (repeat d n) = 0.
Proof.
  intros Hcd. induction n as [|n IH]; simpl; [reflexivity|].
  destruct (Ascii.eqb_spec d c) as [->|_]; [contradiction|]. exact IH.
Qed.

Lemma forallb_app p s t : forallb p (s ++ t) = forallb p s && forallb p t.
Proof.
  induction s as [|c s IH]; simpl; [reflexivity|].
  rewrite IH, andb_assoc. reflexivity.
Qed.

Lemma forallb_repeat p c n : p c = true -> forallb p (repeat c n) = true.
Proof. intros Hc. induction n as [|n IH]; simpl; [reflexivity|]. now rewrite Hc. Qed.

Lemma filter_forallb p s : forallb p (filter p s) = true.
Proof.
  induction s as [|c s IH]; simpl; [reflexivity|].
  destruct (p c) eqn:E; simpl; [rewrite E|]; exact IH.
Qed.

Lemma filter_id p s : forallb p s = true -> filter p s = s.
Proof.
  induction s as [|c s IH]; simpl; [reflexivity|].
  intros H. apply andb_prop in H as [Hc Hs]. rewrite Hc, IH; auto.
Qed.

Section CloseUnmatched.
Variables opener closer : ascii.
Hypothesis distinct : opener <> closer.

Lemma close_unmatched_openers text :
  count opener (close_unmatched opener closer text) = count opener text.
Proof.
  unfold close_unmatched.
  destruct (Nat.ltb_spec (count closer text) (count opener text)); [|reflexivity].
  rewrite count_app, count_repeat_other by exact distinct. lia.
Qed.

Lemma close_unmatched_closers text :
  count closer (close_unmatched opener closer text)
  = Nat.max (count closer text) (count opener text).
Proof.
  unfold close_unmatched.
  destruct (Nat.ltb_spec (count closer text) (count opener text)); [|lia].
  rewrite count_app, count_repeat_same. lia.
Qed.

Lemma close_unmatched_others d text :
  d <> closer ->
  count d (close_unmatched opener closer text) = count d text.
Proof.
  intros Hd. unfold close_unmatched.
  destruct (Nat.ltb_spec (count closer text) (count opener text)); [|reflexivity].
  rewrite count_app, count_repeat_other by exact Hd. lia.
Qed.

Lemma close_unmatched_fixed text :
  count opener text <= count closer text ->
  close_unmatched opener closer text = text.
Proof.
  intros H. unfold close_unmatched.
  destruct (Nat.ltb_spec (count closer text) (count opener text)); [lia|reflexivity].
Qed.

Lemma close_unmatched_printable text :
  is_control closer = false ->
  forallb (fun c => negb (is_control c)) text = true ->
  forallb (fun c => negb (is_control c))
    (close_unmatched opener closer text) = true.
Proof.
  intros Hc Ht. unfold close_unmatched.
  destruct (count closer text <? count opener text); [|exact Ht].
  rewrite forallb_app, Ht. simpl.
  apply forallb_repeat. now rewrite Hc.
Qed.
End CloseUnmatched.

Lemma brace_neq : "{"%char <> "}"%char.
Proof. discriminate. Qed.

Lemma bracket_neq : "["%char <> "]"%char.
Proof. discriminate. Qed.

(** Counts of the four bracket characters after balancing. *)
Lemma balance_counts text :
  count "{" (balance text) = count "{" text
  /\ count "}" (balance text) = Nat.max (count "}" text) (count "{" text)
  /\ count "[" (balance text) = count "[" text
  /\ count "]" (balance text) = Nat.max (count "]" text) (count "[" text).
Proof.
  unfold balance. repeat split.
  - rewrite close_unmatched_others by discriminate.
    apply close_unmatched_openers, brace_neq.
  - rewrite close_unmatched_others by discriminate.
    apply close_unmatched_closers.
  - rewrite close_unmatched_openers by exact bracket_neq.
    apply close_unmatched_others. discriminate.
  - rewrite close_unmatched_closers.
    rewrite !close_unmatched_others by discriminate. reflexivity.
Qed.

(** Balancing a text whose closers already cover its openers leaves it
    as it is. *)
Lemma balance_fixed text :
  count "{" text <= count "}" text ->
  count "[" text <= count "]" text ->
  balance text = text.
Proof.
  intros Hb Hk. unfold balance.
  rewrite (close_unmatched_fixed "{" "}" text Hb).
  apply close_unmatched_fixed, Hk.
Qed.

Lemma balance_idempotent text : balance (balance text) = balance text.
Proof.
  destruct (balance_counts text) as (H1 & H2 & H3 & H4).
  apply balance_fixed; lia.
Qed.

Lemma fix_gemini_json_printable x :
  forallb (fun c => negb (is_control c)) (fix_gemini_json x) = true.
Proof.
  unfold fix_gemini_json, balance.
  apply close_unmatched_printable; [reflexivity|].
  apply close_unmatched_printable; [reflexivity|].
  unfold rewrite_text, strip_control. apply filter_forallb.
Qed.

(** C5, as stated, fails: the comma rule looks at each comma once, so of
    two commas before a closer one survives the first pass and is removed
    by the second. *)
Lemma fix_gemini_json_not_idempotent :
  fix_gemini_json ",,]" = ",]"
  /\ fix_gemini_json (fix_gemini_json ",,]") = "]"
  /\ fix_gemini_json (fix_gemini_json ",,]") <> fix_gemini_json ",,]".
Proof. repeat split. discriminate. Qed.

(** C5 (amended): a second pass changes nothing as soon as the first
    pass's output offers no fenced block, no parenthesised pair and no
    trailing comma to the first three steps: control-character stripping
    and balancing are stable on every output. *)
Theorem fix_gemini_json_idempotent_on_settled_output x :
  search_fenced (fix_gemini_json x) = None ->
  sub_pairs (fix_gemini_json x) = fix_gemini_json x ->
  sub_trailing_commas (fix_gemini_json x) = fix_gemini_json x ->
  fix_gemini_json (fix_gemini_json x) = fix_gemini_json x.
Proof.
  intros Hfence Hpairs Hcommas.
  assert (Hrw : rewrite_text (fix_gemini_json x) = fix_gemini_json x).
  { unfold rewrite_text. rewrite Hfence, Hpairs, Hcommas.
    apply filter_id, fix_gemini_json_printable. }
  unfold fix_gemini_json at 1. rewrite Hrw.
  unfold fix_gemini_json. apply balance_idempotent.
Qed.

Lemma fix_gemini_json_idempotent_on_settled_output_witness :
  fix_gemini_json (fix_gemini_json "[{(1,2)") = fix_gemini_json "[{(1,2)"
  /\ fix_gemini_json "[{(1,2)" = "[{[1, 2]}]".
Proof.
  split.
  - apply (fix_gemini_json_idempotent_on_settled_output "[{(1,2)");
      reflexivity.
  - reflexivity.
Defined.

(** C6, as stated, fails: a surplus closer is never removed. *)
Lemma fix_gemini_json_surplus_closer :
  fix_gemini_json "}" = "}"
  /\ count "{" (fix_gemini_json "}") <> count "}" (fix_gemini_json "}").
Proof. split; [reflexivity|discriminate]. Qed.

(** C6 (amended): in the output the closers of each kind are at least as
    many as the openers, and exactly as many when (and only when) the text
    that reaches the balancing step has no surplus closer of that kind. *)
Theorem fix_gemini_json_closers_cover_openers x :
  let t := rewrite_text x in
  let y := fix_gemini_json x in
  count "{" y <= count "}" y
  /\ count "[" y <= count "]" y
  /\ (count "{" y = count "}" y <-> count "}" t <= count "{" t)
  /\ (count "[" y = count "]" y <-> count "]" t <= count "[" t).
Proof.
  cbv zeta. unfold fix_gemini_json.
  destruct (balance_counts (rewrite_text x)) as (H1 & H2 & H3 & H4).
  rewrite H1, H2, H3, H4. repeat split; lia.
Qed.

End SanitizerFacts.

(** ** StoryboardValidator *)

Module ValidatorFacts.
Import Py Validator.

Lemma dict_get_set_same {V} key (v : V) d :
  dict_get key (dict_set key v d) = Some v.
Proof.
  induction d as [|[k w] d IH]; simpl.
  - now rewrite String.eqb_refl.
  - destruct (String.eqb k key) eqn:E; simpl; rewrite E; [reflexivity|exact IH].
Qed.

Lemma dict_get_set_other {V} key key' (v : V) d :
  key' <> key -> dict_get key' (dict_set key v d) = dict_get key' d.
Proof.
  intros Hne. induction d as [|[k w] d IH]; simpl.
  - destruct (String.eqb_spec key key'); [congruence|reflexivity].
  - destruct (String.eqb_spec k key) as [->|Hk]; simpl.
    + destruct (String.eqb_spec key key'); [congruence|reflexivity].
    + destruct (String.eqb k key'); [reflexivity|exact IH].
Qed.

(** What a list-valued field reads as after validation. *)
Definition list_or_empty (field : option value) : value :=
  match field with
  | Some (VList items) => VList items
  | _ => VList []
  end.

Definition is_dict (v : value) : bool :=
  match v with
  | VDict _ => true
  | _ => false
  end.

(** [iterate] refuses exactly these. *)
Definition not_iterable (v : value) : bool :=
  match v with
  | VNone | VBool _ | VNum _ => true
  | _ => false
  end.

Lemma ensure_list_same key d :
  dict_get key (ensure_list key d) = Some (list_or_empty (dict_get key d)).
Proof.
  unfold ensure_list.
  destruct (dict_get key d) as [[]|] eqn:E; simpl;
    try apply dict_get_set_same.
  exact E.
Qed.

Lemma ensure_list_other key key' d :
  key' <> key -> dict_get key' (ensure_list key d) = dict_get key' d.
Proof.
  intros Hne. unfold ensure_list.
  destruct (dict_get key d) as [[]|]; try reflexivity;
    now apply dict_get_set_other.
Qed.

(** A scene and its validated form: both list fields present and lists,
    every other field as it was. *)
Inductive defaulted : value -> value -> Prop :=
| defaulted_scene d d' :
    dict_get "mobjects" d' = Some (list_or_empty (dict_get "mobjects" d)) ->
    dict_get "animations" d' = Some (list_or_empty (dict_get "animations" d)) ->
    (forall key, key <> "mobjects" -> key <> "animations" ->
                 dict_get key d' = dict_get key d) ->
    defaulted (VDict d) (VDict d').

Lemma validate_scene_defaulted d :
  exists d', validate_scene (VDict d) = Ok (VDict d')
             /\ defaulted (VDict d) (VDict d').
Proof.
  eexists. split; [reflexivity|]. constructor.
  - rewrite ensure_list_other by discriminate. apply ensure_list_same.
  - rewrite ensure_list_same. f_equal. f_equal.
    apply ensure_list_other. discriminate.
  - intros key Hm Ha. rewrite !ensure_list_other by assumption. reflexivity.
Qed.

Lemma validate_scenes_defaulted scenes :
  forallb is_dict scenes = true ->
  exists scenes', validate_scenes scenes = Ok scenes'
                  /\ Forall2 defaulted scenes scenes'.
Proof.
  induction scenes as [|sc scenes IH]; simpl; intros Hall.
  - exists []. split; [reflexivity|constructor].
  - apply andb_prop in Hall as [Hsc Hrest].
    destruct sc as [| | | | |d]; try discriminate Hsc.
    destruct (validate_scene_defaulted d) as (d' & Hv & Hd).
    destruct (IH Hrest) as (scenes' & Hvs & Hds).
    exists (VDict d' :: scenes'). split.
    + change (validate_scene (VDict d)) with
        (Ok (VDict (ensure_list "animations" (ensure_list "mobjects" d)))) in *.
      injection Hv as <-. simpl. rewrite Hvs. reflexivity.
    + constructor; assumption.
Qed.

Lemma validate_scenes_refused scenes :
  forallb is_dict scenes = false -> validate_scenes scenes = Raise TypeError.
Proof.
  induction scenes as [|sc scenes IH]; simpl; [discriminate|].
  destruct sc as [| | | | |d]; try reflexivity.
  simpl. intros Hrest. rewrite (IH Hrest). reflexivity.
Qed.

(** C9, as stated, fails: a ["scenes"] that is an empty mapping, or is
    missing, passes; a list with an element that is no mapping does not;
    and no error of the code is a [SchemaError]. *)
Lemma validate_storyboard_non_sequence_scenes :
  validate_storyboard (VDict [("scenes", VDict [])])
  = Ok (VDict [("scenes", VDict [])])
  /\ validate_storyboard (VDict [("title", VStr "t")])
     = Ok (VDict [("title", VStr "t")])
  /\ validate_storyboard (VDict [("scenes", VList [VNum (Int 5)])])
     = Raise TypeError.
Proof. repeat split. Qed.

(** C9 (amended): a value that is no mapping is refused (AttributeError); a
    mapping without ["scenes"] is returned as it is; a ["scenes"] that is a
    number, a boolean or null is refused (TypeError), and so is a list with
    an element that is no mapping; and when ["scenes"] is a list of
    mappings, validation succeeds, each scene gets ["mobjects"] and
    ["animations"] as lists (empty when missing or not a list), and no other
    field of a scene or of the storyboard changes. *)
Theorem validate_storyboard_contract :
  (forall parsed, is_dict parsed = false ->
     validate_storyboard parsed = Raise AttributeError)
  /\ (forall d, dict_get "scenes" d = None ->
        validate_storyboard (VDict d) = Ok (VDict d))
  /\ (forall d v, dict_get "scenes" d = Some v -> not_iterable v = true ->
        validate_storyboard (VDict d) = Raise TypeError)
  /\ (forall d scenes,
        dict_get "scenes" d = Some (VList scenes) ->
        forallb is_dict scenes = false ->
        validate_storyboard (VDict d) = Raise TypeError)
  /\ (forall d scenes,
        dict_get "scenes" d = Some (VList scenes) ->
        forallb is_dict scenes = true ->
        exists scenes' d',
          validate_storyboard (VDict d) = Ok (VDict d')
          /\ dict_get "scenes" d' = Some (VList scenes')
          /\ Forall2 defaulted scenes scenes'
          /\ forall key, key <> "scenes" -> dict_get key d' = dict_get key d).
Proof.
  repeat split.
  - intros parsed Hp. destruct parsed; try reflexivity. discriminate Hp.
  - intros d Hd. simpl. rewrite Hd. reflexivity.
  - intros d v Hd Hv. simpl. rewrite Hd.
    destruct v as [| |n| | |]; try discriminate Hv; reflexivity.
  - intros d scenes Hd Hsome. simpl. rewrite Hd. simpl.
    rewrite (validate_scenes_refused scenes Hsome). reflexivity.
  - intros d scenes Hd Hall.
    destruct (validate_scenes_defaulted scenes Hall) as (scenes' & Hvs & Hds).
    exists scenes', (dict_set "scenes" (VList scenes') d).
    split; [|split; [|split]].
    + simpl. rewrite Hd. simpl. rewrite Hvs. reflexivity.
    + apply dict_get_set_same.
    + exact Hds.
    + intros key Hk. now apply dict_get_set_other.
Qed.

Lemma validate_storyboard_contract_witness :
  validate_storyboard (VStr "scenes") = Raise AttributeError
  /\ validate_storyboard (VDict [("title", VStr "t")])
     = Ok (VDict [("title", VStr "t")])
  /\ validate_storyboard (VDict [("scenes", VNum (Int 3))]) = Raise TypeError
  /\ validate_storyboard (VDict [("scenes", VList [VDict []; VStr "scene"])])
     = Raise TypeError
  /\ exists scenes' d',
       validate_storyboard
         (VDict [("title", VStr "t");
                 ("scenes", VList [VDict [("narration", VStr "n");
                                          ("mobjects", VStr "none")]])])
       = Ok (VDict d')
       /\ dict_get "scenes" d' = Some (VList scenes')
       /\ Forall2 defaulted
            [VDict [("narration", VStr "n"); ("mobjects", VStr "none")]] scenes'
       /\ forall key, key <> "scenes" ->
            dict_get key d'
            = dict_get key
                [("title", VStr "t");
                 ("scenes", VList [VDict [("narration", VStr "n");
                                          ("mobjects", VStr "none")]])].
Proof.
  destruct validate_storyboard_contract as (H1 & H2 & H3 & H4 & H5).
  split; [|split; [|split; [|split]]].
  - apply H1. reflexivity.
  - apply H2. reflexivity.
  - apply (H3 _ (VNum (Int 3))); reflexivity.
  - apply (H4 _ [VDict []; VStr "scene"]); reflexivity.
  - apply H5; reflexivity.
Defined.

End ValidatorFacts.

(** ** RepairLoop *)

Module RepairFacts.
Import Py Repair.

Section Session.
Variables Code World : Type.
Variable generate_content :
  string -> Code -> list string -> World -> string * World.
Variable json_code : string -> result Code.
Variable exec : Code -> World -> option string * World.

(** The [exec] calls a session's last turn adds beyond the failures it
    recorded: the successful one, if any. *)
Definition final_run (s : session Code World) : nat :=
  match outcome s with
  | Ok _ => 1
  | Raise _ => 0
  end.

(** The history only grows, by one diagnostic for each failed run, and the
    runs stay within what is left of the budget. *)
Lemma debug_loop_accounting topic max_retries attempt0 code hist execs w :
  exists recorded,
    error_history
      (debug_loop Code World generate_content json_code exec
         topic max_retries attempt0 code hist execs w)
    = (hist ++ recorded)%list
    /\ executions
         (debug_loop Code World generate_content json_code exec
            topic max_retries attempt0 code hist execs w)
       = execs + length recorded
         + final_run (debug_loop Code World generate_content json_code exec
                        topic max_retries attempt0 code hist execs w)
    /\ executions
         (debug_loop Code World generate_content json_code exec
            topic max_retries attempt0 code hist execs w)
       <= execs + Z.to_nat (max_retries - attempt0).
Proof.
  funelim (debug_loop Code World generate_content json_code exec
             topic max_retries attempt0 code hist execs w).
  - exists []. rewrite app_nil_r. unfold final_run. simpl. repeat split; lia.
  - exists []. rewrite app_nil_r. unfold final_run. simpl. repeat split; lia.
  - match goal with
    | IH : exists _, _ |- _ => destruct IH as (recorded & Hh & He & Hb)
    end.
    exists (new_error :: recorded). rewrite Hh, <- app_assoc. simpl.
    repeat split; lia.
  - exists []. rewrite app_nil_r. unfold final_run. simpl. repeat split; lia.
Qed.

(** With every run failing and every response parsing, the whole budget is
    spent. *)
Lemma debug_loop_exhausts topic max_retries attempt0 code hist execs w :
  (forall c w', fst (exec c w') <> None) ->
  (forall text, exists c, json_code text = Ok c) ->
  outcome (debug_loop Code World generate_content json_code exec
             topic max_retries attempt0 code hist execs w)
  = Raise RuntimeError
  /\ executions (debug_loop Code World generate_content json_code exec
                   topic max_retries attempt0 code hist execs w)
     = execs + Z.to_nat (max_retries - attempt0)
  /\ length (error_history
               (debug_loop Code World generate_content json_code exec
                  topic max_retries attempt0 code hist execs w))
     = length hist + Z.to_nat (max_retries - attempt0).
Proof.
  intros Hfail Hparse.
  funelim (debug_loop Code World generate_content json_code exec
             topic max_retries attempt0 code hist execs w).
  - simpl. repeat split; lia.
  - exfalso. destruct (Hparse resp_text) as [c Hc]. congruence.
  - match goal with
    | IH : _ -> _ -> _ /\ _ |- _ => destruct (IH Hfail Hparse) as (Ho & He & Hl)
    end.
    rewrite Ho, He, Hl, length_app. simpl. repeat split; lia.
  - exfalso. apply (Hfail new_code w1).
    match goal with H : exec _ _ = _ |- _ => rewrite H end. reflexivity.
Qed.

(** One turn of the loop whose response does not parse. *)
Lemma debug_loop_parse_failure topic max_retries attempt0 code hist execs w e :
  (attempt0 < max_retries)%Z ->
  json_code (fst (generate_content topic code hist w)) = Raise e ->
  debug_loop Code World generate_content json_code exec
    topic max_retries attempt0 code hist execs w
  = {| outcome := Raise e; error_history := hist;
       attempt := (attempt0 + 1)%Z; executions := execs;
       world := snd (generate_content topic code hist w) |}.
Proof.
  intros Hlt Hparse.
  funelim (debug_loop Code World generate_content json_code exec
             topic max_retries attempt0 code hist execs w);
    try contradiction;
    match goal with
    | H : generate_content _ _ _ _ = _ |- _ => rewrite H in Hparse |- *
    end; simpl in Hparse |- *; congruence.
Qed.

End Session.
End RepairFacts.

Module RepairClaims.
Import Py Repair RepairFacts.

(** Collaborators for concrete sessions: the outside state counts the
    requests made to the model; the interpreter fails on every script. *)
Definition counting_model (topic code : string) (history : list string)
  (requests : nat) : string * nat :=
  (code, S requests).

Definition always_fails (code : string) (requests : nat) : option string * nat :=
  (Some "Traceback", requests).

Definition parses (text : string) : result string := Ok text.

Definition never_parses (text : string) : result string := Raise JSONDecodeError.

(** C2, as stated, fails in its closing example: with a budget of 3 and a
    script that always fails, [debug_code] runs the script 3 times and then
    holds 4 diagnostics, the one it was called with and the 3 it recorded;
    what it raises carries none of them. *)
Lemma debug_code_budget_3_history_4 :
  debug_code string nat counting_model parses always_fails
    "topic" "code" "Traceback" 3 0
  = {| outcome := Raise RuntimeError;
       error_history := ["Traceback"; "Traceback"; "Traceback"; "Traceback"];
       attempt := 3; executions := 3; world := 3 |}
  /\ length (error_history
               (debug_code string nat counting_model parses always_fails
                  "topic" "code" "Traceback" 3 0)) <> 3.
Proof. split; [reflexivity|discriminate]. Qed.

(** C2 (amended): [debug_code] ends after at most [max_retries] runs of the
    script (one more counting the run in [main] that precedes it, whose
    budget is 5), and its history is the diagnostic it was called with
    followed by at most [max_retries] others. When every run fails and every
    response parses, it raises [RuntimeError] after exactly [max_retries]
    runs, with [max_retries + 1] diagnostics in the history. *)
Theorem debug_code_within_budget (Code World : Type)
  (generate_content : string -> Code -> list string -> World -> string * World)
  (json_code : string -> result Code)
  (exec : Code -> World -> option string * World)
  (topic : string) (code : Code) (error : string) (max_retries : Z) (w : World) :
  executions (debug_code Code World generate_content json_code exec
                topic code error max_retries w)
  <= Z.to_nat max_retries
  /\ (exists recorded,
        error_history (debug_code Code World generate_content json_code exec
                         topic code error max_retries w)
        = error :: recorded
        /\ length recorded <= Z.to_nat max_retries)
  /\ executions (main_exec_or_debug Code World generate_content json_code exec
                   topic code w)
     <= 1 + Z.to_nat DEFAULT_MAX_RETRIES
  /\ ((forall c w', fst (exec c w') <> None) ->
      (forall text, exists c, json_code text = Ok c) ->
      outcome (debug_code Code World generate_content json_code exec
                 topic code error max_retries w)
      = Raise RuntimeError
      /\ executions (debug_code Code World generate_content json_code exec
                       topic code error max_retries w)
         = Z.to_nat max_retries
      /\ length (error_history
                   (debug_code Code World generate_content json_code exec
                      topic code error max_retries w))
         = S (Z.to_nat max_retries)).
Proof.
  unfold debug_code.
  destruct (debug_loop_accounting Code World generate_content json_code exec
              topic max_retries 0 code [error] 0 w)
    as (recorded & Hh & He & Hb).
  rewrite Z.sub_0_r in Hb.
  split; [exact Hb|]. split; [|split].
  - exists recorded. split; [exact Hh|]. lia.
  - unfold main_exec_or_debug, debug_code.
    destruct (exec code w) as [[tb|] w1]; cbn [executions]; [|lia].
    destruct (debug_loop_accounting Code World generate_content json_code exec
                topic DEFAULT_MAX_RETRIES 0 code [tb] 0 w1)
      as (_ & _ & _ & Hb').
    rewrite Z.sub_0_r in Hb'. lia.
  - intros Hfail Hparse.
    destruct (debug_loop_exhausts Code World generate_content json_code exec
                topic max_retries 0 code [error] 0 w Hfail Hparse)
      as (Ho & Hx & Hl).
    rewrite Z.sub_0_r in Hx, Hl. simpl in Hl. auto.
Qed.

Lemma debug_code_within_budget_witness :
  outcome (debug_code string nat counting_model parses always_fails
             "topic" "code" "Traceback" 3 0)
  = Raise RuntimeError
  /\ executions (debug_code string nat counting_model parses always_fails
                   "topic" "code" "Traceback" 3 0)
     = 3
  /\ length (error_history
               (debug_code string nat counting_model parses always_fails
                  "topic" "code" "Traceback" 3 0))
     = 4.
Proof.
  apply (debug_code_within_budget string nat counting_model parses always_fails
           "topic" "code" "Traceback" 3 0).
  - intros c w'. discriminate.
  - intros text. exists text. reflexivity.
Defined.

(** C8, as stated, fails: a response that does not parse ends the session at
    once. With a budget of 3, one request is made, nothing is appended to
    the history, and [JSONDecodeError] is raised. *)
Lemma debug_code_unparsed_response_ends_session :
  debug_code string nat counting_model never_parses always_fails
    "topic" "code" "Traceback" 3 0
  = {| outcome := Raise JSONDecodeError;
       error_history := ["Traceback"];
       attempt := 1; executions := 0; world := 1 |}.
Proof. reflexivity. Qed.

(** C8 (amended): in any turn of the repair loop, a response that fails to
    parse makes [debug_code] re-raise the [JSONDecodeError]: the history is
    left as it was, the script is not run, and no further request is
    made. *)
Theorem debug_loop_unparsed_response_raises (Code World : Type)
  (generate_content : string -> Code -> list string -> World -> string * World)
  (json_code : string -> result Code)
  (exec : Code -> World -> option string * World)
  (topic : string) (max_retries attempt0 : Z) (fixed_code : Code)
  (history : list string) (runs : nat) (w : World) :
  (attempt0 < max_retries)%Z ->
  json_code (fst (generate_content topic fixed_code history w))
  = Raise JSONDecodeError ->
  debug_loop Code World generate_content json_code exec
    topic max_retries attempt0 fixed_code history runs w
  = {| outcome := Raise JSONDecodeError;
       error_history := history;
       attempt := (attempt0 + 1)%Z;
       executions := runs;
       world := snd (generate_content topic fixed_code history w) |}.
Proof. apply debug_loop_parse_failure. Qed.

Lemma debug_loop_unparsed_response_raises_witness :
  debug_loop string nat counting_model never_parses always_fails
    "topic" 5 2 "code" ["e1"; "e2"; "e3"] 2 7
  = {| outcome := Raise JSONDecodeError;
       error_history := ["e1"; "e2"; "e3"];
       attempt := 3; executions := 2; world := 8 |}.
Proof.
  apply (debug_loop_unparsed_response_raises string nat counting_model
           never_parses always_fails "topic" 5 2 "code" ["e1"; "e2"; "e3"] 2 7).
  - reflexivity.
  - reflexivity.
Defined.

End RepairClaims.

(** ** Python values *)

Module PyFacts.
Import Py.

Lemma bind_Ok {A B} (r : result A) (k : A -> result B) (b : B) :
  bind r k = Ok b -> exists a, r = Ok a /\ k a = Ok b.
Proof. destruct r as [a|e]; simpl; [eauto|discriminate]. Qed.


(** What an entry is read as: [None] off a [dict]. *)
Definition field (key : string) (v : value) : option value :=
  match v with
  | VDict d => dict_get key d
  | _ => None
  end.

(** The elements looped over in a field that defaults to the empty list. *)
Definition elements (o : option value) : list value :=
  match o with
  | Some v =>
      match Validator.iterate v with
      | Ok items => items
      | Raise _ => []
      end
  | None => []
  end.

Lemma get_elements v key items :
  bind (get v key (VList [])) Validator.iterate = Ok items ->
  elements (field key v) = items.
Proof.
  destruct v as [| | | | |d]; try discriminate. cbn [get bind field].
  unfold dict_get_default, elements. destruct (dict_get key d) as [x|].
  - now intros ->.
  - simpl. intros E. now injection E.
Qed.

Lemma subscript_elements v key items :
  bind (subscript v key) Validator.iterate = Ok items ->
  elements (field key v) = items.
Proof.
  destruct v as [| | | | |d]; try discriminate. cbn [subscript field].
  unfold elements. destruct (dict_get key d) as [x|]; [|discriminate].
  cbn [bind]. now intros ->.
Qed.

(** The exceptions Python itself raises on a field that is missing or of
    the wrong type, and in arithmetic. *)
Definition python_error (e : exn) : Prop :=
  In e [KeyError; AttributeError; TypeError; ZeroDivisionError; OverflowError].

Definition fails_in_python {A} (r : result A) : Prop :=
  match r with
  | Ok _ => True
  | Raise e => python_error e
  end.

Lemma fails_bind {A B} (r : result A) (k : A -> result B) :
  fails_in_python r -> (forall a, r = Ok a -> fails_in_python (k a)) ->
  fails_in_python (bind r k).
Proof. destruct r as [a|e]; simpl; auto. Qed.

Ltac python_error := unfold python_error; simpl; tauto.

Lemma subscript_fails v key : fails_in_python (subscript v key).
Proof.
  destruct v as [| | | | |d]; simpl; try python_error.
  destruct (dict_get key d); simpl; [exact I|python_error].
Qed.

Lemma get_fails v key default : fails_in_python (get v key default).
Proof. destruct v; simpl; try exact I; python_error. Qed.

Lemma iterate_fails v : fails_in_python (Validator.iterate v).
Proof. destruct v; simpl; try exact I; python_error. Qed.

End PyFacts.

(** ** StoryboardCompiler: operations *)

Module CompilerFacts.
Import Py Compiler PyFacts.

(** [not target], with [target = anim.get("target")]. *)
Definition target_is_falsy (anim : value) : bool :=
  match anim with
  | VDict a => negb (truthy (dict_get_default "target" a VNone))
  | _ => false
  end.

Lemma play_animation_falsy m anim :
  target_is_falsy anim = true -> play_animation m anim = Ok [].
Proof.
  destruct anim as [| | | | |a]; try discriminate.
  unfold target_is_falsy, play_animation. cbn [get bind].
  now intros ->.
Qed.

Lemma play_animations_app m pre post :
  play_animations m (pre ++ post)
  = bind (play_animations m pre) (fun ls =>
    bind (play_animations m post) (fun ls' => Ok (ls ++ ls')%list)).
Proof.
  induction pre as [|anim pre IH]; cbn [app play_animations].
  - cbn [bind]. destruct (play_animations m post); reflexivity.
  - destruct (play_animation m anim) as [l|e]; cbn [bind]; [|reflexivity].
    rewrite IH. destruct (play_animations m pre) as [ls|e]; cbn [bind];
      [|reflexivity].
    destruct (play_animations m post) as [ls'|e]; cbn [bind]; [|reflexivity].
    now rewrite app_assoc.
Qed.

Lemma play_animations_skip m pre anim post :
  play_animation m anim = Ok [] ->
  play_animations m (pre ++ anim :: post) = play_animations m (pre ++ post).
Proof.
  intros H. rewrite !play_animations_app. cbn [play_animations].
  rewrite H. cbn [bind app].
  destruct (play_animations m pre) as [ls|e]; cbn [bind]; [|reflexivity].
  destruct (play_animations m post) as [ls'|e]; reflexivity.
Qed.

(** C10: an operation whose target is missing, null, empty or otherwise
    falsy adds no line in any scene, and the scene compiles, or fails, as
    it does without that operation. *)
Theorem falsy_target_is_skipped (idx : nat) (scene : list (string * value))
  (pre post : list value) (anim : value) :
  target_is_falsy anim = true ->
  dict_get "animations" scene = Some (VList (pre ++ anim :: post)) ->
  (forall m, play_animation m anim = Ok [])
  /\ scene_lines idx (VDict scene)
     = scene_lines idx
         (VDict (dict_set "animations" (VList (pre ++ post)) scene)).
Proof.
  intros Hfalsy Hanims. split.
  - intros m. now apply play_animation_falsy.
  - unfold scene_lines, scene_layout. cbn [subscript get].
    unfold dict_get_default.
    rewrite ValidatorFacts.dict_get_set_same, Hanims.
    rewrite !(ValidatorFacts.dict_get_set_other "animations") by discriminate.
    destruct (dict_get "narration" scene) as [narration|]; [|reflexivity].
    cbn [bind].
    destruct (slice_50 narration) as [narration50|e]; [|reflexivity].
    cbn [bind].
    destruct (Validator.iterate _) as [mobjs|e]; [|reflexivity].
    cbn [bind].
    destruct (mobject_loop idx 1 mobjs layout_start) as [[ls st]|e];
      [|reflexivity].
    cbn [bind Validator.iterate].
    rewrite (play_animations_skip _ _ _ _ (play_animation_falsy _ _ Hfalsy)).
    reflexivity.
Qed.

Definition plain (kind : string) : value := VDict [("type", VStr kind)].

Definition fade_in (target : value) : value :=
  VDict [("type", VStr "FadeIn"); ("target", target)].

(** A scene with the narration ["x"]. *)
Definition scene_of (mobjs anims : list value) : list (string * value) :=
  [("scene_class", VStr "Scene"); ("narration", VStr "x");
   ("mobjects", VList mobjs); ("animations", VList anims)].

Lemma falsy_target_is_skipped_witness :
  (forall m, play_animation m (fade_in (VList [])) = Ok [])
  /\ scene_lines 1
       (VDict (scene_of [plain "Circle"]
                 ([fade_in (VStr "Circle")]
                  ++ fade_in (VList []) :: [VDict [("type", VStr "FadeIn")]])))
     = scene_lines 1
         (VDict (dict_set "animations"
                   (VList ([fade_in (VStr "Circle")]
                           ++ [VDict [("type", VStr "FadeIn")]]))
                   (scene_of [plain "Circle"]
                      ([fade_in (VStr "Circle")]
                       ++ fade_in (VList [])
                          :: [VDict [("type", VStr "FadeIn")]])))).
Proof.
  apply (falsy_target_is_skipped 1
           (scene_of [plain "Circle"]
              ([fade_in (VStr "Circle")]
               ++ fade_in (VList []) :: [VDict [("type", VStr "FadeIn")]]))
           [fade_in (VStr "Circle")] [VDict [("type", VStr "FadeIn")]]
           (fade_in (VList []))); reflexivity.
Defined.

(** C7: with two circles declared, the list target [["Circle"]] is resolved
    to both, where the string target ["Circle"] is resolved to the first
    only: the loop over a list target has no [break]. *)
Theorem list_target_takes_every_match :
  play_animation [(VStr "circle1_1", "Circle"); (VStr "circle1_2", "Circle")]
    (fade_in (VList [VStr "Circle"]))
  = Ok [Play (VStr "FadeIn") [VStr "circle1_1"; VStr "circle1_2"]]
  /\ play_animation [(VStr "circle1_1", "Circle"); (VStr "circle1_2", "Circle")]
       (fade_in (VStr "Circle"))
     = Ok [Play (VStr "FadeIn") [VStr "circle1_1"]]
  /\ scene_lines 1
       (VDict (scene_of [plain "Circle"; plain "Circle"]
                 [fade_in (VList [VStr "Circle"])]))
     = Ok [SceneComment 1 (VStr "x");
          Construct (VStr "circle1_1") "Circle" [];
          Construct (VStr "circle1_2") "Circle" [];
          ToEdgeUp (VStr "circle1_1");
          NextTo (VStr "circle1_2") (VStr "circle1_1");
          Play (VStr "FadeIn") [VStr "circle1_1"; VStr "circle1_2"];
          Wait].
Proof. repeat split. Qed.

(** *** The end-to-end scenario *)

(** The storyboard of the scenario, in the field names the compiler reads
    ([type], [mobjects], [animations]). *)
Definition demo_storyboard : value :=
  VDict [("title", VStr "Demo");
         ("scenes",
          VList [VDict (scene_of [plain "Circle"]
                          [fade_in (VStr "Circle")])])].

Definition demo_text : string :=
"from manim import *

class Demo(ThreeDScene):
    def construct(self):
        # Scene 1: x...
        circle1_1 = Circle()
        circle1_1.to_edge(UP)
        self.play(FadeIn(circle1_1))
        self.wait(1)
".

(** The same storyboard under the field names [scene_kind], [objects],
    [kind] and [operations]: the compiler reads none of them. *)
Definition demo_storyboard_unread : value :=
  VDict [("title", VStr "Demo");
         ("scenes",
          VList [VDict [("scene_kind", VStr "Scene");
                        ("narration", VStr "x");
                        ("objects", VList [VDict [("kind", VStr "Circle")]]);
                        ("operations",
                         VList [VDict [("kind", VStr "FadeIn");
                                       ("target", VStr "Circle")]])]])].

(** C4, as stated, fails: the name [circle_0_0] does not occur in the
    compiled text; the circle is bound to [circle1_1]. Under the field names
    [objects] and [operations], which are not read, no circle is constructed
    at all. *)
Lemma demo_has_no_circle_0_0 :
  storyboard_to_manim_code (fun _ => "") (fun _ => "") demo_storyboard
  = Ok demo_text
  /\ PyStr.contains "circle_0_0" demo_text = false
  /\ PyStr.contains "circle1_1 = Circle()" demo_text = true
  /\ storyboard_lines demo_storyboard_unread
     = Ok [Verbatim "from manim import *"; Verbatim "";
           ClassHeader "Demo"; Verbatim "    def construct(self):";
           SceneComment 1 (VStr "x"); Wait].
Proof. repeat split. Qed.

(** C4 (amended): the scenario compiles to a text that constructs one
    circle, bound to the synthesized name [circle1_1] (the kind in lower
    case, the scene's number from 1, an underscore, the object's number
    from 1), and plays one fade-in on that name. *)
Theorem demo_compiles_to_circle1_1 (repr : value -> string)
  (str_float : spec_float -> string) :
  storyboard_lines demo_storyboard
  = Ok [Verbatim "from manim import *"; Verbatim "";
        ClassHeader "Demo"; Verbatim "    def construct(self):";
        SceneComment 1 (VStr "x");
        Construct (VStr "circle1_1") "Circle" [];
        ToEdgeUp (VStr "circle1_1");
        Play (VStr "FadeIn") [VStr "circle1_1"];
        Wait]
  /\ storyboard_to_manim_code repr str_float demo_storyboard = Ok demo_text.
Proof. split; reflexivity. Qed.

(** *** Kinds and the vocabulary *)

(** The table of [load_allowed_classes]: [allowed["Scene"]],
    [allowed["Mobject"]] and [allowed["Animation"]]. *)
Record vocabulary : Type := {
  Scenes : list string;
  Mobjects : list string;
  Animations : list string }.

Definition known (names : list string) (kind : option value) : bool :=
  match kind with
  | Some (VStr name) => existsb (String.eqb name) names
  | _ => false
  end.

Definition scenes_of (storyboard : value) : list value :=
  elements (field "scenes" storyboard).

Definition mobjects_of (scene : value) : list value :=
  elements (field "mobjects" scene).

Definition animations_of (scene : value) : list value :=
  elements (field "animations" scene).

Definition scene_within (vocab : vocabulary) (scene : value) : bool :=
  known (Scenes vocab) (field "scene_class" scene)
  && forallb (fun mobj => known (Mobjects vocab) (field "type" mobj))
       (mobjects_of scene)
  && forallb (fun anim => known (Animations vocab) (field "type" anim))
       (animations_of scene).

(** Every kind the storyboard refers to is in the matching set. *)
Definition within_vocabulary (vocab : vocabulary) (storyboard : value) : bool :=
  forallb (scene_within vocab) (scenes_of storyboard).

(** The kinds of the objects a text constructs, with their arguments, and
    the kinds of the operations it plays, in the order of the lines. *)
Definition constructed (ls : list line) : list (string * list (string * value)) :=
  flat_map (fun l => match l with
                     | Construct _ kind kwargs => [(kind, kwargs)]
                     | _ => []
                     end) ls.

Definition played (ls : list line) : list value :=
  flat_map (fun l => match l with
                     | Play kind _ => [kind]
                     | _ => []
                     end) ls.

(** The object a storyboard entry declares: its [type], a string, and the
    entries of its [kwargs] (none when it has no [kwargs]) under the
    allowed keys. *)
Definition declares (mobj : value) (c : string * list (string * value)) : Prop :=
  exists kind kwargs,
    field "type" mobj = Some (VStr kind)
    /\ match field "kwargs" mobj with
       | Some given => given = VDict kwargs
       | None => kwargs = []
       end
    /\ c = (kind,
            List.filter (fun kv => existsb (String.eqb (fst kv)) allowed_keys)
              kwargs).

(** The kind an operation declares: what is under its [type], [None] when
    there is nothing. *)
Definition declared_operation (anim : value) : value :=
  match field "type" anim with
  | Some kind => kind
  | None => VNone
  end.

Definition small_vocabulary : vocabulary :=
  {| Scenes := ["Scene"]; Mobjects := ["Circle"]; Animations := ["FadeIn"] |}.

Definition unknown_kinds_storyboard : value :=
  VDict [("title", VStr "Out of vocabulary");
         ("scenes",
          VList [VDict [("scene_class", VStr "Stage");
                        ("narration", VStr "x");
                        ("mobjects", VList [plain "Bogus"]);
                        ("animations",
                         VList [VDict [("type", VStr "Teleport");
                                       ("target", VStr "Bogus")]])]])].

(** C1, as stated, fails: a storyboard whose scene, object and operation
    kinds are all outside the vocabulary compiles, and the text constructs
    the unknown object kind and plays the unknown operation kind. *)
Lemma unknown_kinds_compile :
  within_vocabulary small_vocabulary unknown_kinds_storyboard = false
  /\ storyboard_lines unknown_kinds_storyboard
     = Ok [Verbatim "from manim import *"; Verbatim "";
           ClassHeader "Outofvocabulary"; Verbatim "    def construct(self):";
           SceneComment 1 (VStr "x");
           Construct (VStr "bogus1_1") "Bogus" [];
           ToEdgeUp (VStr "bogus1_1");
           Play (VStr "Teleport") [VStr "bogus1_1"];
           Wait]
  /\ exists text,
       storyboard_to_manim_code (fun _ => "") (fun _ => "")
         unknown_kinds_storyboard = Ok text
       /\ PyStr.contains "bogus1_1 = Bogus()" text = true
       /\ PyStr.contains "self.play(Teleport(bogus1_1))" text = true.
Proof. repeat split. eexists. repeat split. Qed.

Lemma constructed_app l1 l2 :
  constructed (l1 ++ l2) = (constructed l1 ++ constructed l2)%list.
Proof. apply flat_map_app. Qed.

Lemma played_app l1 l2 : played (l1 ++ l2) = (played l1 ++ played l2)%list.
Proof. apply flat_map_app. Qed.

Lemma scale_lines_neutral f objs :
  constructed (map (fun obj => Scale obj f) objs) = []
  /\ played (map (fun obj => Scale obj f) objs) = [].
Proof. induction objs as [|o objs [IH1 IH2]]; split; auto. Qed.

Lemma next_to_each_neutral prev objs :
  constructed (next_to_each prev objs) = []
  /\ played (next_to_each prev objs) = [].
Proof.
  revert prev. induction objs as [|o objs IH]; intros prev; split; auto;
    simpl; apply IH.
Qed.

Lemma position_row_neutral objs :
  constructed (position_row objs) = [] /\ played (position_row objs) = [].
Proof. destruct objs as [|o objs]; split; auto; simpl; apply next_to_each_neutral. Qed.

(** An operation adds at most one line, which carries its own kind. *)
Lemma play_animation_kinds m anim :
  match play_animation m anim with
  | Ok ls =>
      constructed ls = []
      /\ (played ls = [] \/ played ls = [declared_operation anim])
  | Raise e => python_error e
  end.
Proof.
  destruct anim as [| | | | |a]; try (simpl; python_error).
  unfold play_animation, declared_operation. cbn [get bind field].
  change (match dict_get "type" a with Some kind => kind | None => VNone end)
    with (dict_get_default "type" a VNone).
  destruct (negb (truthy _)); [simpl; auto|].
  destruct (dict_get_default "target" a VNone) as [| | |s|items|];
    try (simpl; auto; fail).
  - destruct (first_match s m) as [matched|]; [|simpl; auto].
    destruct (truthy matched); simpl; auto.
  - destruct (flat_map (fun t => all_matches t m) items) as [|t0 ts];
      [simpl; auto|].
    destruct (List.forallb is_str (t0 :: ts)); [|python_error].
    simpl. auto.
Qed.

Lemma play_animations_kinds m anims :
  match play_animations m anims with
  | Ok ls =>
      constructed ls = []
      /\ incl (played ls) (map declared_operation anims)
  | Raise e => python_error e
  end.
Proof.
  induction anims as [|anim anims IH]; simpl.
  - split; [reflexivity|apply incl_refl].
  - pose proof (play_animation_kinds m anim) as Ha.
    destruct (play_animation m anim) as [l|e]; cbn [bind]; [|exact Ha].
    destruct (play_animations m anims) as [ls|e]; cbn [bind]; [|exact IH].
    destruct Ha as [Hc Hp], IH as [IHc IHp].
    rewrite constructed_app, played_app, Hc, IHc. split; [reflexivity|].
    apply incl_app; [|now apply incl_tl].
    destruct Hp as [-> | ->]; [apply incl_nil_l|].
    intros x [<-|[]]. now left.
Qed.

(** What lines 147 to 149 read off an entry. *)
Lemma mobject_locals_spec idx mobj_idx mobj :
  match mobject_locals idx mobj_idx mobj with
  | Ok (mobj_type, mobj_name, kwargs) =>
      exists given,
        field "type" mobj = Some (VStr mobj_type)
        /\ match field "kwargs" mobj with
           | Some v => v = VDict given
           | None => given = []
           end
        /\ mobj_name
           = dict_get_default "name" given
               (VStr (synthesized_name mobj_type idx mobj_idx))
        /\ kwargs = sanitize_mobject_kwargs given
  | Raise e => python_error e
  end.
Proof.
  destruct mobj as [| | | | |d]; try (simpl; python_error).
  unfold mobject_locals. cbn [subscript get field].
  destruct (dict_get "type" d) as [mobj_type|]; [|simpl; python_error].
  cbn [bind]. unfold dict_get_default at 1.
  destruct (dict_get "kwargs" d) as [given|]; cbn [as_dict bind].
  - destruct given as [| | | | |given]; try (simpl; python_error).
    cbn [as_dict bind].
    destruct mobj_type as [| | |t| |]; try (simpl; python_error).
    exists given. repeat split.
  - destruct mobj_type as [| | |t| |]; try (simpl; python_error).
    exists []. repeat split.
Qed.

Lemma add_half_fails v : fails_in_python (add_half v).
Proof.
  destruct v as [| |[z|f]| | |]; simpl; try exact I; try python_error.
  unfold float_of_int. destruct (float_of_Z z); simpl; try exact I.
  python_error.
Qed.

Lemma float_div_fails x y : fails_in_python (float_div x y).
Proof.
  unfold float_div. destruct (float_is_zero y); simpl; [python_error|exact I].
Qed.

Lemma record_mobject_fails name cls m : fails_in_python (record_mobject name cls m).
Proof.
  unfold record_mobject. destruct (hashable name); simpl; [exact I|python_error].
Qed.

Lemma mobject_step_kinds idx mobj_idx mobj st :
  match mobject_step idx mobj_idx mobj st with
  | Ok (ls, _) =>
      exists c, declares mobj c /\ constructed ls = [c] /\ played ls = []
  | Raise e => python_error e
  end.
Proof.
  unfold mobject_step.
  pose proof (mobject_locals_spec idx mobj_idx mobj) as Hl.
  destruct (mobject_locals idx mobj_idx mobj) as [[[mobj_type mobj_name] kwargs]|e];
    cbn [bind]; [|exact Hl].
  destruct Hl as (given & Htype & Hgiven & _ & ->).
  assert (Hd : declares mobj (mobj_type, sanitize_mobject_kwargs given)).
  { exists mobj_type, given. repeat split; assumption. }
  pose proof (add_half_fails (approx_size (sanitize_mobject_kwargs given))) as Ha.
  destruct (add_half _) as [addend|e]; cbn [bind]; [clear Ha|exact Ha].
  match goal with |- context [if ?c then _ else _] => destruct c end.
  - pose proof (float_div_fails (float_of_Z ROW_WIDTH_LIMIT)
                  (float_add (row_width st) addend)) as Hq.
    destruct (float_div _ _) as [quotient|e]; cbn [bind]; [clear Hq|exact Hq].
    pose proof (record_mobject_fails mobj_name mobj_type (mobjects_map st)) as Hr.
    destruct (record_mobject _ _ _) as [m|e]; cbn [bind]; [clear Hr|exact Hr].
    eexists. split; [exact Hd|].
    cbn [constructed played flat_map app].
    change (flat_map _ ?l) with (constructed l) at 1.
    change (flat_map _ ?l) with (played l).
    rewrite constructed_app, played_app.
    rewrite (proj1 (scale_lines_neutral _ _)), (proj2 (scale_lines_neutral _ _)).
    rewrite (proj1 (position_row_neutral _)), (proj2 (position_row_neutral _)).
    split; reflexivity.
  - pose proof (record_mobject_fails mobj_name mobj_type (mobjects_map st)) as Hr.
    destruct (record_mobject _ _ _) as [m|e]; cbn [bind]; [clear Hr|exact Hr].
    eexists. split; [exact Hd|]. split; reflexivity.
Qed.

Lemma mobject_loop_kinds idx mobjs : forall mobj_idx st,
  match mobject_loop idx mobj_idx mobjs st with
  | Ok (ls, _) => Forall2 declares mobjs (constructed ls) /\ played ls = []
  | Raise e => python_error e
  end.
Proof.
  induction mobjs as [|mobj mobjs IH]; intros mobj_idx st; simpl.
  - split; [constructor|reflexivity].
  - pose proof (mobject_step_kinds idx mobj_idx mobj st) as Hs.
    destruct (mobject_step idx mobj_idx mobj st) as [[ls st1]|e]; cbn [bind];
      [|exact Hs].
    specialize (IH (S mobj_idx) st1).
    destruct (mobject_loop idx (S mobj_idx) mobjs st1) as [[ls' st2]|e];
      cbn [bind]; [|exact IH].
    destruct Hs as (c & Hd & Hc & Hp), IH as [Hc' Hp'].
    rewrite constructed_app, played_app, Hc, Hp, Hp'.
    split; [|reflexivity]. now constructor.
Qed.

Lemma slice_50_fails v : fails_in_python (slice_50 v).
Proof. destruct v; simpl; try exact I; python_error. Qed.

Lemma scene_lines_kinds idx scene :
  match scene_lines idx scene with
  | Ok ls =>
      Forall2 declares (mobjects_of scene) (constructed ls)
      /\ incl (played ls) (map declared_operation (animations_of scene))
  | Raise e => python_error e
  end.
Proof.
  unfold scene_lines, scene_layout.
  pose proof (subscript_fails scene "narration") as H1.
  destruct (subscript scene "narration") as [narration|e]; cbn [bind];
    [clear H1|exact H1].
  pose proof (slice_50_fails narration) as H2.
  destruct (slice_50 narration) as [narration50|e]; cbn [bind];
    [clear H2|exact H2].
  pose proof (get_fails scene "mobjects" (VList [])) as H3.
  pose proof (get_elements scene "mobjects") as Hm.
  destruct (get scene "mobjects" (VList [])) as [mobjects|e]; cbn [bind] in *;
    [clear H3|exact H3].
  pose proof (iterate_fails mobjects) as H4.
  destruct (Validator.iterate mobjects) as [mobjs|e]; cbn [bind];
    [clear H4|exact H4].
  specialize (Hm mobjs eq_refl).
  pose proof (mobject_loop_kinds idx mobjs 1 layout_start) as Hl.
  destruct (mobject_loop idx 1 mobjs layout_start) as [[ls st]|e];
    cbn [bind]; [|exact Hl].
  destruct Hl as [Hc Hp].
  pose proof (get_fails scene "animations" (VList [])) as H5.
  pose proof (get_elements scene "animations") as Ha.
  destruct (get scene "animations" (VList [])) as [animations|e]; cbn [bind] in *;
    [clear H5|exact H5].
  pose proof (iterate_fails animations) as H6.
  destruct (Validator.iterate animations) as [anims|e]; cbn [bind];
    [clear H6|exact H6].
  specialize (Ha anims eq_refl).
  pose proof (play_animations_kinds (mobjects_map st) anims) as Hplay.
  destruct (play_animations (mobjects_map st) anims) as [plays|e]; cbn [bind];
    [|exact Hplay].
  destruct Hplay as [Hpc Hpp].
  unfold mobjects_of, animations_of. rewrite Hm, Ha.
  cbn [constructed played flat_map app].
  change (flat_map _ ?l) with (constructed l) at 1.
  change (flat_map _ ?l) with (played l).
  rewrite !constructed_app, !played_app, Hp, Hpc.
  rewrite (proj1 (position_row_neutral _)), (proj2 (position_row_neutral _)).
  simpl. rewrite !app_nil_r. split; [exact Hc|exact Hpp].
Qed.

Lemma scenes_lines_kinds scenes : forall idx,
  match scenes_lines idx scenes with
  | Ok ls =>
      Forall2 declares (flat_map mobjects_of scenes) (constructed ls)
      /\ incl (played ls)
           (map declared_operation (flat_map animations_of scenes))
  | Raise e => python_error e
  end.
Proof.
  induction scenes as [|scene scenes IH]; intros idx; simpl.
  - split; [constructor|apply incl_refl].
  - pose proof (scene_lines_kinds idx scene) as Hs.
    destruct (scene_lines idx scene) as [ls|e]; cbn [bind]; [|exact Hs].
    specialize (IH (S idx)).
    destruct (scenes_lines (S idx) scenes) as [ls'|e]; cbn [bind]; [|exact IH].
    destruct Hs as [Hc Hp], IH as [Hc' Hp'].
    rewrite constructed_app, played_app, map_app. split.
    + now apply Forall2_app.
    + apply incl_app; [now apply incl_appl|now apply incl_appr].
Qed.

Lemma storyboard_lines_kinds storyboard :
  match storyboard_lines storyboard with
  | Ok ls =>
      Forall2 declares (flat_map mobjects_of (scenes_of storyboard))
        (constructed ls)
      /\ incl (played ls)
           (map declared_operation
              (flat_map animations_of (scenes_of storyboard)))
  | Raise e => python_error e
  end.
Proof.
  unfold storyboard_lines.
  pose proof (subscript_fails storyboard "title") as H1.
  destruct (subscript storyboard "title") as [title|e]; cbn [bind];
    [clear H1|exact H1].
  destruct title as [| | |title| |]; try (simpl; python_error).
  cbn [replace_spaces bind].
  pose proof (subscript_fails storyboard "scenes") as H2.
  pose proof (subscript_elements storyboard "scenes") as Hs.
  destruct (subscript storyboard "scenes") as [scenes|e]; cbn [bind] in *;
    [clear H2|exact H2].
  pose proof (iterate_fails scenes) as H3.
  destruct (Validator.iterate scenes) as [elements|e]; cbn [bind];
    [clear H3|exact H3].
  specialize (Hs elements eq_refl). unfold scenes_of. rewrite Hs.
  pose proof (scenes_lines_kinds elements 1) as Hl.
  destruct (scenes_lines 1 elements) as [ls|e]; cbn [bind]; [|exact Hl].
  exact Hl.
Qed.

Lemma sanitize_mobject_kwargs_allowed kwargs :
  forallb (fun kv => is_allowed_key (fst kv)) (sanitize_mobject_kwargs kwargs)
  = true.
Proof.
  unfold sanitize_mobject_kwargs.
  induction kwargs as [|kv kwargs IH]; simpl; [reflexivity|].
  destruct (is_allowed_key (fst kv)) eqn:E; simpl; [rewrite E|]; exact IH.
Qed.

Lemma is_allowed_key_eqb k0 k :
  String.eqb k0 k = true -> is_allowed_key k0 = is_allowed_key k.
Proof. intros H. apply String.eqb_eq in H. now subst. Qed.

(** A lookup after filtering. *)
Lemma dict_get_sanitized kwargs k :
  dict_get k (sanitize_mobject_kwargs kwargs)
  = if is_allowed_key k then dict_get k kwargs else None.
Proof.
  unfold sanitize_mobject_kwargs.
  induction kwargs as [|[k0 v] kwargs IH]; simpl.
  - now destruct (is_allowed_key k).
  - destruct (is_allowed_key k0) eqn:E0; simpl.
    + destruct (String.eqb k0 k) eqn:Ek; [|exact IH].
      rewrite <- (is_allowed_key_eqb _ _ Ek), E0. reflexivity.
    + destruct (String.eqb k0 k) eqn:Ek; [|exact IH].
      rewrite IH, <- (is_allowed_key_eqb _ _ Ek), E0. reflexivity.
Qed.

Lemma sanitize_mobject_kwargs_twice kwargs :
  sanitize_mobject_kwargs (sanitize_mobject_kwargs kwargs)
  = sanitize_mobject_kwargs kwargs.
Proof.
  unfold sanitize_mobject_kwargs.
  induction kwargs as [|[k0 v] kwargs IH]; simpl; [reflexivity|].
  destruct (is_allowed_key k0) eqn:E0; simpl; [rewrite E0, IH|]; auto.
Qed.

(** *** Storyboards that give no size *)

(** An entry with a string for its [type] that gives no [radius] and no
    [side_length], and no name or a string for one. *)
Definition gives_no_size (kwargs : list (string * value)) : bool :=
  match dict_get "radius" kwargs, dict_get "side_length" kwargs with
  | None, None => true
  | _, _ => false
  end.

Definition named_by_str (kwargs : list (string * value)) : bool :=
  match dict_get "name" kwargs with
  | None | Some (VStr _) => true
  | Some _ => false
  end.

Definition unsized_mobject (mobj : value) : bool :=
  match field "type" mobj, field "kwargs" mobj with
  | Some (VStr _), None => true
  | Some (VStr _), Some (VDict kwargs) =>
      gives_no_size kwargs && named_by_str kwargs
  | _, _ => false
  end.

Definition is_dict (v : value) : bool :=
  match v with
  | VDict _ => true
  | _ => false
  end.

(** A list whose items satisfy [p]. *)
Definition list_of (p : value -> bool) (v : value) : bool :=
  match v with
  | VList items => forallb p items
  | _ => false
  end.

Definition missing_or (p : value -> bool) (o : option value) : bool :=
  match o with
  | Some v => p v
  | None => true
  end.

(** A scene with a string for its narration, objects that give no size and
    mappings for its operations. *)
Definition unsized_scene (scene : value) : bool :=
  match field "narration" scene with
  | Some (VStr _) =>
      missing_or (list_of unsized_mobject) (field "mobjects" scene)
      && missing_or (list_of is_dict) (field "animations" scene)
  | _ => false
  end.

Definition unsized_storyboard (storyboard : value) : bool :=
  match field "title" storyboard, field "scenes" storyboard with
  | Some (VStr _), Some scenes => list_of unsized_scene scenes
  | _, _ => false
  end.

(** [1 + 0.5] *)
Definition default_addend : spec_float :=
  float_add (float_of_Z 1) half.

(** The width of a row of [n] objects of size 1. *)
Fixpoint default_width (n : nat) : spec_float :=
  match n with
  | O => float_of_Z 0
  | S k => float_add (default_width k) default_addend
  end.

Lemma default_width_fits n :
  n < MAX_ROW_OBJECTS ->
  float_lt (float_of_Z ROW_WIDTH_LIMIT) (default_width n) = false.
Proof.
  unfold MAX_ROW_OBJECTS. intros H.
  do 5 (destruct n as [|n]; [vm_compute; reflexivity|]). lia.
Qed.

Lemma default_width_full :
  float_div (float_of_Z ROW_WIDTH_LIMIT) (default_width MAX_ROW_OBJECTS)
  = Ok (S754_finite false 7205759403792794 (-52))
  /\ min_1 (S754_finite false 7205759403792794 (-52)) = Int 1.
Proof. split; vm_compute; reflexivity. Qed.

Definition keys_are_str (m : list (value * string)) : Prop :=
  Forall (fun kv => is_str (fst kv) = true) m.

(** The variables of the object loop between two turns, in a scene whose
    objects give no size. *)
Definition unsized_inv (st : layout) : Prop :=
  row_count st < MAX_ROW_OBJECTS
  /\ row_width st = default_width (row_count st)
  /\ keys_are_str (mobjects_map st)
  /\ Forall (fun r => r_scale r = Some (Int 1)) (rows st).

Lemma map_set_keys_are_str name cls m :
  is_str name = true -> keys_are_str m -> keys_are_str (map_set name cls m).
Proof.
  intros Hn. unfold keys_are_str.
  induction m as [|[k w] m IH]; simpl; intros Hm.
  - repeat constructor. exact Hn.
  - inversion Hm as [|? ? Hk Hrest]; subst.
    destruct (key_eq k name); constructor; auto.
Qed.

Lemma unsized_mobject_locals idx mobj_idx mobj :
  unsized_mobject mobj = true ->
  exists mobj_type mobj_name kwargs,
    mobject_locals idx mobj_idx mobj = Ok (mobj_type, mobj_name, kwargs)
    /\ is_str mobj_name = true
    /\ approx_size kwargs = VNum (Int 1).
Proof.
  unfold unsized_mobject.
  destruct mobj as [| | | | |d]; try discriminate. cbn [field].
  unfold mobject_locals. cbn [subscript get]. unfold dict_get_default at 1.
  destruct (dict_get "type" d) as [[| | |t| |]|]; try discriminate.
  destruct (dict_get "kwargs" d) as [[| | | | |given]|]; try discriminate.
  - intros H. apply andb_prop in H as [Hsize Hname].
    cbn [bind as_dict]. do 3 eexists. split; [reflexivity|]. split.
    + unfold named_by_str in Hname. unfold dict_get_default.
      destruct (dict_get "name" given) as [[| | |s| |]|];
        try discriminate Hname; reflexivity.
    + unfold gives_no_size in Hsize. unfold approx_size, dict_get_default.
      rewrite !dict_get_sanitized. cbn [is_allowed_key].
      destruct (dict_get "radius" given); [discriminate|].
      destruct (dict_get "side_length" given); [discriminate|].
      reflexivity.
  - intros _. cbn [bind as_dict]. do 3 eexists. repeat split.
Qed.

Lemma unsized_mobject_step idx mobj_idx mobj st :
  unsized_inv st -> unsized_mobject mobj = true ->
  exists ls st', mobject_step idx mobj_idx mobj st = Ok (ls, st')
                 /\ unsized_inv st'.
Proof.
  intros (Hcount & Hwidth & Hkeys & Hrows) Hm.
  destruct (unsized_mobject_locals idx mobj_idx mobj Hm)
    as (mobj_type & mobj_name & kwargs & Hl & Hname & Hsize).
  unfold mobject_step. rewrite Hl. cbn [bind]. rewrite Hsize.
  change (add_half (VNum (Int 1))) with (Ok default_addend).
  cbn [bind]. rewrite Hwidth.
  change (float_add (default_width (row_count st)) default_addend)
    with (default_width (S (row_count st))).
  assert (Hhash : record_mobject mobj_name mobj_type (mobjects_map st)
                  = Ok (map_set mobj_name mobj_type (mobjects_map st))).
  { unfold record_mobject. destruct mobj_name; try discriminate Hname.
    reflexivity. }
  rewrite Hhash.
  pose proof (map_set_keys_are_str mobj_name mobj_type _ Hname Hkeys) as Hkeys'.
  destruct (MAX_ROW_OBJECTS <=? S (row_count st)) eqn:Hfull.
  - apply Nat.leb_le in Hfull.
    assert (E : S (row_count st) = MAX_ROW_OBJECTS) by lia.
    rewrite E. cbn [orb].
    rewrite (proj1 default_width_full). cbn [bind].
    rewrite (proj2 default_width_full).
    do 2 eexists. split; [reflexivity|].
    unfold unsized_inv; cbn [row_count row_width mobjects_map rows].
    split; [unfold MAX_ROW_OBJECTS; lia|]. split; [reflexivity|].
    split; [exact Hkeys'|].
    apply Forall_app. split; [exact Hrows|]. repeat constructor.
  - apply Nat.leb_gt in Hfull. cbn [orb].
    rewrite (default_width_fits _ Hfull). cbn [bind].
    do 2 eexists. split; [reflexivity|].
    unfold unsized_inv; cbn [row_count row_width mobjects_map rows].
    repeat split; assumption.
Qed.

Lemma unsized_mobject_loop idx mobjs : forall mobj_idx st,
  unsized_inv st -> forallb unsized_mobject mobjs = true ->
  exists ls st', mobject_loop idx mobj_idx mobjs st = Ok (ls, st')
                 /\ unsized_inv st'.
Proof.
  induction mobjs as [|mobj mobjs IH]; intros mobj_idx st Hinv Hall; simpl.
  - eexists; eexists. split; [reflexivity|exact Hinv].
  - simpl in Hall. apply andb_prop in Hall as [Hm Hrest].
    destruct (unsized_mobject_step idx mobj_idx mobj st Hinv Hm)
      as (ls & st1 & Hstep & Hinv1).
    rewrite Hstep. cbn [bind].
    destruct (IH (S mobj_idx) st1 Hinv1 Hrest) as (ls' & st2 & Hloop & Hinv2).
    rewrite Hloop. cbn [bind].
    eexists; eexists. split; [reflexivity|exact Hinv2].
Qed.

Lemma layout_start_unsized : unsized_inv layout_start.
Proof.
  unfold unsized_inv, layout_start, MAX_ROW_OBJECTS; simpl.
  repeat split; try lia; constructor.
Qed.

Lemma all_matches_are_str t m :
  keys_are_str m -> List.forallb is_str (all_matches t m) = true.
Proof.
  unfold keys_are_str. induction 1 as [|[k c] m Hk Hm IH]; simpl; [reflexivity|].
  destruct (str_eq_value c t || scalar_eq k t)%bool; [|exact IH].
  simpl. simpl in Hk. now rewrite Hk.
Qed.

Lemma play_animation_returns m anim :
  keys_are_str m -> is_dict anim = true ->
  exists ls, play_animation m anim = Ok ls.
Proof.
  intros Hm. destruct anim as [| | | | |a]; try discriminate. intros _.
  unfold play_animation. cbn [get bind].
  destruct (negb (truthy _)); [eauto|].
  destruct (dict_get_default "target" a VNone) as [| | |s|items|]; eauto.
  - destruct (first_match s m) as [matched|]; eauto.
    destruct (truthy matched); eauto.
  - assert (Hall : List.forallb is_str (flat_map (fun t => all_matches t m) items)
                   = true).
    { induction items as [|t items IH]; simpl; [reflexivity|].
      rewrite forallb_app, IH, (all_matches_are_str _ _ Hm). reflexivity. }
    destruct (flat_map (fun t => all_matches t m) items) as [|t0 ts]; eauto.
    rewrite Hall. eauto.
Qed.

Lemma play_animations_return m anims :
  keys_are_str m -> forallb is_dict anims = true ->
  exists ls, play_animations m anims = Ok ls.
Proof.
  intros Hm. induction anims as [|anim anims IH]; simpl; [eauto|].
  intros H. apply andb_prop in H as [Ha Hrest].
  destruct (play_animation_returns m anim Hm Ha) as (l & ->).
  destruct (IH Hrest) as (ls & ->). cbn [bind]. eauto.
Qed.

(** A scene whose objects give no size compiles, into rows that are not
    scaled down. *)
Lemma unsized_scene_layout idx scene :
  unsized_scene scene = true ->
  exists ls rs, scene_layout idx scene = Ok (ls, rs)
    /\ Forall (fun r => r_scale r = Some (Int 1) \/ r_scale r = None) rs.
Proof.
  unfold unsized_scene. destruct scene as [| | | | |d]; try discriminate.
  cbn [field]. unfold scene_layout. cbn [subscript get].
  destruct (dict_get "narration" d) as [[| | |narration| |]|]; try discriminate.
  cbn [bind slice_50]. unfold dict_get_default.
  intros H. apply andb_prop in H as [Hmobjs Hanims].
  assert (Hm : exists mobjs,
             Validator.iterate
               match dict_get "mobjects" d with
               | Some v => v
               | None => VList []
               end = Ok mobjs
             /\ forallb unsized_mobject mobjs = true).
  { destruct (dict_get "mobjects" d) as [[| | | |mobjs|]|];
      try discriminate Hmobjs; eexists; split; try reflexivity; exact Hmobjs. }
  destruct Hm as (mobjs & -> & Hall). cbn [bind].
  destruct (unsized_mobject_loop idx mobjs 1 layout_start layout_start_unsized Hall)
    as (ls & st & -> & (_ & _ & Hkeys & Hrows)).
  cbn [bind].
  assert (Ha : exists anims,
             Validator.iterate
               match dict_get "animations" d with
               | Some v => v
               | None => VList []
               end = Ok anims
             /\ forallb is_dict anims = true).
  { destruct (dict_get "animations" d) as [[| | | |anims|]|];
      try discriminate Hanims; eexists; split; try reflexivity; exact Hanims. }
  destruct Ha as (anims & -> & Hdicts). cbn [bind].
  destruct (play_animations_return _ anims Hkeys Hdicts) as (plays & ->).
  cbn [bind]. do 2 eexists. split; [reflexivity|].
  unfold final_rows.
  assert (Hleft : Forall (fun r => r_scale r = Some (Int 1) \/ r_scale r = None)
                    (rows st)).
  { eapply Forall_impl; [|exact Hrows]. intros r Hr. now left. }
  destruct (row_objs st); [exact Hleft|].
  apply Forall_app. split; [exact Hleft|].
  constructor; [now right|constructor].
Qed.

Lemma unsized_scenes_lines scenes : forall idx,
  forallb unsized_scene scenes = true ->
  exists ls, scenes_lines idx scenes = Ok ls.
Proof.
  induction scenes as [|scene scenes IH]; intros idx; simpl; [eauto|].
  intros H. apply andb_prop in H as [Hs Hrest].
  destruct (unsized_scene_layout idx scene Hs) as (ls & rs & Hl & _).
  unfold scene_lines. rewrite Hl. cbn [bind].
  destruct (IH (S idx) Hrest) as (ls' & ->). cbn [bind]. eauto.
Qed.

Lemma unsized_storyboard_lines storyboard :
  unsized_storyboard storyboard = true ->
  exists ls, storyboard_lines storyboard = Ok ls.
Proof.
  unfold unsized_storyboard. destruct storyboard as [| | | | |d]; try discriminate.
  cbn [field]. unfold storyboard_lines. cbn [subscript].
  destruct (dict_get "title" d) as [[| | |title| |]|]; try discriminate.
  destruct (dict_get "scenes" d) as [[| | | |scenes|]|]; try discriminate.
  cbn [list_of bind replace_spaces Validator.iterate]. intros H.
  destruct (unsized_scenes_lines scenes 1 H) as (ls & ->). cbn [bind]. eauto.
Qed.

(** C1 (amended): the compiler consults no vocabulary and has no
    unknown-symbol error. When it returns, the text is made of lines in
    which the objects constructed are the declared objects, each with its
    declared kind as written and with its keyword arguments cut down to the
    allowed keys, in declaration order, and every operation played carries
    the kind of a declared operation. When it fails, the exception is one
    that Python raises on a field that is missing or has the wrong type
    ([KeyError], [AttributeError], [TypeError]) or in the layout arithmetic
    ([ZeroDivisionError], [OverflowError]). A storyboard of the expected
    shape whose objects give no size does compile, whatever its kinds
    are. *)
Theorem compile_emits_declared_kinds (repr : value -> string)
  (str_float : spec_float -> string) (storyboard : value) :
  match storyboard_to_manim_code repr str_float storyboard with
  | Ok text =>
      exists ls,
        storyboard_lines storyboard = Ok ls
        /\ text = String.concat newline (map (line_text repr str_float) ls)
        /\ Forall2 declares (flat_map mobjects_of (scenes_of storyboard))
             (constructed ls)
        /\ Forall (fun c => forallb (fun kv => is_allowed_key (fst kv)) (snd c)
                             = true) (constructed ls)
        /\ incl (played ls)
             (map declared_operation
                (flat_map animations_of (scenes_of storyboard)))
  | Raise e =>
      In e [KeyError; AttributeError; TypeError; ZeroDivisionError;
            OverflowError]
  end
  /\ (unsized_storyboard storyboard = true ->
      exists text,
        storyboard_to_manim_code repr str_float storyboard = Ok text).
Proof.
  unfold storyboard_to_manim_code. split.
  - pose proof (storyboard_lines_kinds storyboard) as H.
    destruct (storyboard_lines storyboard) as [ls|e]; cbn [bind]; [|exact H].
    exists ls. destruct H as [Hc Hp].
    split; [reflexivity|]. split; [reflexivity|]. split; [exact Hc|].
    split; [|exact Hp].
    clear Hp. induction Hc as [|mobj c mobjs cs Hd _ IH]; constructor; [|exact IH].
    destruct Hd as (kind & kwargs & _ & _ & ->).
    apply sanitize_mobject_kwargs_allowed.
  - intros H. destruct (unsized_storyboard_lines storyboard H) as (ls & ->).
    cbn [bind]. eauto.
Qed.

Lemma compile_emits_declared_kinds_witness :
  unsized_storyboard unknown_kinds_storyboard = true
  /\ exists text,
       storyboard_to_manim_code (fun _ => "") (fun _ => "")
         unknown_kinds_storyboard = Ok text.
Proof.
  split; [reflexivity|].
  apply (compile_emits_declared_kinds (fun _ => "") (fun _ => "")
           unknown_kinds_storyboard).
  reflexivity.
Defined.

End CompilerFacts.

(** ** StoryboardCompiler: layout *)

Module LayoutFacts.
Import Py Compiler PyFacts CompilerFacts.





















(** *** Exact values *)

(** The number a finite float stands for. *)
Definition float_Q (f : spec_float) : Q :=
  match f with
  | S754_finite s m e =>
      (inject_Z (if s then Z.neg m else Z.pos m) * Qpower 2 e)%Q
  | _ => 0%Q
  end.






(** The float a decimal numeral [n/d] is read as, for small [n] and [d]:
    the nearest one. *)
Definition decimal (n d : Z) : spec_float :=
  SFdiv prec emax (float_of_Z n) (float_of_Z d).

Definition circle (radius : value) : value :=
  VDict [("type", VStr "Circle"); ("kwargs", VDict [("radius", radius)])].

Definition circles (radii : list value) : value :=
  VDict (scene_of (map circle radii) []).



(** Objects of sizes 3.2, 3.9, 3.4 and 1. *)
Definition three_and_one : value :=
  circles [VNum (Float (decimal 32 10)); VNum (Float (decimal 39 10));
           VNum (Float (decimal 34 10)); VNum (Int 1)].



(** Nor is a scaled row always within 12 with its buffers scaled along: the
    quotient is rounded. The sizes 3.2, 3.9 and 3.4 add up, in floats, to
    the float next above 12; the row is closed there and scaled by the
    float next below 1, and that factor times that width is above 12. *)
Lemma rounded_quotient_exceeds_budget :
  exists ls r1 r2 scale,
    scene_layout 1 three_and_one = Ok (ls, [r1; r2])
    /\ length (r_objs r1) = 3
    /\ r_width r1 = S754_finite false 6755399441055745 (-49)
    /\ r_scale r1 = Some (Float scale)
    /\ scale = S754_finite false 9007199254740991 (-53)
    /\ (12 < float_Q scale * float_Q (r_width r1))%Q
    /\ length (r_objs r2) = 1
    /\ r_scale r2 = None.
Proof.
  do 4 eexists. split; [vm_compute; reflexivity|]. repeat split.
Qed.



End LayoutFacts.

(** * Further properties *)

(** ** ResponseSanitizer: what each step keeps *)

Module SanitizerExtras.
Import PyStr Sanitizer SanitizerFacts.

Lemma append_nil_r s : s ++ "" = s.
Proof. induction s as [|c s IH]; simpl; [reflexivity|]. now rewrite IH. Qed.

Lemma append_assoc (s t u : string) : (s ++ t) ++ u = s ++ (t ++ u).
Proof. induction s as [|c s IH]; simpl; [reflexivity|]. now rewrite IH. Qed.

Lemma length_append (s t : string) :
  String.length (s ++ t) = String.length s + String.length t.
Proof. induction s as [|c s IH]; simpl; [reflexivity|]. now rewrite IH. Qed.

Lemma strip_prefix_sound p : forall s r, strip_prefix p s = Some r -> s = p ++ r.
Proof.
  induction p as [|a p IH]; intros s r; simpl.
  - intros H. now injection H as <-.
  - destruct s as [|b s]; [discriminate|].
    destruct (Ascii.eqb_spec a b) as [->|_]; [|discriminate].
    intros H. now rewrite (IH _ _ H).
Qed.

Lemma strip_prefix_app p : forall g x r,
  strip_prefix p g = Some x -> strip_prefix p (g ++ r) = Some (x ++ r).
Proof.
  induction p as [|a p IH]; intros g x r; simpl.
  - intros H. now injection H as <-.
  - destruct g as [|b g]; [discriminate|]. simpl.
    destruct (Ascii.eqb a b); [apply IH|discriminate].
Qed.

Lemma span_sound p s :
  s = fst (span p s) ++ snd (span p s) /\ forallb p (fst (span p s)) = true.
Proof.
  induction s as [|c s [IH1 IH2]]; simpl; [auto|].
  destruct (p c) eqn:E; simpl; [|auto].
  destruct (span p s) as [a b]; simpl in *. rewrite E, IH2.
  split; [now rewrite IH1 at 1|reflexivity].
Qed.

(** The group of a fenced block, and where it sits in the text. *)
Lemma until_fence_sound s : forall g,
  until_fence s = Some g ->
  (exists post, s = g ++ "```" ++ post) /\ contains "```" g = false.
Proof.
  induction s as [|c s IH]; intros g.
  - simpl. discriminate.
  - cbn [until_fence].
    destruct (strip_prefix "```" (String c s)) as [post|] eqn:Hp.
    + intros H. injection H as <-. split; [|reflexivity].
      exists post. exact (strip_prefix_sound _ _ _ Hp).
    + destruct (until_fence s) as [g'|]; [|discriminate].
      intros H. injection H as <-.
      destruct (IH g' eq_refl) as [[post Hs] Hc]. split.
      * exists post. simpl. now rewrite Hs at 1.
      * cbn [contains].
        destruct (strip_prefix "```" (String c g')) as [x|] eqn:Hg; [|exact Hc].
        exfalso. rewrite Hs in Hp.
        change (String c (g' ++ "```" ++ post))
          with (String c g' ++ "```" ++ post) in Hp.
        rewrite (strip_prefix_app _ _ _ _ Hg) in Hp. discriminate.
Qed.

(** X3: when the fenced-block search finds a group, the text really is
    some prefix, the opening fence [```json], the group, a closing fence
    and some rest, and the group itself holds no fence. *)
Theorem search_fenced_sound s g :
  search_fenced s = Some g ->
  (exists pre post, s = pre ++ "```json" ++ g ++ "```" ++ post)
  /\ contains "```" g = false.
Proof.
  revert g. induction s as [|c s IH]; intros g; [discriminate|].
  cbn [search_fenced].
  destruct (strip_prefix "```json" (String c s)) as [rest|] eqn:Hp.
  - destruct (until_fence rest) as [g'|] eqn:Hu.
    + intros H. injection H as <-.
      destruct (until_fence_sound rest g' Hu) as [[post Hr] Hc].
      split; [|exact Hc]. exists "", post.
      rewrite (strip_prefix_sound _ _ _ Hp), Hr. reflexivity.
    + intros H. destruct (IH g H) as [(pre & post & Hs) Hc].
      split; [|exact Hc]. exists (String c pre), post. simpl. now rewrite Hs at 1.
  - intros H. destruct (IH g H) as [(pre & post & Hs) Hc].
    split; [|exact Hc]. exists (String c pre), post. simpl. now rewrite Hs at 1.
Qed.

Lemma search_fenced_sound_witness :
  (exists pre post,
     "see ```json {1} ``` and ```json {2} ```"
     = pre ++ "```json" ++ " {1} " ++ "```" ++ post)
  /\ contains "```" " {1} " = false.
Proof.
  apply (search_fenced_sound "see ```json {1} ``` and ```json {2} ```" " {1} ").
  reflexivity.
Defined.

(** X1: the result holds no control character. *)
Theorem fix_gemini_json_no_control_character x :
  forallb (fun c => negb (is_control c)) (fix_gemini_json x) = true.
Proof.
  unfold fix_gemini_json, balance.
  apply close_unmatched_printable; [reflexivity|].
  apply close_unmatched_printable; [reflexivity|].
  unfold rewrite_text, strip_control. apply filter_forallb.
Qed.

Lemma close_unmatched_appends opener closer text :
  close_unmatched opener closer text
  = text ++ repeat closer (count opener text - count closer text).
Proof.
  unfold close_unmatched.
  destruct (Nat.ltb_spec (count closer text) (count opener text)) as [H|H];
    [reflexivity|].
  replace (count opener text - count closer text) with 0 by lia.
  simpl. now rewrite append_nil_r.
Qed.

(** X2: balancing only appends: the result is the rewritten text followed
    by as many [}] as it has more [{] than [}], then by as many [ ] ] as it
    has more [ [ ] than [ ] ]. No character of the text is removed or moved. *)
Theorem fix_gemini_json_appends_closers x :
  fix_gemini_json x
  = rewrite_text x
    ++ repeat "}" (count "{" (rewrite_text x) - count "}" (rewrite_text x))
    ++ repeat "]" (count "[" (rewrite_text x) - count "]" (rewrite_text x)).
Proof.
  unfold fix_gemini_json, balance.
  rewrite (close_unmatched_appends "[" "]").
  rewrite (close_unmatched_appends "{" "}") at 1.
  rewrite append_assoc.
  rewrite !close_unmatched_others by discriminate. reflexivity.
Qed.

Definition not_comma (c : ascii) : bool := negb (Ascii.eqb c ",").

Lemma filter_app p s t : filter p (s ++ t) = filter p s ++ filter p t.
Proof.
  induction s as [|c s IH]; simpl; [reflexivity|].
  destruct (p c); simpl; now rewrite IH.
Qed.

Lemma filter_length p s : String.length (filter p s) <= String.length s.
Proof.
  induction s as [|c s IH]; simpl; [lia|]. destruct (p c); simpl; lia.
Qed.

Lemma space_not_comma ws :
  forallb is_space ws = true -> forallb not_comma ws = true.
Proof.
  induction ws as [|c ws IH]; simpl; [reflexivity|].
  intros H. apply andb_prop in H as [Hc Hws]. rewrite (IH Hws), andb_true_r.
  unfold not_comma. destruct (Ascii.eqb_spec c ","%char) as [->|_];
    [discriminate Hc|reflexivity].
Qed.

(** A trailing-comma match is a comma followed by its group, and the group
    holds no comma. *)
Lemma match_trailing_comma_sound s g rest :
  match_trailing_comma s = Some (g, rest) ->
  s = String "," (g ++ rest) /\ forallb not_comma g = true.
Proof.
  unfold match_trailing_comma. destruct s as [|c s1]; [discriminate|].
  destruct (Ascii.eqb_spec c ","%char) as [->|Hc].
  2:{ intros H. exfalso.
      destruct c as [[] [] [] [] [] [] [] []]; try discriminate H.
      apply Hc; reflexivity. }
  destruct (span_sound is_space s1) as [Hs Hws].
  destruct (span is_space s1) as [ws b]; simpl in Hs, Hws.
  destruct b as [|c0 s2]; [discriminate|].
  destruct (Ascii.eqb c0 "]" || Ascii.eqb c0 "}")%bool eqn:E; [|discriminate].
  intros H. injection H as <- <-. split.
  - rewrite Hs, append_assoc. reflexivity.
  - rewrite forallb_app, (space_not_comma ws Hws). simpl.
    rewrite andb_true_r. unfold not_comma.
    destruct (Ascii.eqb_spec c0 ","%char) as [->|_]; [discriminate E|reflexivity].
Qed.

(** X4: the trailing-comma rule deletes commas and nothing else: with the
    commas left out, the text before and after the rule is the same, and
    the rule never makes the text longer. *)
Theorem sub_trailing_commas_removes_only_commas s :
  filter not_comma (sub_trailing_commas s) = filter not_comma s
  /\ String.length (sub_trailing_commas s) <= String.length s.
Proof.
  funelim (sub_trailing_commas s).
  - destruct (match_trailing_comma_sound _ _ _ Hm) as [-> Hg].
    destruct H as [IHf IHl]. split.
    + rewrite !filter_app, IHf. cbn [filter]. unfold not_comma at 3.
      rewrite Ascii.eqb_refl. cbn [negb]. rewrite filter_app. reflexivity.
    + rewrite !length_append in *. cbn [String.length].
      rewrite length_append. lia.
  - split; [reflexivity|simpl; lia].
  - destruct H as [IHf IHl]. split.
    + cbn [filter]. rewrite IHf. reflexivity.
    + simpl. lia.
Qed.

Lemma count_forallb_other p c s :
  forallb p s = true -> p c = false -> count c s = 0.
Proof.
  intros Hs Hc. induction s as [|d s IH]; simpl; [reflexivity|].
  simpl in Hs. apply andb_prop in Hs as [Hd Hs].
  destruct (Ascii.eqb_spec d c) as [->|_]; [congruence|]. now apply IH.
Qed.

(** A pair match is an opening parenthesis, digits, a comma, white space,
    digits and a closing parenthesis. *)
Lemma match_pair_sound s d1 d2 rest :
  match_pair s = Some (d1, d2, rest) ->
  exists ws,
    s = "(" ++ d1 ++ "," ++ ws ++ d2 ++ ")" ++ rest
    /\ forallb is_digit d1 = true /\ forallb is_digit d2 = true
    /\ forallb is_space ws = true.
Proof.
  unfold match_pair. destruct s as [|c s1]; [discriminate|].
  destruct (Ascii.eqb_spec c "("%char) as [->|Hc].
  2:{ intros H. exfalso.
      destruct c as [[] [] [] [] [] [] [] []]; try discriminate H.
      apply Hc; reflexivity. }
  destruct (span_sound is_digit s1) as [H1 D1].
  destruct (span is_digit s1) as [a b]; simpl in H1, D1.
  destruct a as [|a0 a]; [discriminate|].
  destruct b as [|b0 s2]; [discriminate|].
  destruct (Ascii.eqb_spec b0 ","%char) as [->|Hb].
  2:{ intros H. exfalso.
      destruct b0 as [[] [] [] [] [] [] [] []]; try discriminate H.
      apply Hb; reflexivity. }
  destruct (span_sound is_space s2) as [H2 W].
  destruct (span_sound is_digit (snd (span is_space s2))) as [H3 D2].
  destruct (span is_space s2) as [ws s3]; simpl in H2, W, H3, D2 |- *.
  destruct (span is_digit s3) as [e f]; simpl in H3, D2.
  destruct e as [|e0 e]; [discriminate|].
  destruct f as [|f0 s4]; [discriminate|].
  destruct (Ascii.eqb_spec f0 ")"%char) as [->|Hf].
  2:{ intros H. exfalso.
      destruct f0 as [[] [] [] [] [] [] [] []]; try discriminate H.
      apply Hf; reflexivity. }
  intros H. injection H as <- <- <-.
  exists ws. repeat split; try assumption.
  rewrite H1, H2, H3. reflexivity.
Qed.

(** X5: the pair rule trades each matched [(] and [)] for a [ [ ] and a
    [ ] ]: it adds as many opening as closing brackets and removes as many
    opening as closing parentheses, so it shifts neither balance. *)
Theorem sub_pairs_keeps_balance s :
  count "[" (sub_pairs s) + count "]" s = count "]" (sub_pairs s) + count "[" s
  /\ count "(" (sub_pairs s) + count ")" s = count ")" (sub_pairs s) + count "(" s.
Proof.
  funelim (sub_pairs s).
  - destruct (match_pair_sound _ _ _ _ Hm) as (ws & -> & D1 & D2 & W).
    destruct H as [IHb IHp].
    repeat (rewrite ?count_app; cbn [count append]).
    rewrite !(count_forallb_other is_digit _ d1 D1) by reflexivity.
    rewrite !(count_forallb_other is_digit _ d2 D2) by reflexivity.
    rewrite !(count_forallb_other is_space _ ws W) by reflexivity.
    simpl. split; lia.
  - split; reflexivity.
  - destruct H as [IHb IHp]. cbn [count]. split; lia.
Qed.

End SanitizerExtras.

(** ** StoryboardValidator: a second validation *)

Module ValidatorExtras.
Import Py Validator ValidatorFacts.

Lemma dict_set_twice {V} key (v : V) d :
  dict_set key v (dict_set key v d) = dict_set key v d.
Proof.
  induction d as [|[k w] d IH]; simpl.
  - now rewrite String.eqb_refl.
  - destruct (String.eqb k key) eqn:E; simpl; rewrite E; [reflexivity|].
    now rewrite IH.
Qed.

Lemma ensure_list_settled key d field :
  dict_get key d = Some (list_or_empty field) -> ensure_list key d = d.
Proof.
  unfold ensure_list. intros ->.
  destruct field as [[]|]; reflexivity.
Qed.

Lemma validate_scene_settled scene scene' :
  validate_scene scene = Ok scene' -> validate_scene scene' = Ok scene'.
Proof.
  destruct scene as [| | | | |d]; try discriminate.
  intros H. injection H as <-. cbn [validate_scene]. do 2 f_equal.
  set (d' := ensure_list "animations" (ensure_list "mobjects" d)).
  assert (Hm : ensure_list "mobjects" d' = d').
  { apply (ensure_list_settled _ _ (dict_get "mobjects" d)).
    unfold d'. rewrite ensure_list_other by discriminate.
    apply ensure_list_same. }
  rewrite Hm.
  apply (ensure_list_settled _ _ (dict_get "animations" (ensure_list "mobjects" d))).
  unfold d'. apply ensure_list_same.
Qed.

Lemma validate_scenes_settled scenes : forall scenes',
  validate_scenes scenes = Ok scenes' -> validate_scenes scenes' = Ok scenes'.
Proof.
  induction scenes as [|sc scenes IH]; intros scenes'; simpl.
  - intros H. now injection H as <-.
  - destruct (validate_scene sc) as [sc'|e] eqn:Hsc; cbn [bind]; [|discriminate].
    destruct (validate_scenes scenes) as [rest'|e] eqn:Hrest; cbn [bind];
      [|discriminate].
    intros H. injection H as <-. simpl.
    rewrite (validate_scene_settled _ _ Hsc). cbn [bind].
    rewrite (IH rest' eq_refl). reflexivity.
Qed.

Lemma validate_storyboard_settled storyboard validated :
  validate_storyboard storyboard = Ok validated ->
  validate_storyboard validated = Ok validated.
Proof.
  destruct storyboard as [| | | | |d]; try discriminate.
  cbn [validate_storyboard].
  destruct (dict_get "scenes" d) as [scenes|] eqn:Hget.
  2:{ intros H. injection H as <-. cbn [validate_storyboard].
      rewrite Hget. reflexivity. }
  destruct (iterate scenes) as [elements|e] eqn:Hit; cbn [bind]; [|discriminate].
  destruct (validate_scenes elements) as [elements'|e] eqn:Hval; cbn [bind];
    [|discriminate].
  destruct scenes as [| | |text|items|entries]; try discriminate Hit;
    intros H; injection H as <-; cbn [validate_storyboard].
  - rewrite Hget, Hit. cbn [bind]. rewrite Hval. reflexivity.
  - rewrite dict_get_set_same. cbn [iterate bind]. injection Hit as <-.
    rewrite (validate_scenes_settled _ _ Hval). cbn [bind].
    rewrite dict_set_twice. reflexivity.
  - rewrite Hget, Hit. cbn [bind]. rewrite Hval. reflexivity.
Qed.

(** X6: validating twice is validating once: a storyboard that validation
    returns is returned unchanged when it is validated again. *)
Theorem validate_storyboard_idempotent storyboard validated :
  validate_storyboard storyboard = Ok validated ->
  validate_storyboard validated = Ok validated.
Proof. apply validate_storyboard_settled. Qed.

Lemma validate_storyboard_idempotent_witness :
  validate_storyboard
    (VDict [("scenes", VList [VDict [("narration", VStr "n");
                                     ("mobjects", VList []);
                                     ("animations", VList [])]]);
            ("title", VStr "t")])
  = Ok (VDict [("scenes", VList [VDict [("narration", VStr "n");
                                        ("mobjects", VList []);
                                        ("animations", VList [])]]);
               ("title", VStr "t")]).
Proof.
  apply (validate_storyboard_idempotent
           (VDict [("scenes", VList [VDict [("narration", VStr "n");
                                            ("mobjects", VNone)]]);
                   ("title", VStr "t")])).
  reflexivity.
Defined.

End ValidatorExtras.

(** ** StoryboardCompiler: names, rows and references *)

Module CompilerExtras.
Import Py Compiler PyFacts CompilerFacts.

(** The names the constructor lines bind, and the names the other lines
    refer to, in the order of the lines. *)
Definition bound_names (ls : list line) : list value :=
  flat_map (fun l => match l with
                     | Construct name _ _ => [name]
                     | _ => []
                     end) ls.

Definition referenced (ls : list line) : list value :=
  flat_map (fun l => match l with
                     | Scale obj _ => [obj]
                     | ToEdgeUp obj => [obj]
                     | NextTo obj prev => [obj; prev]
                     | Play _ targets => targets
                     | _ => []
                     end) ls.

Definition keys {K V : Type} (d : list (K * V)) : list K := map fst d.

(** What an entry gives for its type and its keyword arguments, read as
    the empty string and as no arguments where it gives none. *)
Definition declared_type (mobj : value) : string :=
  match field "type" mobj with
  | Some (VStr kind) => kind
  | _ => ""
  end.

Definition declared_kwargs (mobj : value) : list (string * value) :=
  match field "kwargs" mobj with
  | Some (VDict kwargs) => kwargs
  | _ => []
  end.

(** The name line 148 gives the object number [mobj_idx] of scene [idx]. *)
Definition name_of (idx mobj_idx : nat) (mobj : value) : value :=
  dict_get_default "name" (declared_kwargs mobj)
    (VStr (synthesized_name (declared_type mobj) idx mobj_idx)).

Fixpoint names_from (idx mobj_idx : nat) (mobjs : list value) : list value :=
  match mobjs with
  | [] => []
  | mobj :: rest => name_of idx mobj_idx mobj :: names_from idx (S mobj_idx) rest
  end.

(** The objects laid out so far, row after row. *)
Definition laid_out (st : layout) : list value :=
  (concat (map r_objs (rows st)) ++ row_objs st)%list.

Lemma bound_names_app l1 l2 :
  bound_names (l1 ++ l2) = (bound_names l1 ++ bound_names l2)%list.
Proof. apply flat_map_app. Qed.

Lemma referenced_app l1 l2 :
  referenced (l1 ++ l2) = (referenced l1 ++ referenced l2)%list.
Proof. apply flat_map_app. Qed.

Lemma keys_map_set {V} key (v : V) m :
  incl (keys (map_set key v m)) (key :: keys m).
Proof.
  unfold keys. induction m as [|[k0 w] m IH]; simpl.
  - apply incl_refl.
  - destruct (key_eq k0 key); simpl.
    + apply incl_tl, incl_refl.
    + intros x [<-|Hx]; [right; now left|].
      destruct (IH x Hx) as [<-|Hin]; [now left|right; now right].
Qed.

Lemma scale_lines_names f objs :
  bound_names (map (fun obj => Scale obj f) objs) = []
  /\ referenced (map (fun obj => Scale obj f) objs) = objs.
Proof.
  induction objs as [|o objs [IH1 IH2]]; split; auto.
  simpl. f_equal. exact IH2.
Qed.

Lemma next_to_each_names prev objs :
  bound_names (next_to_each prev objs) = []
  /\ incl (referenced (next_to_each prev objs)) (prev :: objs).
Proof.
  revert prev. induction objs as [|o objs IH]; intros prev; simpl.
  - split; [reflexivity|apply incl_nil_l].
  - destruct (IH o) as [IH1 IH2]. split; [exact IH1|].
    intros x [<-|[<-|Hx]]; [right; now left|now left|].
    right. apply IH2, Hx.
Qed.

Lemma position_row_names objs :
  bound_names (position_row objs) = []
  /\ incl (referenced (position_row objs)) objs.
Proof.
  destruct objs as [|o objs]; simpl.
  - split; [reflexivity|apply incl_nil_l].
  - destruct (next_to_each_names o objs) as [H1 H2]. split; [exact H1|].
    intros x [<-|Hx]; [now left|]. apply H2, Hx.
Qed.

Lemma first_match_key target m name :
  first_match target m = Some name -> In name (keys m).
Proof.
  induction m as [|[n c] m IH]; simpl; [discriminate|].
  destruct (String.eqb c target || scalar_eq n (VStr target))%bool.
  - intros H. injection H as <-. now left.
  - intros H. right. now apply IH.
Qed.

Lemma all_matches_keys t m : incl (all_matches t m) (keys m).
Proof.
  induction m as [|[n c] m IH]; simpl; [apply incl_nil_l|].
  destruct (str_eq_value c t || scalar_eq n t)%bool.
  - intros x [<-|Hx]; [now left|right; now apply IH].
  - now apply incl_tl.
Qed.

Lemma play_animation_names m anim ls :
  play_animation m anim = Ok ls ->
  bound_names ls = [] /\ incl (referenced ls) (keys m).
Proof.
  unfold play_animation. intros H.
  apply bind_Ok in H as (anim_type & _ & H).
  apply bind_Ok in H as (target & _ & H). revert H.
  destruct (negb (truthy target));
    [intros [= <-]; split; [reflexivity|apply incl_nil_l]|].
  destruct target as [| | |s|items|];
    try (intros [= <-]; split; [reflexivity|apply incl_nil_l]).
  - destruct (first_match s m) as [matched|] eqn:E;
      [|intros [= <-]; split; [reflexivity|apply incl_nil_l]].
    destruct (truthy matched);
      intros [= <-]; (split; [reflexivity|]); [|apply incl_nil_l].
    simpl. intros x [<-|[]]. eapply first_match_key, E.
  - assert (Hin : incl (flat_map (fun t => all_matches t m) items) (keys m)).
    { intros x Hx. apply in_flat_map in Hx as (t & _ & Hx).
      eapply all_matches_keys, Hx. }
    destruct (flat_map (fun t => all_matches t m) items) as [|t0 ts];
      [intros [= <-]; split; [reflexivity|apply incl_nil_l]|].
    destruct (List.forallb is_str (t0 :: ts)); [|discriminate].
    intros [= <-]. split; [reflexivity|]. simpl. rewrite app_nil_r. exact Hin.
Qed.

Lemma play_animations_names m anims : forall ls,
  play_animations m anims = Ok ls ->
  bound_names ls = [] /\ incl (referenced ls) (keys m).
Proof.
  induction anims as [|anim anims IH]; simpl; intros ls H.
  - injection H as <-. split; [reflexivity|apply incl_nil_l].
  - apply bind_Ok in H as (l & Ha & H). apply bind_Ok in H as (ls' & Hr & H).
    injection H as <-.
    destruct (play_animation_names _ _ _ Ha) as [H1 H2].
    destruct (IH _ Hr) as [IH1 IH2].
    rewrite bound_names_app, referenced_app, H1, IH1.
    split; [reflexivity|]. now apply incl_app.
Qed.

(** The locals of lines 147 to 149, read off the entry. *)
Lemma mobject_locals_names idx mobj_idx mobj mobj_type mobj_name kwargs :
  mobject_locals idx mobj_idx mobj = Ok (mobj_type, mobj_name, kwargs) ->
  mobj_type = declared_type mobj
  /\ mobj_name = name_of idx mobj_idx mobj
  /\ kwargs = sanitize_mobject_kwargs (declared_kwargs mobj).
Proof.
  intros H. pose proof (mobject_locals_spec idx mobj_idx mobj) as Hs.
  rewrite H in Hs. destruct Hs as (given & Htype & Hgiven & -> & ->).
  unfold name_of, declared_type, declared_kwargs. rewrite Htype.
  destruct (field "kwargs" mobj) as [v|]; subst; repeat split.
Qed.

(** One turn of the object loop, seen through the names. *)
Lemma mobject_step_names idx mobj_idx mobj st ls st' :
  mobject_step idx mobj_idx mobj st = Ok (ls, st') ->
  bound_names ls = [name_of idx mobj_idx mobj]
  /\ incl (keys (mobjects_map st'))
       (name_of idx mobj_idx mobj :: keys (mobjects_map st))
  /\ laid_out st' = (laid_out st ++ [name_of idx mobj_idx mobj])%list
  /\ incl (referenced ls) (row_objs st ++ [name_of idx mobj_idx mobj])
  /\ incl (row_objs st') (row_objs st ++ [name_of idx mobj_idx mobj]).
Proof.
  unfold mobject_step. intros H.
  apply bind_Ok in H as ([[mobj_type mobj_name] kwargs] & Hl & H).
  destruct (mobject_locals_names _ _ _ _ _ _ Hl) as (_ & <- & _).
  apply bind_Ok in H as (addend & _ & H).
  assert (Hrec : forall m,
             record_mobject mobj_name mobj_type (mobjects_map st) = Ok m ->
             incl (keys m) (mobj_name :: keys (mobjects_map st))).
  { unfold record_mobject. intros m. destruct (hashable mobj_name);
      [|discriminate]. intros [= <-]. apply keys_map_set. }
  revert H. match goal with |- context [if ?c then _ else _] => destruct c end;
    intros H.
  - apply bind_Ok in H as (quotient & _ & H).
    apply bind_Ok in H as (m & Hm & H). injection H as <- <-.
    cbn [mobjects_map row_objs rows]. unfold laid_out; cbn [rows row_objs].
    split; [|split; [|split; [|split]]].
    + cbn [bound_names flat_map app].
      change (flat_map _ ?l) with (bound_names l).
      rewrite bound_names_app, (proj1 (scale_lines_names _ _)),
        (proj1 (position_row_names _)). reflexivity.
    + now apply Hrec.
    + rewrite map_app, concat_app. simpl. rewrite !app_nil_r, app_assoc.
      reflexivity.
    + cbn [referenced flat_map app].
      change (flat_map _ ?l) with (referenced l).
      rewrite referenced_app, (proj2 (scale_lines_names _ _)).
      apply incl_app; [apply incl_refl|apply position_row_names].
    + apply incl_nil_l.
  - apply bind_Ok in H as (m & Hm & H). injection H as <- <-.
    cbn [mobjects_map row_objs rows]. unfold laid_out; cbn [rows row_objs].
    split; [reflexivity|]. split; [now apply Hrec|].
    split; [now rewrite app_assoc|].
    split; [apply incl_nil_l|apply incl_refl].
Qed.

Lemma mobject_loop_names idx mobjs : forall mobj_idx st ls st',
  mobject_loop idx mobj_idx mobjs st = Ok (ls, st') ->
  bound_names ls = names_from idx mobj_idx mobjs
  /\ incl (keys (mobjects_map st'))
       (keys (mobjects_map st) ++ names_from idx mobj_idx mobjs)
  /\ laid_out st' = (laid_out st ++ names_from idx mobj_idx mobjs)%list
  /\ incl (referenced ls) (row_objs st ++ names_from idx mobj_idx mobjs)
  /\ incl (row_objs st') (row_objs st ++ names_from idx mobj_idx mobjs).
Proof.
  induction mobjs as [|mobj mobjs IH]; intros mobj_idx st ls st'; simpl.
  - intros H. injection H as <- <-. rewrite !app_nil_r.
    split; [reflexivity|]. split; [apply incl_refl|].
    split; [reflexivity|]. split; [apply incl_nil_l|apply incl_refl].
  - intros H. apply bind_Ok in H as ([ls1 st1] & Hstep & H).
    apply bind_Ok in H as ([ls2 st2] & Hloop & H). injection H as <- <-.
    destruct (mobject_step_names _ _ _ _ _ _ Hstep)
      as (Hb1 & Hk1 & Hl1 & Hr1 & Ho1).
    destruct (IH _ _ _ _ Hloop) as (Hb2 & Hk2 & Hl2 & Hr2 & Ho2).
    set (name := name_of idx mobj_idx mobj) in *.
    set (names := names_from idx (S mobj_idx) mobjs) in *.
    assert (Hwiden : incl ((row_objs st ++ [name]) ++ names)
                       (row_objs st ++ name :: names)).
    { rewrite <- app_assoc. apply incl_refl. }
    split; [|split; [|split; [|split]]].
    + rewrite bound_names_app, Hb1, Hb2. reflexivity.
    + intros k Hk. apply Hk2 in Hk. apply in_app_or in Hk as [Hk|Hk].
      * apply Hk1 in Hk as [<-|Hk]; apply in_or_app;
          [right; now left|now left].
      * apply in_or_app. right. now right.
    + rewrite Hl2, Hl1, <- app_assoc. reflexivity.
    + rewrite referenced_app. apply incl_app.
      * intros x Hx. apply Hr1 in Hx. apply Hwiden, in_or_app. now left.
      * intros x Hx. apply Hr2 in Hx. apply Hwiden.
        apply in_app_or in Hx as [Hx|Hx]; apply in_or_app;
          [left; now apply Ho1|now right].
    + intros x Hx. apply Ho2 in Hx. apply Hwiden.
      apply in_app_or in Hx as [Hx|Hx]; apply in_or_app;
        [left; now apply Ho1|now right].
Qed.

Lemma laid_out_final st :
  concat (map r_objs (final_rows st)) = laid_out st.
Proof.
  unfold final_rows, laid_out. destruct (row_objs st) as [|o objs].
  - now rewrite app_nil_r.
  - rewrite map_app, concat_app. simpl. now rewrite app_nil_r.
Qed.

(** The lines of a scene, seen through the names. *)
Lemma scene_layout_names idx scene ls rs :
  scene_layout idx scene = Ok (ls, rs) ->
  bound_names ls = names_from idx 1 (mobjects_of scene)
  /\ concat (map r_objs rs) = names_from idx 1 (mobjects_of scene)
  /\ incl (referenced ls) (names_from idx 1 (mobjects_of scene)).
Proof.
  unfold scene_layout. intros H.
  apply bind_Ok in H as (narration & _ & H).
  apply bind_Ok in H as (narration50 & _ & H).
  apply bind_Ok in H as (mobjects & Hget & H).
  apply bind_Ok in H as (mobjs & Hiter & H).
  assert (Hm : mobjects_of scene = mobjs).
  { apply get_elements. rewrite Hget. exact Hiter. }
  rewrite Hm.
  apply bind_Ok in H as ([ls1 st] & Hloop & H).
  apply bind_Ok in H as (animations & _ & H).
  apply bind_Ok in H as (anims & _ & H).
  apply bind_Ok in H as (plays & Hplays & H).
  injection H as <- <-.
  destruct (mobject_loop_names _ _ _ _ _ _ Hloop) as (Hb & Hk & Hl & Hr & Ho).
  destruct (play_animations_names _ _ _ Hplays) as (Hpb & Hpr).
  cbn [layout_start mobjects_map row_objs keys map app] in Hk, Hr, Ho.
  split; [|split].
  - cbn [bound_names flat_map app].
    change (flat_map _ ?l) with (bound_names l).
    rewrite !bound_names_app, Hb, (proj1 (position_row_names _)), Hpb.
    simpl. now rewrite app_nil_r.
  - rewrite laid_out_final, Hl. reflexivity.
  - cbn [referenced flat_map app].
    change (flat_map _ ?l) with (referenced l).
    rewrite !referenced_app. simpl. rewrite app_nil_r.
    apply incl_app; [exact Hr|]. apply incl_app.
    + eapply incl_tran; [apply position_row_names|exact Ho].
    + eapply incl_tran; [exact Hpr|exact Hk].
Qed.

Lemma names_from_length idx mobjs : forall i,
  length (names_from idx i mobjs) = length mobjs.
Proof. induction mobjs as [|m mobjs IH]; intros i; simpl; [|rewrite IH]; reflexivity. Qed.

(** X7: in a compiled scene the rows, read one after the other, are the
    constructed objects in declaration order: every object is in exactly one
    row, and there is one constructor line for each declared object. *)
Theorem rows_partition_objects idx scene ls rs :
  scene_layout idx scene = Ok (ls, rs) ->
  concat (map r_objs rs) = bound_names ls
  /\ bound_names ls = names_from idx 1 (mobjects_of scene)
  /\ length (bound_names ls) = length (mobjects_of scene).
Proof.
  intros H. destruct (scene_layout_names _ _ _ _ H) as (Hb & Hc & _).
  split; [congruence|]. split; [exact Hb|].
  rewrite Hb. apply names_from_length.
Qed.

(** An object named [a] of radius 20, and two objects without a name. *)
Definition named_then_plain : value :=
  VDict (scene_of
           [VDict [("type", VStr "Circle");
                   ("kwargs", VDict [("name", VStr "a");
                                     ("radius", VNum (Int 20))])];
            plain "Circle"; plain "Square"] []).

Lemma rows_partition_objects_witness :
  match scene_layout 1 named_then_plain with
  | Ok (ls, rs) =>
      map r_objs rs = [[VStr "a"]; [VStr "circle1_2"; VStr "square1_3"]]
      /\ concat (map r_objs rs) = bound_names ls
      /\ bound_names ls = names_from 1 1 (mobjects_of named_then_plain)
      /\ length (bound_names ls) = length (mobjects_of named_then_plain)
  | Raise _ => False
  end.
Proof.
  pose proof (rows_partition_objects 1 named_then_plain) as H.
  destruct (scene_layout 1 named_then_plain) as [[ls rs]|e] eqn:E;
    [|discriminate E].
  split; [|exact (H ls rs eq_refl)].
  injection E as _ <-. reflexivity.
Defined.

(** X8: every name a line of a compiled scene refers to (in a scale, a
    placement or a play) is bound by a constructor line of that scene. *)
Theorem references_are_bound idx scene ls :
  scene_lines idx scene = Ok ls ->
  incl (referenced ls) (bound_names ls).
Proof.
  unfold scene_lines. intros H.
  apply bind_Ok in H as ([ls1 rs] & Hl & H). injection H as <-.
  destruct (scene_layout_names _ _ _ _ Hl) as (Hb & _ & Hr).
  rewrite Hb. exact Hr.
Qed.

Lemma references_are_bound_witness :
  incl (referenced
          [SceneComment 1 (VStr "x");
           Construct (VStr "circle1_1") "Circle" [];
           Construct (VStr "circle1_2") "Circle" [];
           ToEdgeUp (VStr "circle1_1");
           NextTo (VStr "circle1_2") (VStr "circle1_1");
           Play (VStr "FadeIn") [VStr "circle1_1"; VStr "circle1_2"];
           Wait])
       (bound_names
          [SceneComment 1 (VStr "x");
           Construct (VStr "circle1_1") "Circle" [];
           Construct (VStr "circle1_2") "Circle" [];
           ToEdgeUp (VStr "circle1_1");
           NextTo (VStr "circle1_2") (VStr "circle1_1");
           Play (VStr "FadeIn") [VStr "circle1_1"; VStr "circle1_2"];
           Wait]).
Proof.
  apply (references_are_bound 1
           (VDict (scene_of [plain "Circle"; plain "Circle"]
                     [fade_in (VList [VStr "Circle"])]))).
  reflexivity.
Defined.

(** *** Synthesized names *)

Lemma string_of_uint_no_underscore d :
  PyStr.count "_" (NilEmpty.string_of_uint d) = 0.
Proof. induction d; simpl; auto. Qed.

Lemma str_nat_no_underscore n : PyStr.count "_" (str_nat n) = 0.
Proof. apply string_of_uint_no_underscore. Qed.

Lemma str_nat_inj n m : str_nat n = str_nat m -> n = m.
Proof.
  unfold str_nat. intros H. apply DecimalNat.Unsigned.to_uint_inj.
  assert (E : Some (Nat.to_uint n) = Some (Nat.to_uint m)).
  { rewrite <- !NilEmpty.usu. now rewrite H. }
  now injection E.
Qed.

(** Two texts that end in an underscore followed by digits and are equal
    have the same digits. *)
Lemma underscore_suffix a : forall b d1 d2,
  PyStr.count "_" d1 = 0 -> PyStr.count "_" d2 = 0 ->
  (a ++ String "_" d1 = b ++ String "_" d2)%string -> d1 = d2.
Proof.
  induction a as [|c a IH]; intros b d1 d2 H1 H2; destruct b as [|c' b]; simpl.
  - intros E. now injection E.
  - intros E. injection E as _ E. exfalso. rewrite E in H1.
    rewrite SanitizerFacts.count_app in H1. simpl in H1. lia.
  - intros E. injection E as _ E. exfalso. rewrite <- E in H2.
    rewrite SanitizerFacts.count_app in H2. simpl in H2. lia.
  - intros E. injection E as _ E. eapply IH; eassumption.
Qed.

Lemma synthesized_name_inj t1 t2 idx i1 i2 :
  synthesized_name t1 idx i1 = synthesized_name t2 idx i2 -> i1 = i2.
Proof.
  unfold synthesized_name. intros E. apply str_nat_inj.
  rewrite <- !SanitizerExtras.append_assoc in E.
  change ("_" ++ ?d)%string with (String "_" d) in E.
  rewrite !SanitizerExtras.append_assoc in E.
  rewrite <- (SanitizerExtras.append_assoc (lower t1)) in E.
  rewrite <- (SanitizerExtras.append_assoc (lower t2)) in E.
  eapply underscore_suffix; [| |exact E]; apply str_nat_no_underscore.
Qed.

(** The entry gives no name of its own. *)
Definition unnamed (mobj : value) : Prop :=
  dict_get "name" (declared_kwargs mobj) = None.

Lemma name_of_unnamed idx mobj_idx mobj :
  unnamed mobj ->
  name_of idx mobj_idx mobj
  = VStr (synthesized_name (declared_type mobj) idx mobj_idx).
Proof. unfold unnamed, name_of, dict_get_default. now intros ->. Qed.

Lemma names_from_unnamed idx mobjs : forall i x,
  Forall unnamed mobjs ->
  In x (names_from idx i mobjs) ->
  exists t j, i <= j /\ x = VStr (synthesized_name t idx j).
Proof.
  induction mobjs as [|m mobjs IH]; intros i x Hall; simpl; [intros []|].
  inversion Hall as [|? ? Hm Hrest]; subst.
  intros [<-|Hx].
  - exists (declared_type m), i. split; [lia|]. now apply name_of_unnamed.
  - destruct (IH (S i) x Hrest Hx) as (t & j & Hj & ->).
    exists t, j. split; [lia|reflexivity].
Qed.

Lemma names_from_NoDup idx mobjs : forall i,
  Forall unnamed mobjs ->
  NoDup (names_from idx i mobjs).
Proof.
  induction mobjs as [|m mobjs IH]; intros i Hall; simpl; [constructor|].
  inversion Hall as [|? ? Hm Hrest]; subst.
  constructor; [|now apply IH].
  intros Hin. destruct (names_from_unnamed _ _ _ _ Hrest Hin) as (t & j & Hj & E).
  rewrite (name_of_unnamed _ _ _ Hm) in E. injection E as E.
  apply synthesized_name_inj in E. lia.
Qed.

(** X9: in a scene whose objects carry no name of their own, the
    synthesized names are pairwise distinct, whatever the kinds are. *)
Theorem synthesized_names_are_distinct idx scene ls :
  Forall unnamed (mobjects_of scene) ->
  scene_lines idx scene = Ok ls ->
  NoDup (bound_names ls).
Proof.
  intros Hall. unfold scene_lines. intros H.
  apply bind_Ok in H as ([ls1 rs] & Hl & H). injection H as <-.
  destruct (scene_layout_names _ _ _ _ Hl) as (Hb & _ & _).
  rewrite Hb. now apply names_from_NoDup.
Qed.

Lemma synthesized_names_are_distinct_witness :
  NoDup (bound_names
           [SceneComment 11 (VStr "x");
            Construct (VStr "a11_1") "A" [];
            Construct (VStr "a111_2") "A1" [];
            ToEdgeUp (VStr "a11_1"); NextTo (VStr "a111_2") (VStr "a11_1");
            Wait]).
Proof.
  apply (synthesized_names_are_distinct 11
           (VDict (scene_of [plain "A"; plain "A1"] []))).
  - repeat constructor.
  - reflexivity.
Defined.

(** *** Targets *)

Lemma scalar_eq_str n target :
  scalar_eq n (VStr target) = true <-> n = VStr target.
Proof.
  destruct n as [| b | n | s | items | entries]; simpl;
    try (split; [discriminate|discriminate]).
  split; [intros H; apply String.eqb_eq in H; now subst|].
  intros [= ->]. apply String.eqb_refl.
Qed.

Lemma first_match_none target m :
  (forall n c, In (n, c) m -> c <> target /\ n <> VStr target) ->
  first_match target m = None.
Proof.
  induction m as [|[n c] m IH]; simpl; [reflexivity|].
  intros H. destruct (H n c (or_introl eq_refl)) as [Hc Hn].
  destruct (String.eqb_spec c target); [contradiction|].
  destruct (scalar_eq n (VStr target)) eqn:E;
    [apply scalar_eq_str in E; contradiction|].
  simpl. apply IH. intros n' c' Hin. apply H. now right.
Qed.

Lemma first_match_first target pre name cls post :
  (forall n c, In (n, c) pre -> c <> target /\ n <> VStr target) ->
  cls = target \/ name = VStr target ->
  first_match target (pre ++ (name, cls) :: post) = Some name.
Proof.
  intros Hpre Hhit. induction pre as [|[n c] pre IH]; simpl.
  - destruct Hhit as [->| ->].
    + now rewrite String.eqb_refl.
    + rewrite (proj2 (scalar_eq_str _ _) eq_refl). now rewrite orb_true_r.
  - destruct (Hpre n c (or_introl eq_refl)) as [Hc Hn].
    destruct (String.eqb_spec c target); [contradiction|].
    destruct (scalar_eq n (VStr target)) eqn:E;
      [apply scalar_eq_str in E; contradiction|].
    simpl. apply IH. intros n' c' Hin. apply Hpre. now right.
Qed.

(** X10: an operation whose target is a string that is neither the kind nor
    the name of any object of the scene adds no line. *)
Theorem unmatched_string_target_is_dropped m anim target :
  dict_get "target" anim = Some (VStr target) ->
  (forall n c, In (n, c) m -> c <> target /\ n <> VStr target) ->
  play_animation m (VDict anim) = Ok [].
Proof.
  intros Hget H. unfold play_animation. cbn [get bind].
  assert (Htarget : dict_get_default "target" anim VNone = VStr target).
  { unfold dict_get_default. now rewrite Hget. }
  rewrite Htarget.
  destruct (negb (truthy (VStr target))); [reflexivity|].
  now rewrite (first_match_none _ _ H).
Qed.

Lemma unmatched_string_target_is_dropped_witness :
  play_animation [(VStr "circle1_1", "Circle")]
    (VDict [("type", VStr "FadeIn"); ("target", VStr "Square")])
  = Ok [].
Proof.
  apply (unmatched_string_target_is_dropped [(VStr "circle1_1", "Circle")]
           [("type", VStr "FadeIn"); ("target", VStr "Square")] "Square").
  - reflexivity.
  - intros n c [E|[]]. injection E as <- <-. split; discriminate.
Defined.

(** The names and types of the declared objects, in declaration order. *)
Fixpoint declared (idx mobj_idx : nat) (mobjs : list value)
  : list (value * string) :=
  match mobjs with
  | [] => []
  | mobj :: rest =>
      (name_of idx mobj_idx mobj, declared_type mobj)
      :: declared idx (S mobj_idx) rest
  end.

(** No two of the values are one key of a [dict]. *)
Fixpoint distinct_keys (l : list value) : bool :=
  match l with
  | [] => true
  | k :: rest =>
      List.forallb (fun k' => negb (key_eq k k')) rest && distinct_keys rest
  end.

Lemma map_set_new {V} key (v : V) m :
  List.forallb (fun k => negb (key_eq k key)) (keys m) = true ->
  map_set key v m = (m ++ [(key, v)])%list.
Proof.
  induction m as [|[k w] m IH]; simpl; [reflexivity|].
  intros H. apply andb_prop in H as [Hk Hrest].
  destruct (key_eq k key); [discriminate|]. now rewrite IH.
Qed.

Lemma distinct_keys_snoc l x :
  distinct_keys (l ++ [x]) = true ->
  List.forallb (fun k => negb (key_eq k x)) l = true /\ distinct_keys l = true.
Proof.
  induction l as [|k l IH]; simpl; [auto|].
  intros H. apply andb_prop in H as [Hk Hrest].
  rewrite forallb_app in Hk. apply andb_prop in Hk as [Hl Hx].
  simpl in Hx. destruct (IH Hrest) as [IH1 IH2].
  rewrite Hl, IH1, IH2. destruct (key_eq k x); [discriminate|]. auto.
Qed.

Lemma distinct_keys_app l1 l2 x :
  distinct_keys (l1 ++ x :: l2) = true ->
  distinct_keys ((l1 ++ [x]) ++ l2) = true.
Proof. now rewrite <- app_assoc. Qed.

Lemma distinct_keys_prefix l1 l2 :
  distinct_keys (l1 ++ l2) = true -> distinct_keys l1 = true.
Proof.
  induction l1 as [|k l1 IH]; simpl; [reflexivity|].
  intros H. apply andb_prop in H as [Hk Hrest].
  rewrite forallb_app in Hk. apply andb_prop in Hk as [Hl _].
  now rewrite Hl, IH.
Qed.

Lemma keys_declared idx mobjs : forall i,
  keys (declared idx i mobjs) = names_from idx i mobjs.
Proof.
  induction mobjs as [|m mobjs IH]; intros i; simpl; [|rewrite IH]; reflexivity.
Qed.

Lemma mobject_step_map idx mobj_idx mobj st ls st' :
  mobject_step idx mobj_idx mobj st = Ok (ls, st') ->
  mobjects_map st'
  = map_set (name_of idx mobj_idx mobj) (declared_type mobj) (mobjects_map st).
Proof.
  unfold mobject_step. intros H.
  apply bind_Ok in H as ([[mobj_type mobj_name] kwargs] & Hl & H).
  destruct (mobject_locals_names _ _ _ _ _ _ Hl) as (<- & <- & _).
  apply bind_Ok in H as (addend & _ & H).
  assert (Hrec : forall m,
             record_mobject mobj_name mobj_type (mobjects_map st) = Ok m ->
             m = map_set mobj_name mobj_type (mobjects_map st)).
  { unfold record_mobject. intros m. destruct (hashable mobj_name);
      [|discriminate]. now intros [= <-]. }
  revert H. match goal with |- context [if ?c then _ else _] => destruct c end;
    intros H.
  - apply bind_Ok in H as (quotient & _ & H).
    apply bind_Ok in H as (m & Hm & H). injection H as <- <-.
    now apply Hrec.
  - apply bind_Ok in H as (m & Hm & H). injection H as <- <-.
    now apply Hrec.
Qed.

(** When no two names are one key, the map holds the declared objects in
    declaration order. *)
Lemma mobject_loop_map idx mobjs : forall mobj_idx st ls st',
  mobject_loop idx mobj_idx mobjs st = Ok (ls, st') ->
  distinct_keys (keys (mobjects_map st) ++ names_from idx mobj_idx mobjs) = true ->
  mobjects_map st' = (mobjects_map st ++ declared idx mobj_idx mobjs)%list.
Proof.
  induction mobjs as [|mobj mobjs IH]; intros mobj_idx st ls st'; simpl.
  - intros H _. injection H as _ <-. now rewrite app_nil_r.
  - intros H Hd. apply bind_Ok in H as ([ls1 st1] & Hstep & H).
    apply bind_Ok in H as ([ls2 st2] & Hloop & H). injection H as _ <-.
    apply distinct_keys_app in Hd.
    pose proof (distinct_keys_prefix _ _ Hd) as Hd1.
    apply distinct_keys_snoc in Hd1 as [Hnew _].
    pose proof (mobject_step_map _ _ _ _ _ _ Hstep) as Hm1.
    rewrite (map_set_new _ _ _ Hnew) in Hm1.
    rewrite (IH _ _ _ _ Hloop), Hm1, <- app_assoc; [reflexivity|].
    rewrite Hm1. unfold keys in *. rewrite map_app. exact Hd.
Qed.

(** X11: in a scene no two of whose names are one key (none given twice),
    the map holds the declared objects in declaration order, and a string
    target is resolved to the first of them whose kind or name it is: one
    play line on that object's name is added, whatever comes after it. *)
Theorem string_target_takes_first_match idx mobjs ls st pre name cls post
  anim kind target :
  mobject_loop idx 1 mobjs layout_start = Ok (ls, st) ->
  distinct_keys (names_from idx 1 mobjs) = true ->
  declared idx 1 mobjs = (pre ++ (name, cls) :: post)%list ->
  (forall n c, In (n, c) pre -> c <> target /\ n <> VStr target) ->
  cls = target \/ name = VStr target ->
  target <> "" -> truthy name = true ->
  dict_get_default "type" anim VNone = kind ->
  dict_get "target" anim = Some (VStr target) ->
  mobjects_map st = declared idx 1 mobjs
  /\ play_animation (mobjects_map st) (VDict anim) = Ok [Play kind [name]].
Proof.
  intros Hloop Hd Hdecl Hpre Hhit Htarget Hname Hkind Hget.
  assert (Hm : mobjects_map st = declared idx 1 mobjs).
  { apply (mobject_loop_map _ _ _ _ _ _ Hloop). exact Hd. }
  split; [exact Hm|].
  assert (Htarget' : dict_get_default "target" anim VNone = VStr target).
  { unfold dict_get_default. now rewrite Hget. }
  rewrite Hm, Hdecl. unfold play_animation. cbn [get bind].
  rewrite Hkind, Htarget'.
  cbn [truthy]. destruct (String.eqb_spec target ""); [contradiction|].
  cbn [negb]. rewrite (first_match_first _ _ _ _ _ Hpre Hhit).
  now rewrite Hname.
Qed.

(** A square, a circle named [c] and a circle without a name. *)
Definition square_and_circles : list value :=
  [plain "Square";
   VDict [("type", VStr "Circle"); ("kwargs", VDict [("name", VStr "c")])];
   plain "Circle"].

Lemma string_target_takes_first_match_witness :
  match mobject_loop 1 1 square_and_circles layout_start with
  | Ok (_, st) =>
      mobjects_map st = declared 1 1 square_and_circles
      /\ play_animation (mobjects_map st) (fade_in (VStr "Circle"))
         = Ok [Play (VStr "FadeIn") [VStr "c"]]
  | Raise _ => False
  end.
Proof.
  destruct (mobject_loop 1 1 square_and_circles layout_start) as [[ls st]|e]
    eqn:E; [|vm_compute in E; discriminate E].
  apply (string_target_takes_first_match 1 square_and_circles ls st
           [(VStr "square1_1", "Square")] (VStr "c") "Circle"
           [(VStr "circle1_3", "Circle")]
           [("type", VStr "FadeIn"); ("target", VStr "Circle")]
           (VStr "FadeIn") "Circle").
  - exact E.
  - reflexivity.
  - reflexivity.
  - intros n c [H|[]]. injection H as <- <-. split; discriminate.
  - now left.
  - discriminate.
  - reflexivity.
  - reflexivity.
  - reflexivity.
Defined.

(** *** Keyword arguments *)

(** X12: filtering the keyword arguments keeps every entry under an allowed
    key as it is and drops every other entry; filtering again changes
    nothing. *)
Theorem sanitize_mobject_kwargs_lookup kwargs :
  (forall k, dict_get k (sanitize_mobject_kwargs kwargs)
             = if is_allowed_key k then dict_get k kwargs else None)
  /\ sanitize_mobject_kwargs (sanitize_mobject_kwargs kwargs)
     = sanitize_mobject_kwargs kwargs.
Proof.
  split.
  - intros k. apply dict_get_sanitized.
  - apply sanitize_mobject_kwargs_twice.
Qed.

(** *** The frame of the text *)

Section Frame.
Variable repr : value -> string.
Variable str_float : spec_float -> string.

(** The lines of a text, each after a line feed. *)
Fixpoint fed (ls : list line) : string :=
  match ls with
  | [] => ""
  | l :: rest => newline ++ line_text repr str_float l ++ fed rest
  end.

(** Texts put end to end. *)
Fixpoint joined (blocks : list string) : string :=
  match blocks with
  | [] => ""
  | block :: rest => block ++ joined rest
  end.

Lemma append_empty (s : string) : s ++ "" = s.
Proof. induction s as [|c s IH]; simpl; [|rewrite IH]; reflexivity. Qed.

Lemma concat_fed ls : forall l,
  String.concat newline (map (line_text repr str_float) (l :: ls))
  = line_text repr str_float l ++ fed ls.
Proof.
  induction ls as [|l' ls IH]; intros l.
  - cbn [map String.concat fed]. now rewrite append_empty.
  - change (String.concat newline (map (line_text repr str_float) (l :: l' :: ls)))
      with (line_text repr str_float l ++ newline
            ++ String.concat newline
                 (map (line_text repr str_float) (l' :: ls))).
    rewrite IH. reflexivity.
Qed.

Lemma fed_app l1 l2 : fed (l1 ++ l2) = fed l1 ++ fed l2.
Proof.
  induction l1 as [|l l1 IH]; cbn [app fed]; [reflexivity|].
  now rewrite IH, !SanitizerExtras.append_assoc.
Qed.

(** The text of a scene: a line feed, the numbered comment with the first
    50 characters of the narration, what the scene appends, and the wait
    line with its own line feed. *)
Definition frames (idx : nat) (scene : value) (block : string) : Prop :=
  exists narration50 inner,
    bind (subscript scene "narration") slice_50 = Ok narration50
    /\ block
       = newline ++ "        # Scene " ++ str_nat idx ++ ": "
         ++ str_value repr str_float narration50 ++ "..."
         ++ inner ++ newline ++ "        self.wait(1)" ++ newline.

Fixpoint framed (idx : nat) (scenes : list value) (blocks : list string)
  : Prop :=
  match scenes, blocks with
  | [], [] => True
  | scene :: scenes', block :: blocks' =>
      frames idx scene block /\ framed (S idx) scenes' blocks'
  | _, _ => False
  end.

Lemma scene_lines_frame idx scene ls :
  scene_lines idx scene = Ok ls -> frames idx scene (fed ls).
Proof.
  unfold scene_lines, scene_layout. intros H.
  apply bind_Ok in H as ([ls0 rs] & H0 & H). injection H as <-.
  apply bind_Ok in H0 as (narration & Hn & H0).
  apply bind_Ok in H0 as (narration50 & Hs & H0).
  apply bind_Ok in H0 as (mobjects & _ & H0).
  apply bind_Ok in H0 as (mobjs & _ & H0).
  apply bind_Ok in H0 as ([ls1 st] & _ & H0).
  apply bind_Ok in H0 as (animations & _ & H0).
  apply bind_Ok in H0 as (anims & _ & H0).
  apply bind_Ok in H0 as (plays & _ & H0).
  injection H0 as <- _.
  exists narration50, (fed (ls1 ++ position_row (row_objs st) ++ plays)).
  split; [rewrite Hn; exact Hs|].
  rewrite !app_assoc. cbn [fed]. rewrite fed_app. cbn [fed line_text].
  rewrite !SanitizerExtras.append_assoc. rewrite append_empty.
  rewrite <- !app_assoc. reflexivity.
Qed.

Lemma scenes_lines_frame scenes : forall idx ls,
  scenes_lines idx scenes = Ok ls ->
  exists blocks, fed ls = joined blocks /\ framed idx scenes blocks.
Proof.
  induction scenes as [|scene scenes IH]; intros idx ls; cbn [scenes_lines].
  - intros [= <-]. exists []. split; reflexivity.
  - intros H. apply bind_Ok in H as (ls1 & Hs & H).
    apply bind_Ok in H as (ls' & Hrest & H). injection H as <-.
    destruct (IH _ _ Hrest) as (blocks & Hfed & Hframed).
    exists (fed ls1 :: blocks). split.
    + rewrite fed_app, Hfed. reflexivity.
    + split; [now apply scene_lines_frame|exact Hframed].
Qed.

(** X13: a compiled text is the header (the import, an empty line, the
    class line with the title without its spaces, the construct line)
    followed by one block for each scene, in order: the block of scene
    number [i], counted from 1, starts with a line feed and the comment
    that carries [i] and the first 50 characters of the narration, and ends
    with the wait line. *)
Theorem text_frames_every_scene storyboard text :
  storyboard_to_manim_code repr str_float storyboard = Ok text ->
  exists title blocks,
    field "title" storyboard = Some (VStr title)
    /\ text
       = "from manim import *" ++ newline ++ newline
         ++ "class " ++ remove_spaces title ++ "(ThreeDScene):" ++ newline
         ++ "    def construct(self):" ++ joined blocks
    /\ framed 1 (scenes_of storyboard) blocks.
Proof.
  unfold storyboard_to_manim_code, storyboard_lines. intros H.
  apply bind_Ok in H as (ls & H0 & H). injection H as <-.
  apply bind_Ok in H0 as (title_value & Ht & H0).
  apply bind_Ok in H0 as (class_name & Hc & H0).
  apply bind_Ok in H0 as (scenes & Hsc & H0).
  apply bind_Ok in H0 as (elements & Hit & H0).
  apply bind_Ok in H0 as (ls' & Hls & H0). injection H0 as <-.
  destruct title_value as [| | |title| |]; try discriminate Hc.
  injection Hc as <-.
  assert (Hscenes : scenes_of storyboard = elements).
  { apply subscript_elements. rewrite Hsc. exact Hit. }
  destruct (scenes_lines_frame _ _ _ Hls) as (blocks & Hfed & Hframed).
  exists title, blocks. split; [|split].
  - destruct storyboard as [| | | | |d]; try discriminate Ht.
    cbn [subscript] in Ht. cbn [field].
    destruct (dict_get "title" d); [now injection Ht as ->|discriminate Ht].
  - cbn [app]. rewrite concat_fed. cbn [fed line_text].
    rewrite Hfed, !SanitizerExtras.append_assoc. reflexivity.
  - rewrite Hscenes. exact Hframed.
Qed.

End Frame.

Lemma text_frames_every_scene_witness :
  exists title blocks,
    field "title" demo_storyboard = Some (VStr title)
    /\ demo_text
       = "from manim import *" ++ newline ++ newline
         ++ "class " ++ remove_spaces title ++ "(ThreeDScene):" ++ newline
         ++ "    def construct(self):"
         ++ joined blocks
    /\ framed (fun _ => "") (fun _ => "") 1 (scenes_of demo_storyboard) blocks.
Proof.
  apply (text_frames_every_scene (fun _ => "") (fun _ => "") demo_storyboard).
  reflexivity.
Defined.

End CompilerExtras.

(** ** RepairLoop: what a session's end tells *)

Module RepairExtras.
Import Py Repair RepairFacts.

Section Session.
Variables Code World : Type.
Variable generate_content :
  string -> Code -> list string -> World -> string * World.
Variable json_code : string -> result Code.
Variable exec : Code -> World -> option string * World.

Lemma debug_loop_returned_code_ran topic max_retries attempt0 code hist runs w c :
  outcome (debug_loop Code World generate_content json_code exec
             topic max_retries attempt0 code hist runs w) = Ok c ->
  exists w1,
    exec c w1
    = (None, world (debug_loop Code World generate_content json_code exec
                      topic max_retries attempt0 code hist runs w)).
Proof.
  funelim (debug_loop Code World generate_content json_code exec
             topic max_retries attempt0 code hist runs w); simpl.
  - discriminate.
  - discriminate.
  - apply H.
  - intros E. injection E as <-. exists w1. assumption.
Qed.

Lemma debug_loop_gives_up_late topic max_retries attempt0 code hist runs w :
  (forall text, json_code text <> Raise RuntimeError) ->
  outcome (debug_loop Code World generate_content json_code exec
             topic max_retries attempt0 code hist runs w) = Raise RuntimeError ->
  executions (debug_loop Code World generate_content json_code exec
                topic max_retries attempt0 code hist runs w)
  = runs + Z.to_nat (max_retries - attempt0)
  /\ length (error_history
               (debug_loop Code World generate_content json_code exec
                  topic max_retries attempt0 code hist runs w))
     = length hist + Z.to_nat (max_retries - attempt0).
Proof.
  intros Hparse.
  funelim (debug_loop Code World generate_content json_code exec
             topic max_retries attempt0 code hist runs w); simpl.
  - intros _. split; lia.
  - intros E. injection E as ->. exfalso. eapply Hparse; eassumption.
  - intros E. destruct (H Hparse E) as [He Hl].
    rewrite He, Hl, length_app. simpl. split; lia.
  - discriminate.
Qed.

End Session.

(** X14: the code [debug_code] returns is code that [exec] has just run
    without an exception: it is never returned unrun, and the outside is
    left in the state that run produced. *)
Theorem debug_code_returns_code_that_ran (Code World : Type)
  (generate_content : string -> Code -> list string -> World -> string * World)
  (json_code : string -> result Code)
  (exec : Code -> World -> option string * World)
  (topic : string) (code : Code) (error : string) (max_retries : Z) (w : World)
  (fixed : Code) :
  outcome (debug_code Code World generate_content json_code exec
             topic code error max_retries w) = Ok fixed ->
  exists w1,
    exec fixed w1
    = (None, world (debug_code Code World generate_content json_code exec
                      topic code error max_retries w)).
Proof. apply debug_loop_returned_code_ran. Qed.

(** An interpreter that accepts the script ["ok"] only, and a model that
    answers ["ok"] from its second request on. *)
Definition runs_ok_only (code : string) (requests : nat) : option string * nat :=
  if String.eqb code "ok" then (None, requests) else (Some "Traceback", requests).

Definition second_answer_ok (topic code : string) (history : list string)
  (requests : nat) : string * nat :=
  (match requests with O => "bad" | _ => "ok" end, S requests).

Lemma debug_code_returns_code_that_ran_witness :
  exists w1,
    runs_ok_only "ok" w1
    = (None, world (debug_code string nat second_answer_ok
                      RepairClaims.parses runs_ok_only
                      "topic" "first" "Traceback" 5 0)).
Proof.
  apply (debug_code_returns_code_that_ran string nat second_answer_ok
           RepairClaims.parses runs_ok_only "topic" "first" "Traceback" 5 0 "ok").
  reflexivity.
Defined.

(** X15: with a budget that is zero or negative, [debug_code] makes no
    request and runs nothing: it raises [RuntimeError] at once. *)
Theorem debug_code_without_budget (Code World : Type)
  (generate_content : string -> Code -> list string -> World -> string * World)
  (json_code : string -> result Code)
  (exec : Code -> World -> option string * World)
  (topic : string) (code : Code) (error : string) (max_retries : Z) (w : World) :
  (max_retries <= 0)%Z ->
  debug_code Code World generate_content json_code exec
    topic code error max_retries w
  = {| outcome := Raise RuntimeError; error_history := [error];
       attempt := 0; executions := 0; world := w |}.
Proof.
  intros Hle. unfold debug_code.
  funelim (debug_loop Code World generate_content json_code exec
             topic max_retries 0 code [error] 0 w);
    try reflexivity; lia.
Qed.

Lemma debug_code_without_budget_witness :
  debug_code string nat RepairClaims.counting_model RepairClaims.parses
    RepairClaims.always_fails "topic" "code" "Traceback" 0 7
  = {| outcome := Raise RuntimeError; error_history := ["Traceback"];
       attempt := 0; executions := 0; world := 7 |}.
Proof.
  apply (debug_code_without_budget string nat RepairClaims.counting_model
           RepairClaims.parses RepairClaims.always_fails
           "topic" "code" "Traceback" 0 7).
  reflexivity.
Defined.

(** X16: [debug_code] gives up only when the budget is spent: if it raises
    [RuntimeError] (and parsing itself raises none), the script was run
    exactly [max_retries] times and each run added its diagnostic to the
    history. *)
Theorem debug_code_gives_up_after_whole_budget (Code World : Type)
  (generate_content : string -> Code -> list string -> World -> string * World)
  (json_code : string -> result Code)
  (exec : Code -> World -> option string * World)
  (topic : string) (code : Code) (error : string) (max_retries : Z) (w : World) :
  (forall text, json_code text <> Raise RuntimeError) ->
  outcome (debug_code Code World generate_content json_code exec
             topic code error max_retries w) = Raise RuntimeError ->
  executions (debug_code Code World generate_content json_code exec
                topic code error max_retries w) = Z.to_nat max_retries
  /\ length (error_history
               (debug_code Code World generate_content json_code exec
                  topic code error max_retries w))
     = S (Z.to_nat max_retries).
Proof.
  intros Hparse Hout. unfold debug_code in *.
  destruct (debug_loop_gives_up_late Code World generate_content json_code exec
              topic max_retries 0 code [error] 0 w Hparse Hout) as [He Hl].
  rewrite Z.sub_0_r in He, Hl. simpl in Hl. split; assumption.
Qed.

Lemma debug_code_gives_up_after_whole_budget_witness :
  executions (debug_code string nat RepairClaims.counting_model
                RepairClaims.parses RepairClaims.always_fails
                "topic" "code" "Traceback" 2 0) = 2
  /\ length (error_history
               (debug_code string nat RepairClaims.counting_model
                  RepairClaims.parses RepairClaims.always_fails
                  "topic" "code" "Traceback" 2 0)) = 3.
Proof.
  apply (debug_code_gives_up_after_whole_budget string nat
           RepairClaims.counting_model RepairClaims.parses
           RepairClaims.always_fails "topic" "code" "Traceback" 2 0).
  - intros text. discriminate.
  - reflexivity.
Defined.

End RepairExtras.

(** ** Python text primitives: [strip] *)

Module StripFacts.
Import PyStr.

Lemma rstrip_cons_nonspace c s :
  is_space c = false -> rstrip (String c s) = String c (rstrip s).
Proof. intros H. simpl. rewrite H. now destruct (rstrip s). Qed.

Lemma lstrip_head s :
  lstrip s = "" \/ exists c t, lstrip s = String c t /\ is_space c = false.
Proof.
  induction s as [|c s IH]; simpl; [now left|].
  destruct (is_space c) eqn:E; [exact IH|]. right. now exists c, s.
Qed.

Lemma rstrip_idempotent s : rstrip (rstrip s) = rstrip s.
Proof.
  induction s as [|c s IH]; [reflexivity|].
  cbn [rstrip]. destruct (rstrip s) as [|d r] eqn:E.
  - destruct (is_space c) eqn:Ec; [reflexivity|]. simpl. now rewrite Ec.
  - cbn [rstrip]. cbn [rstrip] in IH. now rewrite IH.
Qed.

(** A text that is empty or starts and ends with something else than white
    space is left as it is. *)
Lemma strip_idempotent s : strip (strip s) = strip s.
Proof.
  unfold strip. destruct (lstrip_head s) as [->|(c & t & -> & Hc)];
    [reflexivity|].
  rewrite (rstrip_cons_nonspace _ _ Hc). cbn [lstrip]. rewrite Hc.
  rewrite <- (rstrip_cons_nonspace _ _ Hc). apply rstrip_idempotent.
Qed.

Lemma lstrip_no_space s :
  forallb (fun c => negb (is_space c)) s = true -> lstrip s = s.
Proof. destruct s as [|c s]; simpl; [reflexivity|]. now destruct (is_space c). Qed.

Lemma rstrip_no_space s :
  forallb (fun c => negb (is_space c)) s = true -> rstrip s = s.
Proof.
  induction s as [|c s IH]; [reflexivity|]. cbn [forallb]. intros H.
  apply andb_prop in H as [Hc Hs]. apply negb_true_iff in Hc.
  now rewrite (rstrip_cons_nonspace _ _ Hc), IH.
Qed.

Lemma strip_no_space s :
  forallb (fun c => negb (is_space c)) s = true -> strip s = s.
Proof. intros H. unfold strip. now rewrite (lstrip_no_space _ H), rstrip_no_space. Qed.

End StripFacts.

(** ** VocabularyTable *)

Module VocabularyFacts.
Import PyStr Vocabulary.

Definition names_of (t : class_type) (allowed : allowed_classes) : list string :=
  match t with
  | Scene => scene_names allowed
  | Mobject => mobject_names allowed
  | Animation => animation_names allowed
  end.

(** A first column that the loader takes for a class name: it has no white
    space around it, is not empty, is none of the three section words in
    any case of letters, and does not hold the words of the column header. *)
Definition is_class_row (name : string) : bool :=
  String.eqb (strip name) name
  && negb (String.eqb name "")
  && negb (String.eqb (Compiler.lower name) "mobjects")
  && negb (String.eqb (Compiler.lower name) "animations")
  && negb (String.eqb (Compiler.lower name) "scenes")
  && negb (contains "class name" (Compiler.lower name)).

Lemma set_add_in x y s : In x (set_add y s) <-> x = y \/ In x s.
Proof.
  unfold set_add. destruct (existsb (String.eqb y) s) eqn:E.
  - split; [now right|]. intros [->|H]; [|exact H].
    apply existsb_exists in E as (z & Hz & Ez).
    apply String.eqb_eq in Ez. now subst.
  - rewrite in_app_iff. simpl. intuition.
Qed.

Lemma set_add_NoDup y s : NoDup s -> NoDup (set_add y s).
Proof.
  intros Hs. unfold set_add. destruct (existsb (String.eqb y) s) eqn:E;
    [exact Hs|].
  apply NoDup_app; [exact Hs|repeat constructor; intros []|].
  intros x Hx [Ex|[]]. subst x.
  assert (existsb (String.eqb y) s = true);
    [apply existsb_exists; exists y; split; [exact Hx|apply String.eqb_refl]|].
  congruence.
Qed.

Lemma names_of_add_same t name allowed x :
  In x (names_of t (add_class t name allowed))
  <-> x = name \/ In x (names_of t allowed).
Proof. destruct t; simpl; apply set_add_in. Qed.

Lemma names_of_add_other t t' name allowed :
  t <> t' -> names_of t' (add_class t name allowed) = names_of t' allowed.
Proof. destruct t, t'; simpl; congruence. Qed.

Lemma names_of_add_NoDup t t' name allowed :
  NoDup (names_of t' allowed) -> NoDup (names_of t' (add_class t name allowed)).
Proof. destruct t, t'; simpl; auto using set_add_NoDup. Qed.

(** What a data row does to the state. *)
Lemma load_row_class_row t allowed name rest :
  is_class_row name = true ->
  load_row (Some t, allowed) (name :: rest)
  = (Some t, add_class t name allowed).
Proof.
  unfold is_class_row, load_row. intros H.
  repeat (apply andb_prop in H as [H ?]).
  apply String.eqb_eq in H. rewrite H.
  repeat match goal with
         | E : negb ?b = true |- _ => apply negb_true_iff in E; rewrite E
         end.
  reflexivity.
Qed.

Definition data_row (r : class_entry) : list string :=
  [entry_name r; entry_module r; entry_file r; entry_doc r].

Definition add_all (t : class_type) (results : list class_entry)
  (allowed : allowed_classes) : allowed_classes :=
  fold_left (fun a r => add_class t (entry_name r) a) results allowed.

Lemma load_data_rows t results : forall allowed,
  List.forallb is_class_row (map entry_name results) = true ->
  fold_left load_row (map data_row results) (Some t, allowed)
  = (Some t, add_all t results allowed).
Proof.
  induction results as [|r results IH]; intros allowed;
    cbn [map fold_left List.forallb]; [reflexivity|].
  intros H. apply andb_prop in H as [Hr Hrest].
  replace (load_row (Some t, allowed) (data_row r))
    with (Some t, add_class t (entry_name r) allowed)
    by (symmetry; apply load_row_class_row, Hr).
  now apply IH.
Qed.

Lemma load_export category t results state :
  (forall st, load_row st [category] = (Some t, snd st)) ->
  List.forallb is_class_row (map entry_name results) = true ->
  fold_left load_row (export_to_csv category results) state
  = (Some t, add_all t results (snd state)).
Proof.
  intros Hcat Hall. unfold export_to_csv.
  cbn [fold_left]. rewrite Hcat.
  change (load_row (Some t, snd state)
            ["Class Name"; "Module"; "File Path"; "Description"])
    with (Some t, snd state).
  rewrite fold_left_app. fold data_row.
  rewrite (load_data_rows _ _ _ Hall). reflexivity.
Qed.

Lemma add_all_same t results : forall allowed x,
  In x (names_of t (add_all t results allowed))
  <-> In x (map entry_name results) \/ In x (names_of t allowed).
Proof.
  induction results as [|r results IH]; intros allowed x; simpl; [tauto|].
  unfold add_all in *. simpl. rewrite IH, names_of_add_same. intuition.
Qed.

Lemma add_all_other t t' results : forall allowed,
  t <> t' -> names_of t' (add_all t results allowed) = names_of t' allowed.
Proof.
  induction results as [|r results IH]; intros allowed Hne; [reflexivity|].
  unfold add_all in *. simpl. rewrite IH by exact Hne.
  now apply names_of_add_other.
Qed.

(** X17: loading the file that [export_to_csv] wrote gives back the
    exported names, each under its own key, provided every name is one the
    loader takes for a class name (in particular none is a section word
    such as [Scenes]). *)
Theorem load_allowed_classes_of_exported_file mobjects animations scenes :
  List.forallb is_class_row (map entry_name mobjects) = true ->
  List.forallb is_class_row (map entry_name animations) = true ->
  List.forallb is_class_row (map entry_name scenes) = true ->
  forall x,
    (In x (mobject_names
             (load_allowed_classes (exported_file mobjects animations scenes)))
     <-> In x (map entry_name mobjects))
    /\ (In x (animation_names
                (load_allowed_classes (exported_file mobjects animations scenes)))
        <-> In x (map entry_name animations))
    /\ (In x (scene_names
                (load_allowed_classes (exported_file mobjects animations scenes)))
        <-> In x (map entry_name scenes)).
Proof.
  intros Hm Ha Hs x. unfold load_allowed_classes, exported_file.
  rewrite !fold_left_app.
  rewrite (load_export "Mobjects" Mobject mobjects _ (fun st => eq_refl) Hm).
  rewrite (load_export "Animations" Animation animations _ (fun st => eq_refl) Ha).
  rewrite (load_export "Scenes" Scene scenes _ (fun st => eq_refl) Hs).
  cbn [snd].
  split; [|split].
  - change (mobject_names ?a) with (names_of Mobject a).
    rewrite !add_all_other by discriminate.
    rewrite add_all_same. simpl. tauto.
  - change (animation_names ?a) with (names_of Animation a).
    rewrite !add_all_other by discriminate.
    rewrite add_all_same, add_all_other by discriminate. simpl. tauto.
  - change (scene_names ?a) with (names_of Scene a).
    rewrite add_all_same, !add_all_other by discriminate. simpl. tauto.
Qed.

Definition entry (name : string) : class_entry :=
  {| entry_name := name; entry_module := "manim.module";
     entry_file := "/site-packages/manim/module.py"; entry_doc := "A class." |}.

Lemma load_allowed_classes_of_exported_file_witness :
  (In "Circle"
      (mobject_names
         (load_allowed_classes
            (exported_file [entry "Circle"; entry "Square"] [entry "FadeIn"]
               [entry "ThreeDScene"])))
   <-> In "Circle" (map entry_name [entry "Circle"; entry "Square"]))
  /\ (In "Circle"
         (animation_names
            (load_allowed_classes
               (exported_file [entry "Circle"; entry "Square"] [entry "FadeIn"]
                  [entry "ThreeDScene"])))
      <-> In "Circle" (map entry_name [entry "FadeIn"]))
  /\ (In "Circle"
         (scene_names
            (load_allowed_classes
               (exported_file [entry "Circle"; entry "Square"] [entry "FadeIn"]
                  [entry "ThreeDScene"])))
      <-> In "Circle" (map entry_name [entry "ThreeDScene"])).
Proof.
  apply (load_allowed_classes_of_exported_file
           [entry "Circle"; entry "Square"] [entry "FadeIn"]
           [entry "ThreeDScene"]); reflexivity.
Defined.

(** What one row can add to a set. *)
Lemma load_row_adds state row t x :
  In x (names_of t (snd (load_row state row))) ->
  In x (names_of t (snd state))
  \/ (is_class_row x = true
      /\ exists first rest, row = (first :: rest)%list /\ x = strip first).
Proof.
  unfold load_row. destruct row as [|first rest]; [now left|].
  destruct (String.eqb (strip first) "") eqn:E0; [now left|].
  destruct (String.eqb (Compiler.lower (strip first)) "mobjects") eqn:E1;
    [now left|].
  destruct (String.eqb (Compiler.lower (strip first)) "animations") eqn:E2;
    [now left|].
  destruct (String.eqb (Compiler.lower (strip first)) "scenes") eqn:E3;
    [now left|].
  destruct (contains "class name" (Compiler.lower (strip first))) eqn:E4;
    [now left|].
  destruct (fst state) as [t0|]; [|now left].
  cbn [snd]. intros Hin.
  assert (Hnew : is_class_row (strip first) = true).
  { unfold is_class_row.
    rewrite StripFacts.strip_idempotent, String.eqb_refl, E0, E1, E2, E3, E4.
    reflexivity. }
  assert (Hcase : x = strip first \/ In x (names_of t (snd state))).
  { destruct t, t0; simpl in Hin |- *;
      try (apply set_add_in in Hin; exact Hin); now right. }
  destruct Hcase as [->|Hold]; [right|now left].
  split; [exact Hnew|]. now exists first, rest.
Qed.

Lemma fold_load_row_adds rows : forall state t x,
  In x (names_of t (snd (fold_left load_row rows state))) ->
  In x (names_of t (snd state))
  \/ (is_class_row x = true
      /\ exists first rest, In (first :: rest)%list rows /\ x = strip first).
Proof.
  induction rows as [|row rows IH]; intros state t x; cbn [fold_left];
    [now left|].
  intros Hin. destruct (IH _ _ _ Hin) as [Hold|(Hc & first & rest & Hr & Hx)].
  - destruct (load_row_adds _ _ _ _ Hold) as [H|(Hc & first & rest & -> & Hx)];
      [now left|].
    right. split; [exact Hc|]. exists first, rest. split; [now left|exact Hx].
  - right. split; [exact Hc|]. exists first, rest. split; [now right|exact Hx].
Qed.

(** X18: whatever the rows are, a name the loader puts under a key is the
    first column of some row with the white space around it removed; it is
    not empty, is no section word and does not hold the words of the column
    header. *)
Theorem loaded_names_come_from_class_rows rows t x :
  In x (names_of t (load_allowed_classes rows)) ->
  is_class_row x = true
  /\ exists first rest, In (first :: rest)%list rows /\ x = strip first.
Proof.
  unfold load_allowed_classes. intros Hin.
  destruct (fold_load_row_adds _ _ _ _ Hin) as [Hold|H]; [|exact H].
  destruct t; destruct Hold.
Qed.

Lemma loaded_names_come_from_class_rows_witness :
  is_class_row "Circle" = true
  /\ exists first rest,
       In (first :: rest)%list
          [["mobjects"]; ["  Circle "; "manim"]; ["Class Name"]; []]
       /\ "Circle" = strip first.
Proof.
  apply (loaded_names_come_from_class_rows
           [["mobjects"]; ["  Circle "; "manim"]; ["Class Name"]; []] Mobject).
  simpl. now left.
Defined.

(** A row that opens a section. *)
Definition is_section_row (row : list string) : bool :=
  match row with
  | [] => false
  | first :: _ =>
      let word := Compiler.lower (strip first) in
      String.eqb word "mobjects" || String.eqb word "animations"
      || String.eqb word "scenes"
  end.

Lemma load_row_before_sections allowed row :
  is_section_row row = false -> load_row (None, allowed) row = (None, allowed).
Proof.
  unfold is_section_row, load_row. destruct row as [|first rest]; [reflexivity|].
  intros H. apply orb_false_elim in H as [H H3].
  apply orb_false_elim in H as [H1 H2]. rewrite H1, H2, H3.
  destruct (String.eqb (strip first) ""); [reflexivity|].
  now destruct (contains "class name" _).
Qed.

(** X19: the rows before the first section row count for nothing: the
    loader gives the same sets with and without them. In particular a file
    without any section row loads as three empty sets. *)
Theorem rows_before_first_section_are_ignored before rows :
  List.forallb (fun row => negb (is_section_row row)) before = true ->
  load_allowed_classes (before ++ rows) = load_allowed_classes rows.
Proof.
  intros H. unfold load_allowed_classes. rewrite fold_left_app. f_equal. f_equal.
  induction before as [|row before IH]; [reflexivity|].
  cbn [List.forallb] in H. apply andb_prop in H as [Hrow Hrest].
  apply negb_true_iff in Hrow. cbn [fold_left].
  rewrite (load_row_before_sections _ _ Hrow). now apply IH.
Qed.

Lemma rows_before_first_section_are_ignored_witness :
  load_allowed_classes
    ([["Circle"; "manim"]; ["Class Name"; "Module"]; []]
     ++ [["Mobjects"]; ["Square"]])
  = load_allowed_classes [["Mobjects"]; ["Square"]].
Proof.
  apply (rows_before_first_section_are_ignored
           [["Circle"; "manim"]; ["Class Name"; "Module"]; []]
           [["Mobjects"]; ["Square"]]).
  reflexivity.
Defined.

End VocabularyFacts.

(** ** Storyboard generation *)

Module GenerationFacts.
Import Py Generation.

Section Run.
Variable World : Type.
Variable call_gemini : World -> string * World.
Variable json_loads : string -> option value.

(** The answer to the request number [n], counted from 1, and the model
    service after it; before the first request nothing is answered. *)
Fixpoint request (n : nat) (w : World) : string * World :=
  match n with
  | O => ("", w)
  | S k => call_gemini (snd (request k w))
  end.

(** What that answer parses to, once sanitized. *)
Definition parsed (n : nat) (w : World) : option value :=
  json_loads (Sanitizer.fix_gemini_json (fst (request n w))).




(** X21: a response whose sanitized text parses to something that is not a
    mapping is not retried: validation raises [AttributeError], which ends
    the generation at that request, whatever the attempt is and whatever
    is left of the budget. *)
Theorem non_mapping_response_ends_generation (attempt : nat)
  (rest : list nat) (requests : nat) (w : World) (storyboard : value) :
  json_loads (Sanitizer.fix_gemini_json (fst (call_gemini w)))
  = Some storyboard ->
  ValidatorFacts.is_dict storyboard = false ->
  generation_loop World call_gemini json_loads (attempt :: rest) requests w
  = {| result := Raised AttributeError; requests := S requests;
       world := snd (call_gemini w) |}.
Proof.
  intros Hparse Hdict. cbn [generation_loop].
  destruct (call_gemini w) as [raw w1]. cbn [fst snd] in *.
  rewrite Hparse.
  destruct storyboard; try discriminate Hdict; reflexivity.
Qed.

End Run.




Definition answers_a_list (asked : nat) : string * nat :=
  ("[1, 2]", S asked).

Definition parses_lists (text : string) : option value :=
  if String.eqb text "[1, 2]"
  then Some (VList [VNum (Int 1); VNum (Int 2)]) else None.

Lemma non_mapping_response_ends_generation_witness :
  generation_loop nat answers_a_list parses_lists [2; 3] 1 1
  = {| result := Raised AttributeError; requests := 2;
       world := snd (answers_a_list 1) |}.
Proof.
  apply (non_mapping_response_ends_generation nat answers_a_list parses_lists
           2 [3] 1 1 (VList [VNum (Int 1); VNum (Int 2)])); reflexivity.
Defined.

End GenerationFacts.

(** ** [extract_json] *)

Module JsonTextFacts.
Import PyStr JsonText SanitizerFacts SanitizerExtras StripFacts.

(** The greedy group ends at the last [c] of the text. *)
Lemma upto_last_complete c s :
  0 < count c s ->
  exists body post,
    upto_last c s = Some (body ++ String c "")
    /\ s = body ++ String c post /\ count c post = 0.
Proof.
  induction s as [|d s IH]; simpl; [lia|].
  intros H. destruct (Nat.eq_dec (count c s) 0) as [Hz|Hnz].
  - assert (Hnone : upto_last c s = None).
    { clear -Hz. induction s as [|e s IH]; simpl in *; [reflexivity|].
      destruct (Ascii.eqb e c); [discriminate|]. now rewrite IH. }
    rewrite Hnone. destruct (Ascii.eqb_spec d c) as [->|_]; [|simpl in H; lia].
    exists "", s. auto.
  - destruct IH as (body & post & -> & Hs & Hpost); [lia|].
    exists (String d body), post. simpl. now rewrite Hs at 1.
Qed.

Lemma search_braces_first pre : forall rest,
  count "{" pre = 0 -> 0 < count "}" rest ->
  exists body post,
    search_braces (pre ++ String "{" rest) = Some (String "{" (body ++ "}"))
    /\ rest = body ++ String "}" post /\ count "}" post = 0.
Proof.
  induction pre as [|c pre IH]; intros rest Hpre Hrest.
  - destruct (upto_last_complete "}" rest Hrest) as (body & post & Hu & Hs & Hp).
    exists body, post. simpl. rewrite Hu. auto.
  - simpl in Hpre. destruct (Ascii.eqb_spec c "{"%char) as [->|Hc];
      [discriminate|].
    destruct (IH rest) as (body & post & Hs & Hr & Hp); [exact Hpre|exact Hrest|].
    exists body, post. cbn [append search_braces].
    destruct (Ascii.eqb_spec c "{"%char); [contradiction|]. auto.
Qed.

Lemma rstrip_snoc_nonspace body c :
  is_space c = false -> rstrip (body ++ String c "") = body ++ String c "".
Proof.
  intros Hc. induction body as [|d body IH]; simpl; [now rewrite Hc|].
  rewrite IH. now destruct body.
Qed.

Lemma strip_braced body :
  strip (String "{" (body ++ "}")) = String "{" (body ++ "}").
Proof.
  unfold strip. cbn [lstrip]. change (is_space "{") with false. cbv iota.
  rewrite rstrip_cons_nonspace by reflexivity.
  now rewrite rstrip_snoc_nonspace.
Qed.

(** X22: in a text without a fenced block, when the first [{] has some [}]
    after it, [extract_json] returns the text from that first [{] to the
    last [}], both included, and nothing around it. *)
Theorem extract_json_first_to_last_brace pre rest :
  Sanitizer.search_fenced (pre ++ String "{" rest) = None ->
  count "{" pre = 0 -> 0 < count "}" rest ->
  exists body post,
    rest = body ++ String "}" post /\ count "}" post = 0
    /\ extract_json (pre ++ String "{" rest) = String "{" (body ++ "}").
Proof.
  intros Hfence Hpre Hrest. unfold extract_json. rewrite Hfence.
  destruct (search_braces_first pre rest Hpre Hrest)
    as (body & post & -> & Hr & Hp).
  exists body, post. now rewrite strip_braced.
Qed.

Lemma extract_json_first_to_last_brace_witness :
  exists body post,
    "a: 1} and {b} end" = body ++ String "}" post /\ count "}" post = 0
    /\ extract_json ("Here is JSON: " ++ String "{" "a: 1} and {b} end")
       = String "{" (body ++ "}").
Proof.
  apply (extract_json_first_to_last_brace "Here is JSON: " "a: 1} and {b} end").
  - reflexivity.
  - reflexivity.
  - simpl. lia.
Defined.

(** X23: whichever branch is taken, the result of [extract_json] has no
    white space at its ends. *)
Theorem extract_json_is_stripped text :
  strip (extract_json text) = extract_json text.
Proof.
  unfold extract_json.
  destruct (Sanitizer.search_fenced text); [apply strip_idempotent|].
  destruct (search_braces text); apply strip_idempotent.
Qed.

End JsonTextFacts.

(** ** Finding the scene class *)

Module SceneClassFacts.
Import PyStr SceneClass SanitizerFacts SanitizerExtras StripFacts.

Lemma count_lstrip c s : count c (lstrip s) <= count c s.
Proof.
  induction s as [|d s IH]; simpl; [lia|].
  destruct (is_space d); simpl; lia.
Qed.

Lemma count_rstrip c s : count c (rstrip s) <= count c s.
Proof.
  induction s as [|d s IH]; [simpl; lia|].
  cbn [rstrip]. destruct (rstrip s) as [|e r].
  - destruct (is_space d); simpl in *; lia.
  - cbn [count] in *. lia.
Qed.

Lemma count_strip c s : count c (strip s) <= count c s.
Proof.
  unfold strip. pose proof (count_rstrip c (lstrip s)).
  pose proof (count_lstrip c s). lia.
Qed.

Lemma before_first_char c s : count c (before_first (String c "") s) = 0.
Proof.
  induction s as [|d s IH]; [reflexivity|].
  cbn [before_first strip_prefix].
  destruct (Ascii.eqb_spec c d) as [->|Hne]; [reflexivity|].
  cbn [count]. destruct (Ascii.eqb_spec d c); [congruence|exact IH].
Qed.

(** X24: a class name that [main] hands to manim is not empty, holds no
    opening parenthesis and has no white space at its ends. *)
Theorem scene_class_name_shape script_code class_name :
  scene_class_name script_code = Some class_name ->
  class_name <> ""
  /\ count "(" class_name = 0
  /\ strip class_name = class_name.
Proof.
  unfold scene_class_name.
  destruct (find_class_name (splitlines script_code)) as [found|] eqn:Hfind;
    [|discriminate].
  destruct (String.eqb_spec found "") as [|Hne]; [discriminate|].
  intros H. injection H as <-. split; [exact Hne|].
  revert Hfind. generalize (splitlines script_code) as lines.
  induction lines as [|line lines IH]; cbn [find_class_name]; [discriminate|].
  destruct (is_scene_class_line line); [|exact IH].
  destruct (split_second "class " line) as [second|]; [|discriminate].
  intros H. injection H as <-. split.
  - pose proof (count_strip "(" (before_first "(" second)).
    pose proof (before_first_char "(" second). lia.
  - apply strip_idempotent.
Qed.

Lemma scene_class_name_shape_witness :
  "Demo" <> ""
  /\ count "(" "Demo" = 0
  /\ strip "Demo" = "Demo".
Proof.
  apply (scene_class_name_shape "import x
  class  Demo (Scene):
    pass").
  reflexivity.
Defined.

Lemma no_space_no_class_word s :
  count " " s = 0 -> before_first "class " s = s.
Proof.
  induction s as [|c s IH]; [reflexivity|].
  intros H. cbn [before_first].
  destruct (strip_prefix "class " (String c s)) as [r|] eqn:E.
  - exfalso. apply strip_prefix_sound in E. rewrite E in H.
    rewrite (count_app " " "class " r) in H. simpl in H. lia.
  - f_equal. apply IH. simpl in H. destruct (Ascii.eqb c " "); [discriminate|].
    exact H.
Qed.

Lemma before_first_char_app c a b :
  count c a = 0 -> before_first (String c "") (a ++ String c b) = a.
Proof.
  induction a as [|d a IH]; intros H.
  - simpl. now rewrite Ascii.eqb_refl.
  - simpl in H. cbn [append before_first strip_prefix].
    destruct (Ascii.eqb_spec c d) as [->|Hne].
    + rewrite Ascii.eqb_refl in H. discriminate.
    + f_equal. apply IH. destruct (Ascii.eqb d c); [discriminate|exact H].
Qed.

Lemma contains_at_head needle hay rest :
  strip_prefix needle hay = Some rest -> contains needle hay = true.
Proof. intros H. destruct hay; simpl; now rewrite H. Qed.

Lemma strip_prefix_self needle b : strip_prefix needle (needle ++ b) = Some b.
Proof.
  induction needle as [|d n IH]; simpl; [reflexivity|].
  now rewrite Ascii.eqb_refl.
Qed.

Lemma contains_app needle a b : contains needle (a ++ needle ++ b) = true.
Proof.
  induction a as [|c a IH].
  - apply (contains_at_head needle (needle ++ b) b), strip_prefix_self.
  - cbn [append contains].
    destruct (strip_prefix needle (String c (a ++ needle ++ b)));
      [reflexivity|exact IH].
Qed.

Lemma no_space_count s :
  forallb (fun c => negb (is_space c)) s = true -> count " " s = 0.
Proof.
  intros H. apply (count_forallb_other _ _ _ H). reflexivity.
Qed.

(** The header line of a class [name] that derives from [Scene]. *)
Definition scene_header (name : string) : string :=
  "class " ++ name ++ "(Scene):".

Lemma scene_header_found name :
  forallb (fun c => negb (is_space c)) name = true ->
  count "(" name = 0 ->
  is_scene_class_line (scene_header name) = true
  /\ split_second "class " (scene_header name) = Some (name ++ "(Scene):")
  /\ strip (before_first "(" (name ++ "(Scene):")) = name.
Proof.
  intros Hspace Hparen. unfold scene_header. split; [|split].
  - unfold is_scene_class_line.
    assert (Hstrip : strip ("class " ++ name ++ "(Scene):")
                     = "class " ++ name ++ "(Scene):").
    { replace (name ++ "(Scene):") with ((name ++ "(Scene)") ++ ":")
        by (rewrite append_assoc; reflexivity).
      rewrite <- append_assoc.
      unfold strip. cbn [append lstrip]. change (is_space "c") with false.
      cbv iota. rewrite rstrip_cons_nonspace by reflexivity. f_equal.
      exact (JsonTextFacts.rstrip_snoc_nonspace
               ("lass " ++ name ++ "(Scene)") ":" eq_refl). }
    rewrite Hstrip. apply andb_true_intro. split; [reflexivity|].
    replace (name ++ "(Scene):") with (name ++ "(Scene)" ++ ":") by reflexivity.
    rewrite <- append_assoc. apply contains_app.
  - unfold split_second. cbn [append after_first strip_prefix Ascii.eqb Bool.eqb].
    cbn [option_map]. f_equal. apply no_space_no_class_word.
    rewrite count_app, (no_space_count _ Hspace). reflexivity.
  - change (name ++ "(Scene):") with (name ++ String "(" "Scene):").
    rewrite (before_first_char_app _ _ _ Hparen). now apply strip_no_space.
Qed.

Definition line_feed : string := String (ascii_of_nat 10) "".

(** Lines put one after the other, each followed by a line feed. *)
Fixpoint unlines (lines : list string) : string :=
  match lines with
  | [] => ""
  | line :: rest => line ++ line_feed ++ unlines rest
  end.

Definition one_line (line : string) : bool :=
  forallb (fun c => negb (is_line_end c)) line.

Lemma splitlines_first line rest :
  one_line line = true ->
  splitlines (line ++ line_feed ++ rest) = line :: splitlines rest.
Proof.
  unfold one_line. induction line as [|c line IH]; intros H.
  - reflexivity.
  - cbn [forallb] in H. apply andb_prop in H as [Hc Hline].
    apply negb_true_iff in Hc. cbn [append splitlines]. rewrite Hc.
    now rewrite (IH Hline).
Qed.

Lemma line_end_is_space c : is_line_end c = true -> is_space c = true.
Proof.
  unfold is_line_end, is_space. intros H.
  repeat (apply orb_prop in H as [H|H]);
    repeat match goal with
           | E : (_ && _)%bool = true |- _ => apply andb_prop in E as [? ?]
           | E : (_ <=? _) = true |- _ => apply Nat.leb_le in E
           | E : (_ =? _) = true |- _ => apply Nat.eqb_eq in E
           end.
  - replace ((9 <=? ord c) && (ord c <=? 13))%bool with true; [reflexivity|].
    symmetry. apply andb_true_intro. split; apply Nat.leb_le; lia.
  - replace ((28 <=? ord c) && (ord c <=? 32))%bool with true;
      [now rewrite orb_true_r|].
    symmetry. apply andb_true_intro. split; apply Nat.leb_le; lia.
  - rewrite H. now rewrite !orb_true_r.
Qed.

Lemma no_space_one_line s :
  forallb (fun c => negb (is_space c)) s = true -> one_line s = true.
Proof.
  unfold one_line. induction s as [|c s IH]; [reflexivity|].
  cbn [forallb]. intros H. apply andb_prop in H as [Hc Hs].
  rewrite (IH Hs), andb_true_r.
  destruct (is_line_end c) eqn:E; [|reflexivity].
  apply line_end_is_space in E. now rewrite E in Hc.
Qed.

Lemma scene_header_one_line name :
  forallb (fun c => negb (is_space c)) name = true ->
  one_line (scene_header name) = true.
Proof.
  intros H. unfold scene_header, one_line.
  rewrite !forallb_app. fold (one_line name).
  now rewrite (no_space_one_line _ H).
Qed.

(** X25: in a script whose first lines are no scene class lines, followed
    by the line [class N(Scene):], [main] finds [N], for every [N] that is
    not empty and holds neither white space nor an opening parenthesis. *)
Theorem scene_class_name_of_header before name rest :
  List.forallb (fun l => one_line l && negb (is_scene_class_line l)) before = true ->
  forallb (fun c => negb (is_space c)) name = true ->
  count "(" name = 0 ->
  name <> "" ->
  scene_class_name
    (unlines before ++ scene_header name ++ line_feed ++ rest)
  = Some name.
Proof.
  intros Hbefore Hspace Hparen Hname. unfold scene_class_name.
  assert (Hfind : find_class_name
                    (splitlines
                       (unlines before ++ scene_header name ++ line_feed ++ rest))
                  = Some name).
  { induction before as [|l before IH].
    - cbn [unlines append].
      rewrite (splitlines_first _ _ (scene_header_one_line _ Hspace)).
      cbn [find_class_name].
      destruct (scene_header_found name Hspace Hparen) as (-> & -> & ->).
      reflexivity.
    - cbn [List.forallb] in Hbefore. apply andb_prop in Hbefore as [Hl Hrest].
      apply andb_prop in Hl as [Hone Hno]. apply negb_true_iff in Hno.
      cbn [unlines]. rewrite !append_assoc.
      rewrite (splitlines_first _ _ Hone). cbn [find_class_name].
      rewrite Hno. now apply IH. }
  rewrite Hfind. destruct (String.eqb_spec name ""); [contradiction|reflexivity].
Qed.

Lemma scene_class_name_of_header_witness :
  scene_class_name
    (unlines ["from manim import *"; ""; "# class Old(Scene):"]
     ++ scene_header "Demo" ++ line_feed ++ "    def construct(self): pass")
  = Some "Demo".
Proof.
  apply (scene_class_name_of_header
           ["from manim import *"; ""; "# class Old(Scene):"] "Demo"
           "    def construct(self): pass").
  - reflexivity.
  - reflexivity.
  - reflexivity.
  - discriminate.
Defined.

End SceneClassFacts.

(** ** [make_json_safe] *)

Module JsonSafeFacts.
Import PyStr JsonSafe SanitizerFacts SanitizerExtras.






End JsonSafeFacts.
